(** * OpenFaaS gateway metrics: enrichment handler, join engine, exporter

    A shallow embedding of [gateway/metrics/add_metrics.go] (the handler
    [AddMetricsHandler] and the joins [mixIn], [mixCPU], [mixMemory],
    [mixTime]) and of the exporter ([Exporter.Collect], [Exporter.calc],
    the service watcher tick), followed by the properties of the
    specification stated and proved (or refuted) against it.

    Go values are modelled as follows.
    - [float64] is Rocq's primitive binary64 [float]; [+=], [/=] and [!=]
      are [PrimFloat.add], [PrimFloat.div] and the negation of
      [PrimFloat.eqb].
    - [string] and [[]byte] are [string]; [uint64] is [Z].
    - a pointer that the code tests against [nil] or dereferences is an
      [option]; a nil dereference is the outcome [Panic NilDereference].
    - [error] is [option string] ([None] is [nil]).
    - slices are lists, indexed with stdpp's [!!] and [<[i:=x]>].
    - what the code does to its environment (the log, the queries sent to
      the metrics backend) is threaded through a small state-and-panic
      monad [M]; what it does to its arguments ([w], [ch], the record list,
      the exporter) is passed explicitly. *)

From Stdlib Require Import ZArith Floats Ascii.
From stdpp Require Import base tactics option list gmap strings.

Local Open Scope string_scope.
Local Open Scope list_scope.

(** ** Go values *)

Definition error := option string.

(** A decoded JSON value held in an [interface{}]. The code only asks
    whether the value is a [string]; arrays and objects are [JComposite]. *)
Inductive jvalue :=
| JNull
| JBool (b : bool)
| JNumber (f : float)
| JString (s : string)
| JComposite.

Inductive panic :=
| NilDereference
| IndexOutOfRange
| TypeAssertion.

Inductive res (A : Type) :=
| Ok (a : A)
| Panic (p : panic).
Arguments Ok {A} a.
Arguments Panic {A} p.

(** ** Data model *)

(** Modelled from the spec: the declarations of [FunctionResources] and
    [FunctionUsage] are not among the sources; the fields are the ones the
    handler and the joins read and write. The same records serve for the
    provider's [types.FunctionResources] and [types.FunctionUsage]. *)
Module FunctionResources.
Record t := mk { Memory : string; CPU : string }.
End FunctionResources.

Module FunctionUsage.
Record t := mk { CPU : float; TotalMemoryBytes : float }.
End FunctionUsage.

(** [types.FunctionStatus] of the provider package: what the upstream
    listing handler returns and what the exporter keeps in its snapshot. *)
Module types.
Record FunctionStatus := {
  Name : string;
  Image : string;
  Namespace : string;
  EnvProcess : string;
  EnvVars : gmap string string;
  Constraints : list string;
  Secrets : list string;
  Labels : option (gmap string string);
  Annotations : option (gmap string string);
  Limits : option FunctionResources.t;
  Requests : option FunctionResources.t;
  ReadOnlyRootFilesystem : bool;
  InvocationCount : float;
  Replicas : Z;
  AvailableReplicas : Z;
  CreatedAt : option Z;
  Usage : option FunctionUsage.t
}.
End types.

(** Modelled from the spec: the gateway's own [FunctionStatus] (declared in
    a file that is not among the sources) is the provider's record with the
    extra metric field [InvocationAvgTime]. [Usage], [Limits] and [Requests]
    are pointers; the handler allocates one fresh struct per record and
    nothing else holds it, so each record owns its optional value. *)
Record FunctionStatus := {
  Name : string;
  Image : string;
  Namespace : string;
  EnvProcess : string;
  EnvVars : gmap string string;
  Constraints : list string;
  Secrets : list string;
  Labels : option (gmap string string);
  Annotations : option (gmap string string);
  Limits : option FunctionResources.t;
  Requests : option FunctionResources.t;
  ReadOnlyRootFilesystem : bool;
  InvocationCount : float;
  InvocationAvgTime : float;
  Replicas : Z;
  AvailableReplicas : Z;
  CreatedAt : option Z;
  Usage : option FunctionUsage.t
}.

Definition set_InvocationCount (x : float) (r : FunctionStatus) : FunctionStatus :=
  {| Name := Name r; Image := Image r; Namespace := Namespace r;
     EnvProcess := EnvProcess r; EnvVars := EnvVars r;
     Constraints := Constraints r; Secrets := Secrets r; Labels := Labels r;
     Annotations := Annotations r; Limits := Limits r; Requests := Requests r;
     ReadOnlyRootFilesystem := ReadOnlyRootFilesystem r;
     InvocationCount := x; InvocationAvgTime := InvocationAvgTime r;
     Replicas := Replicas r; AvailableReplicas := AvailableReplicas r;
     CreatedAt := CreatedAt r; Usage := Usage r |}.

Definition set_InvocationAvgTime (x : float) (r : FunctionStatus) : FunctionStatus :=
  {| Name := Name r; Image := Image r; Namespace := Namespace r;
     EnvProcess := EnvProcess r; EnvVars := EnvVars r;
     Constraints := Constraints r; Secrets := Secrets r; Labels := Labels r;
     Annotations := Annotations r; Limits := Limits r; Requests := Requests r;
     ReadOnlyRootFilesystem := ReadOnlyRootFilesystem r;
     InvocationCount := InvocationCount r; InvocationAvgTime := x;
     Replicas := Replicas r; AvailableReplicas := AvailableReplicas r;
     CreatedAt := CreatedAt r; Usage := Usage r |}.

Definition set_Usage (u : option FunctionUsage.t) (r : FunctionStatus) : FunctionStatus :=
  {| Name := Name r; Image := Image r; Namespace := Namespace r;
     EnvProcess := EnvProcess r; EnvVars := EnvVars r;
     Constraints := Constraints r; Secrets := Secrets r; Labels := Labels r;
     Annotations := Annotations r; Limits := Limits r; Requests := Requests r;
     ReadOnlyRootFilesystem := ReadOnlyRootFilesystem r;
     InvocationCount := InvocationCount r;
     InvocationAvgTime := InvocationAvgTime r;
     Replicas := Replicas r; AvailableReplicas := AvailableReplicas r;
     CreatedAt := CreatedAt r; Usage := u |}.

(** Modelled from the spec: [VectorQueryResponse] (declared in the query
    client's file, not among the sources). A sample carries its label set
    and a two-element tuple (timestamp, string-encoded value); the joins
    read [Metric.FunctionName], [Metric.Container], [Metric.Namespace] and
    [Value[1]]. *)
Module Metric.
Record t := mk { FunctionName : string; Container : string; Namespace : string }.
End Metric.

Record VectorSample := { Metric : Metric.t; Value : jvalue * jvalue }.

Record VectorData := { Result : list VectorSample }.

Record VectorQueryResponse := { Status : string; Data : VectorData }.

(** Modelled from the spec: the interface [PrometheusQueryFetcher]
    (MetricsQueryClient). [Fetch] takes the encoded query and returns a
    pointer to the parsed response and an error; the client may keep state
    of its own between calls, which is the type [T]. *)
Class PrometheusQueryFetcher (T : Type) :=
  Fetch : T -> string -> T * (option VectorQueryResponse * error).

(** The functions of Go's standard library that the code calls:
    [strconv.ParseFloat(s, 64)], [url.QueryEscape], and [json.Unmarshal] /
    [json.Marshal] at the two types the handler uses them at. *)
Class GoLibrary := {
  ParseFloat : string -> float * error;
  QueryEscape : string -> string;
  Unmarshal : string -> list types.FunctionStatus * error;
  Marshal : list FunctionStatus -> string * error
}.

(** ** The environment monad: log, backend queries, panics *)

Inductive LogArg :=
| LStr (s : string)
| LInt (z : Z)
| LFloat (f : float).

(** A call [log.Printf(format, args...)], kept unformatted. *)
Record LogEntry := { log_format : string; log_args : list LogArg }.

Record World (T : Type) := {
  prometheus : T;
  fetched : list string;
  logged : list LogEntry
}.
Arguments prometheus {T} _.
Arguments fetched {T} _.
Arguments logged {T} _.

Definition M (T A : Type) : Type := World T -> World T * res A.

Definition ret {T A} (a : A) : M T A := fun σ => (σ, Ok a).

Definition bind {T A B} (m : M T A) (k : A -> M T B) : M T B :=
  fun σ => match m σ with
           | (σ', Ok a) => k a σ'
           | (σ', Panic p) => (σ', Panic p)
           end.

Notation "x <- m ;; k" := (bind m (fun x => k))
  (at level 100, m at next level, right associativity).
Notation "m ;;; k" := (bind m (fun _ => k))
  (at level 100, right associativity).

Definition throw {T A} (p : panic) : M T A := fun σ => (σ, Panic p).

Definition logPrintf {T} (format : string) (args : list LogArg) : M T unit :=
  fun σ => ({| prometheus := prometheus σ;
               fetched := fetched σ;
               logged := logged σ ++ [{| log_format := format; log_args := args |}] |},
            Ok tt).

(** [log.Println(msg)] *)
Definition logPrintln {T} (msg : string) : M T unit := logPrintf "%s" [LStr msg].

Definition fetch {T} {client : PrometheusQueryFetcher T} (q : string)
  : M T (option VectorQueryResponse * error) :=
  fun σ => let (p', r) := Fetch (prometheus σ) q in
           ({| prometheus := p'; fetched := fetched σ ++ [q]; logged := logged σ |},
            Ok r).

(** [*p] for a pointer [p]. *)
Definition deref {T A} (p : option A) : M T A :=
  match p with
  | Some a => ret a
  | None => throw NilDereference
  end.

(** [err.Error()]: a method call on a nil interface value panics. *)
Definition errorString {T} (err : error) : M T string := deref err.

(** [for _, x := range l { s = body x s }] *)
Fixpoint forRange {T A St} (l : list A) (body : A -> St -> M T St) (s : St) : M T St :=
  match l with
  | [] => ret s
  | x :: l' => s' <- body x s ;; forRange l' body s'
  end.

(** [for i := range ...] over the [n] indices from [i] on. *)
Fixpoint forIndex {T St} (n i : nat) (body : nat -> St -> M T St) (s : St) : M T St :=
  match n with
  | O => ret s
  | S n' => s' <- body i s ;; forIndex n' (S i) body s'
  end.

(** In-place update of element [i] of a slice: indexing past the end
    panics. *)
Definition updateAt {T A} (i : nat) (f : A -> M T A) (l : list A) : M T (list A) :=
  match l !! i with
  | Some a => a' <- f a ;; ret (<[i := a']> l)
  | None => throw IndexOutOfRange
  end.

(** ** Join engine ([add_metrics.go]) *)

Section Joins.
Context {lib : GoLibrary} {T : Type}.

(** [v.Metric.FunctionName == fmt.Sprintf("%s.%s", function.Name, function.Namespace)] *)
Definition matchesFunctionName (function : FunctionStatus) (v : VectorSample) : bool :=
  String.eqb (Metric.FunctionName (Metric v))
             (Name function +:+ "." +:+ Namespace function).

(** [v.Metric.Container == fmt.Sprintf("%s", function.Name) &&
     v.Metric.Namespace == fmt.Sprintf("%s", function.Namespace)] *)
Definition matchesContainer (function : FunctionStatus) (v : VectorSample) : bool :=
  String.eqb (Metric.Container (Metric v)) (Name function)
  && String.eqb (Metric.Namespace (Metric v)) (Namespace function).

Definition conversionFailure : string :=
  "add_metrics: unable to convert value %q for metric: %s".

(** [func mixIn(functions *[]FunctionStatus, metrics *VectorQueryResponse)].
    The handler passes the address of its local slice, so [functions] is
    never nil; [metrics] is the pointer [Fetch] returned. The updated
    slice is the result. *)
Definition mixIn (functions : list FunctionStatus)
           (metrics : option VectorQueryResponse) : M T (list FunctionStatus) :=
  forIndex (length functions) 0 (fun i functions =>
    match functions !! i with
    | None => throw IndexOutOfRange
    | Some function =>
      m <- deref metrics ;;
      forRange (Result (Data m)) (fun v functions =>
        if matchesFunctionName function v then
          match snd (Value v) with
          | JString value =>
            let (f, err) := ParseFloat value in
            match err with
            | Some e =>
              logPrintf conversionFailure [LStr value; LStr e] ;;;
              ret functions
            | None =>
              updateAt i (fun r =>
                ret (set_InvocationCount (InvocationCount r + f) r)) functions
            end
          | _ => ret functions
          end
        else ret functions) functions
    end) functions.

Definition addCPU (f : float) (u : FunctionUsage.t) : FunctionUsage.t :=
  FunctionUsage.mk (FunctionUsage.CPU u + f) (FunctionUsage.TotalMemoryBytes u).

Definition addMemory (f : float) (u : FunctionUsage.t) : FunctionUsage.t :=
  FunctionUsage.mk (FunctionUsage.CPU u) (FunctionUsage.TotalMemoryBytes u + f).

(** [func mixCPU]: the length of the result is logged before the loop,
    so a nil [metrics] panics even for an empty record list. *)
Definition mixCPU (functions : list FunctionStatus)
           (metrics : option VectorQueryResponse) : M T (list FunctionStatus) :=
  m <- deref metrics ;;
  logPrintf "metrices len: %d" [LInt (Z.of_nat (length (Result (Data m))))] ;;;
  forIndex (length functions) 0 (fun i functions =>
    match functions !! i with
    | None => throw IndexOutOfRange
    | Some function =>
      forRange (Result (Data m)) (fun v functions =>
        if matchesContainer function v then
          match snd (Value v) with
          | JString value =>
            let (f, err) := ParseFloat value in
            match err with
            | Some e =>
              logPrintf conversionFailure [LStr value; LStr e] ;;;
              ret functions
            | None =>
              logPrintf "add_metrics: CPU %f" [LFloat f] ;;;
              updateAt i (fun r =>
                u <- deref (Usage r) ;;
                ret (set_Usage (Some (addCPU f u)) r)) functions
            end
          | _ => ret functions
          end
        else ret functions) functions
    end) functions.

(** [func mixMemory] *)
Definition mixMemory (functions : list FunctionStatus)
           (metrics : option VectorQueryResponse) : M T (list FunctionStatus) :=
  m <- deref metrics ;;
  logPrintf "metrices len: %d" [LInt (Z.of_nat (length (Result (Data m))))] ;;;
  forIndex (length functions) 0 (fun i functions =>
    match functions !! i with
    | None => throw IndexOutOfRange
    | Some function =>
      forRange (Result (Data m)) (fun v functions =>
        if matchesContainer function v then
          match snd (Value v) with
          | JString value =>
            let (f, err) := ParseFloat value in
            match err with
            | Some e =>
              logPrintf conversionFailure [LStr value; LStr e] ;;;
              ret functions
            | None =>
              logPrintf "add_metrics: Memory %f" [LFloat f] ;;;
              updateAt i (fun r =>
                u <- deref (Usage r) ;;
                ret (set_Usage (Some (addMemory f u)) r)) functions
            end
          | _ => ret functions
          end
        else ret functions) functions
    end) functions.

(** [func mixTime]: per record, the matching values are added onto
    [InvocationAvgTime] while [num] counts them; the division is guarded
    by [num != 0]. *)
Definition mixTime (functions : list FunctionStatus)
           (metrics : option VectorQueryResponse) : M T (list FunctionStatus) :=
  m <- deref metrics ;;
  logPrintf "metrices len: %d" [LInt (Z.of_nat (length (Result (Data m))))] ;;;
  forIndex (length functions) 0 (fun i functions =>
    match functions !! i with
    | None => throw IndexOutOfRange
    | Some function =>
      st <- forRange (Result (Data m)) (fun v st =>
        let '(functions, num) := st in
        if matchesFunctionName function v then
          match snd (Value v) with
          | JString value =>
            let (f, err) := ParseFloat value in
            match err with
            | Some e =>
              logPrintf conversionFailure [LStr value; LStr e] ;;;
              ret (functions, num)
            | None =>
              logPrintf "add_metrics: avgTime %f" [LFloat f] ;;;
              functions <- updateAt i (fun r =>
                ret (set_InvocationAvgTime (InvocationAvgTime r + f) r)) functions ;;
              ret (functions, (num + 1)%float)
            end
          | _ => ret (functions, num)
          end
        else ret (functions, num)) (functions, 0%float) ;;
      let '(functions, num) := st in
      if negb (num =? 0)%float then
        updateAt i (fun r =>
          ret (set_InvocationAvgTime (InvocationAvgTime r / num) r)) functions
      else ret functions
    end) functions.

End Joins.

(** ** What a join computes, stated on lists *)

Definition addLogs {T} (L : list LogEntry) (σ : World T) : World T :=
  {| prometheus := prometheus σ; fetched := fetched σ; logged := logged σ ++ L |}.

(** [m] returns [a] normally and touches nothing but the log. *)
Definition logsOnly {T A} (m : M T A) (a : A) : Prop :=
  forall σ, exists L, m σ = (addLogs L σ, Ok a).

(** [m] returns [a], or panics, and either way it touches nothing but the
    log: it never returns anything else. *)
Definition okOrPanic {T A} (m : M T A) (a : A) : Prop :=
  forall σ, exists L, m σ = (addLogs L σ, Ok a) \/ exists p, m σ = (addLogs L σ, Panic p).

(** A join changed nothing in [r] but the one field it targets. *)
Definition onlyInvocationCount (r r' : FunctionStatus) : Prop :=
  r' = set_InvocationCount (InvocationCount r') r.

Definition onlyInvocationAvgTime (r r' : FunctionStatus) : Prop :=
  r' = set_InvocationAvgTime (InvocationAvgTime r') r.

Definition onlyUsageCPU (r r' : FunctionStatus) : Prop :=
  match Usage r, Usage r' with
  | Some u, Some u' =>
    r' = set_Usage (Some (FunctionUsage.mk (FunctionUsage.CPU u')
                                           (FunctionUsage.TotalMemoryBytes u))) r
  | None, None => r' = r
  | _, _ => False
  end.

Definition onlyUsageMemory (r r' : FunctionStatus) : Prop :=
  match Usage r, Usage r' with
  | Some u, Some u' =>
    r' = set_Usage (Some (FunctionUsage.mk (FunctionUsage.CPU u)
                                           (FunctionUsage.TotalMemoryBytes u'))) r
  | None, None => r' = r
  | _, _ => False
  end.

(** [float64(n)] for an integer [n], as a specification float, and for a
    count [K] (below [2^63]) as a float64. *)
Definition float64_of_Z (n : Z) : spec_float := binary_normalize prec emax n 0 false.

Definition float64_of_nat (K : nat) : float :=
  PrimFloat.of_uint63 (Uint63.of_Z (Z.of_nat K)).

(** A positive binary64 that is not zero: finite or infinite. *)
Definition positiveNonzero (x : spec_float) : Prop :=
  match x with
  | S754_finite false _ _ | S754_infinity false => True
  | _ => False
  end.

Section JoinFacts.
Context {lib : GoLibrary} {T : Type}.

(** The value a sample contributes: [Value[1]] must be a string that
    [ParseFloat] converts without error. *)
Definition parsedValue (v : VectorSample) : option float :=
  match snd (Value v) with
  | JString value =>
    match ParseFloat value with
    | (f, None) => Some f
    | (_, Some _) => None
    end
  | _ => None
  end.

(** The parsed values of the samples that match, in sample order. *)
Definition matchedValues (matches : VectorSample -> bool)
           (samples : list VectorSample) : list float :=
  omap (fun v => if matches v then parsedValue v else None) samples.

(** Left-to-right float64 accumulation onto [x]. *)
Definition sumFrom (x : float) (vs : list float) : float :=
  foldl PrimFloat.add x vs.

(** The shape shared by the inner loop bodies of [mixIn], [mixCPU] and
    [mixMemory]. *)
Definition joinBody (matches : VectorSample -> bool)
           (onValue : float -> list FunctionStatus -> M T (list FunctionStatus))
           (v : VectorSample) (functions : list FunctionStatus)
  : M T (list FunctionStatus) :=
  if matches v then
    match snd (Value v) with
    | JString value =>
      let (f, err) := ParseFloat value in
      match err with
      | Some e =>
        logPrintf conversionFailure [LStr value; LStr e] ;;; ret functions
      | None => onValue f functions
      end
    | _ => ret functions
    end
  else ret functions.


(** What each join leaves in a record, as a function of the record and
    of the samples. *)
Definition mixIn_record (samples : list VectorSample) (r : FunctionStatus) : FunctionStatus :=
  set_InvocationCount
    (sumFrom (InvocationCount r) (matchedValues (matchesFunctionName r) samples)) r.

Definition mixCPU_record (samples : list VectorSample) (r : FunctionStatus) : FunctionStatus :=
  match Usage r with
  | Some u =>
    set_Usage (Some (FunctionUsage.mk
                       (sumFrom (FunctionUsage.CPU u) (matchedValues (matchesContainer r) samples))
                       (FunctionUsage.TotalMemoryBytes u))) r
  | None => r
  end.

Definition mixMemory_record (samples : list VectorSample) (r : FunctionStatus) : FunctionStatus :=
  match Usage r with
  | Some u =>
    set_Usage (Some (FunctionUsage.mk
                       (FunctionUsage.CPU u)
                       (sumFrom (FunctionUsage.TotalMemoryBytes u)
                                (matchedValues (matchesContainer r) samples)))) r
  | None => r
  end.

(** [num] after [K] matches: [0.0] incremented [K] times by [1.0]. *)
Definition float64_count (K : nat) : float :=
  Nat.iter K (fun num => (num + 1)%float) 0%float.

Definition mixTime_record (samples : list VectorSample) (r : FunctionStatus) : FunctionStatus :=
  let vs := matchedValues (matchesFunctionName r) samples in
  let total := sumFrom (InvocationAvgTime r) vs in
  let num := float64_count (length vs) in
  if negb (num =? 0)%float
  then set_InvocationAvgTime (total / num)%float r
  else set_InvocationAvgTime total r.


(** The inner loop body of [mixTime] for record [i]: the state is the
    slice and the running count [num]. *)
Definition timeBody (i : nat) (function : FunctionStatus) (v : VectorSample)
           (st : list FunctionStatus * float) : M T (list FunctionStatus * float) :=
  let '(functions, num) := st in
  if matchesFunctionName function v then
    match snd (Value v) with
    | JString value =>
      let (f, err) := ParseFloat value in
      match err with
      | Some e =>
        logPrintf conversionFailure [LStr value; LStr e] ;;;
        ret (functions, num)
      | None =>
        logPrintf "add_metrics: avgTime %f" [LFloat f] ;;;
        functions <- updateAt i (fun r =>
          ret (set_InvocationAvgTime (InvocationAvgTime r + f) r)) functions ;;
        ret (functions, (num + 1)%float)
      end
    | _ => ret (functions, num)
    end
  else ret (functions, num).

End JoinFacts.

(** ** The enrichment handler ([AddMetricsHandler]) *)

(** What [httptest.ResponseRecorder] captured from the upstream handler:
    [recorder.Code] and the body of [recorder.Result()] (a nil body is
    [None]). *)
Record Recorder := { Code : Z; Body : option string }.

(** The [http.ResponseWriter] the handler writes to: the header map, the
    status code once [WriteHeader] ran, and the bytes written. *)
Record ResponseWriter := {
  header : gmap string string;
  status : option Z;
  written : string
}.

Definition newResponseWriter : ResponseWriter :=
  {| header := ∅; status := None; written := "" |}.

(** [w.Header().Set(key, value)] *)
Definition Header_Set (key value : string) (w : ResponseWriter) : ResponseWriter :=
  {| header := <[key := value]> (header w); status := status w; written := written w |}.

(** [w.WriteHeader(code)]: only the first call counts. *)
Definition WriteHeader (code : Z) (w : ResponseWriter) : ResponseWriter :=
  {| header := header w;
     status := match status w with Some c => Some c | None => Some code end;
     written := written w |}.

(** [w.Write(b)]: writes the header with [StatusOK] first if none was
    written yet. *)
Definition Write (b : string) (w : ResponseWriter) : ResponseWriter :=
  {| header := header w;
     status := match status w with Some c => Some c | None => Some 200%Z end;
     written := written w +:+ b |}.

Definition newline : string := String (Ascii.ascii_of_nat 10) EmptyString.

Definition doubleQuote : string := String (Ascii.ascii_of_nat 34) EmptyString.

(** [http.Error(w, error, code)] of [net/http]: sets the content type to
    plain text, writes the status code, and prints the message with
    [fmt.Fprintln], that is followed by a newline. *)
Definition http_Error (error : string) (code : Z) (w : ResponseWriter) : ResponseWriter :=
  Write (error +:+ newline)
    (WriteHeader code
       (Header_Set "X-Content-Type-Options" "nosniff"
          (Header_Set "Content-Type" "text/plain; charset=utf-8" w))).

Definition StatusOK : Z := 200.
Definition StatusInternalServerError : Z := 500.

(** The loop body of lines 53-87: a fresh record with zeroed metric fields
    and freshly allocated [Usage], [Limits] and [Requests]; the other
    fields are copied from the parsed record. *)
Definition zeroed (f : types.FunctionStatus) : FunctionStatus :=
  {| InvocationCount := 0;
     InvocationAvgTime := 0;
     Usage := Some (FunctionUsage.mk 0 0);
     Name := types.Name f;
     Namespace := types.Namespace f;
     Image := types.Image f;
     Limits := Some match types.Limits f with
                    | Some l => FunctionResources.mk (FunctionResources.Memory l)
                                                     (FunctionResources.CPU l)
                    | None => FunctionResources.mk "" ""
                    end;
     EnvProcess := types.EnvProcess f;
     EnvVars := types.EnvVars f;
     AvailableReplicas := types.AvailableReplicas f;
     Replicas := types.Replicas f;
     Requests := Some match types.Requests f with
                      | Some l => FunctionResources.mk (FunctionResources.Memory l)
                                                       (FunctionResources.CPU l)
                      | None => FunctionResources.mk "" ""
                      end;
     Secrets := types.Secrets f;
     Labels := match types.Labels f with
               | Some l => Some l
               | None => None
               end;
     Annotations := types.Annotations f;
     Constraints := types.Constraints f;
     ReadOnlyRootFilesystem := types.ReadOnlyRootFilesystem f;
     CreatedAt := types.CreatedAt f |}.

(** [var functions []FunctionStatus; for i := range function { ...;
    functions = append(functions, fun) }] *)
Definition zeroInit (function : list types.FunctionStatus) : list FunctionStatus :=
  foldl (fun functions f => functions ++ [zeroed f]) [] function.

(** The four query strings, before [url.QueryEscape]. *)
Definition invocationQuery (ns : string) : string :=
  "sum(gateway_function_invocation_total{function_name=~" +:+ doubleQuote
  +:+ ".*." +:+ ns +:+ doubleQuote +:+ "}) by (function_name)".

Definition cpuQuery : string :=
  "sum by(container, namespace) (irate(container_cpu_usage_seconds_total{image!="
  +:+ doubleQuote +:+ doubleQuote +:+ ",namespace=" +:+ doubleQuote +:+ "openfaas-fn"
  +:+ doubleQuote +:+ ", container!=" +:+ doubleQuote +:+ "POD" +:+ doubleQuote
  +:+ "}[5m])*100)".

Definition memoryQuery : string :=
  "sum by(container, namespace) (container_memory_working_set_bytes{image!="
  +:+ doubleQuote +:+ doubleQuote +:+ ",namespace=" +:+ doubleQuote +:+ "openfaas-fn"
  +:+ doubleQuote +:+ ", container!=" +:+ doubleQuote +:+ "POD" +:+ doubleQuote
  +:+ "})".

Definition latencyQuery : string :=
  "sum by (function_name) (gateway_function_request_seconds_sum / gateway_function_request_seconds_count)".

Definition parseFailureMessage : string :=
  "Unable to parse list of functions from provider".

Definition queryFailure : string := "Error querying Prometheus: %s\n".

Section Handler.
Context {lib : GoLibrary} {T : Type} {client : PrometheusQueryFetcher T}.

(** Lines 89-131, entered when [len(functions) > 0]. The branches for
    [err1], [err2] and [err3] print [err.Error()], the error of the
    first query, as the source does. *)
Definition queryAndMix (functions : list FunctionStatus) : M T (list FunctionStatus) :=
  match functions !! 0%nat with
  | None => throw IndexOutOfRange
  | Some first =>
    let ns := Namespace first in
    let q := invocationQuery ns in
    reply <- fetch (QueryEscape q) ;;
    let '(results, err) := reply in
    match err with
    | Some e => logPrintf queryFailure [LStr e]
    | None => ret tt
    end ;;;
    functions <- mixIn functions results ;;
    let q1 := cpuQuery in
    reply1 <- fetch (QueryEscape q1) ;;
    let '(results1, err1) := reply1 in
    match err1 with
    | Some _ => e <- errorString err ;; logPrintf queryFailure [LStr e]
    | None => ret tt
    end ;;;
    functions <- mixCPU functions results1 ;;
    let q2 := memoryQuery in
    reply2 <- fetch (QueryEscape q2) ;;
    let '(results2, err2) := reply2 in
    match err2 with
    | Some _ => e <- errorString err ;; logPrintf queryFailure [LStr e]
    | None => ret tt
    end ;;;
    functions <- mixMemory functions results2 ;;
    let q3 := latencyQuery in
    reply3 <- fetch (QueryEscape q3) ;;
    let '(results3, err3) := reply3 in
    match err3 with
    | Some _ => e <- errorString err ;; logPrintf queryFailure [LStr e]
    | None => ret tt
    end ;;;
    mixTime functions results3
  end.

(** Lines 50-131: the enriched list for a parsed record list. *)
Definition enrich (function : list types.FunctionStatus) : M T (list FunctionStatus) :=
  let functions := zeroInit function in
  if (0 <? length functions)%nat then queryAndMix functions else ret functions.

(** The handler returned by [AddMetricsHandler(handler, prometheusQuery)],
    run on what the recorder captured from [handler]; the result is the
    state of [w] when the handler returns. *)
Definition AddMetricsHandler (recorder : Recorder) (w : ResponseWriter) : M T ResponseWriter :=
  match Body recorder with
  | None =>
    logPrintln "Upstream call had empty body." ;;;
    ret w
  | Some upstreamBody =>
    if negb (Code recorder =? StatusOK)%Z then
      logPrintf "List functions responded with code %d, body: %s"
                [LInt (Code recorder); LStr upstreamBody] ;;;
      ret (http_Error upstreamBody (Code recorder) w)
    else
      let (function, err) := Unmarshal upstreamBody in
      match err with
      | Some e =>
        logPrintf "Metrics upstream error: %s, value: %s" [LStr e; LStr upstreamBody] ;;;
        ret (http_Error "Unable to parse list of functions from provider"
                        StatusInternalServerError w)
      | None =>
        functions <- enrich function ;;
        let (bytesOut, err) := Marshal functions in
        match err with
        | Some e =>
          logPrintf "Error serializing functions: %s" [LStr e] ;;;
          ret (http_Error "Error writing response after adding metrics"
                          StatusInternalServerError w)
        | None =>
          ret (Write bytesOut
                 (WriteHeader StatusOK
                    (Header_Set "Content-Type" "application/json" w)))
        end
      end
  end.

End Handler.

(** *** Vocabulary for the handler's properties *)

(** A run of [m] leaves the backend alone: whatever the outcome, the world
    only gained log entries. *)
Definition quiet {T A} (m : M T A) : Prop :=
  forall σ, exists L r, m σ = (addLogs L σ, r).

(** The queries a run of [m] sends are, in order, the first ones of [qs]. *)
Definition sendsPrefixOf {T A} (qs : list string) (m : M T A) : Prop :=
  forall σ, exists sent, fetched (fst (m σ)) = fetched σ ++ sent /\ sent `prefix_of` qs.

(** A query client that always returns an empty result and no error. *)
Definition alwaysEmpty (T : Type) {client : PrometheusQueryFetcher T} : Prop :=
  forall p q, exists p' s,
      Fetch p q = (p', (Some {| Status := s; Data := {| Result := [] |} |}, None)).

(** A query client that always returns a result and no error. *)
Definition alwaysAnswers (T : Type) {client : PrometheusQueryFetcher T} : Prop :=
  forall p q, exists p' m, Fetch p q = (p', (Some m, None)).

(** The encoded queries of one enrichment, in the order they are sent. *)
Definition queriesFor {lib : GoLibrary} (ns : string) : list string :=
  [QueryEscape (invocationQuery ns); QueryEscape cpuQuery;
   QueryEscape memoryQuery; QueryEscape latencyQuery].

(** The records after the four joins, given the four results. *)
Definition enriched {lib : GoLibrary} (m1 m2 m3 m4 : VectorQueryResponse) (functions : list FunctionStatus)
  : list FunctionStatus :=
  map (mixTime_record (Result (Data m4)))
      (map (mixMemory_record (Result (Data m3)))
           (map (mixCPU_record (Result (Data m2)))
                (map (mixIn_record (Result (Data m1))) functions))).

Definition resourcesOrEmpty (l : option FunctionResources.t) : FunctionResources.t :=
  match l with
  | Some l => l
  | None => FunctionResources.mk "" ""
  end.

(** [r] is the zero-initialised copy of the parsed record [f]: metric
    fields zero, limits and requests allocated, all else as parsed. *)
Definition zeroInitialised (f : types.FunctionStatus) (r : FunctionStatus) : Prop :=
  Name r = types.Name f /\ Image r = types.Image f
  /\ Namespace r = types.Namespace f /\ EnvProcess r = types.EnvProcess f
  /\ EnvVars r = types.EnvVars f /\ Constraints r = types.Constraints f
  /\ Secrets r = types.Secrets f /\ Labels r = types.Labels f
  /\ Annotations r = types.Annotations f
  /\ Limits r = Some (resourcesOrEmpty (types.Limits f))
  /\ Requests r = Some (resourcesOrEmpty (types.Requests f))
  /\ ReadOnlyRootFilesystem r = types.ReadOnlyRootFilesystem f
  /\ Replicas r = types.Replicas f
  /\ AvailableReplicas r = types.AvailableReplicas f
  /\ CreatedAt r = types.CreatedAt f
  /\ InvocationCount r = 0%float /\ InvocationAvgTime r = 0%float
  /\ Usage r = Some (FunctionUsage.mk 0 0).

(** ** Library instances used by the examples

    The theorems below hold for every [GoLibrary] and every
    [PrometheusQueryFetcher]. The concrete runs need instances: a parser
    for plain decimal literals, on which it returns what
    [strconv.ParseFloat] returns (the other syntaxes Go accepts, such as
    exponents, hexadecimal floats, [Inf] and [NaN], are rejected here),
    [url.QueryEscape] as Go defines it, and a JSON codec given by a table
    (the codec is Go's and plays no part in the properties). *)
Module Example.

Definition digitValue (c : Ascii.ascii) : option Z :=
  let n := Z.of_N (Ascii.N_of_ascii c) in
  if ((48 <=? n) && (n <=? 57))%Z then Some (n - 48)%Z else None.

(** Consumes the leading digits of [s], extending the mantissa [m] and
    counting them. *)
Fixpoint scanDigits (s : string) (m : Z) (k : nat) : Z * nat * string :=
  match s with
  | String c s' =>
    match digitValue c with
    | Some d => scanDigits s' (10 * m + d)%Z (S k)
    | None => (m, k, s)
    end
  | EmptyString => (m, k, s)
  end.

Definition syntaxError : float * error := (0%float, Some "invalid syntax").

(** [float64(mantissa) / 10^k], negated when [neg]: the exact path of
    [strconv.ParseFloat], taken when the mantissa has fewer than 53 bits
    and [10^k] is a float64. Longer literals are rejected here. *)
Definition exactDecimal (neg : bool) (m : Z) (k : nat) : float * error :=
  if ((m <? 2 ^ 52)%Z && (k <=? 18)%nat)%bool then
    let f := PrimFloat.of_uint63 (Uint63.of_Z m) in
    let f := if neg then (- f)%float else f in
    (if (k =? 0)%nat then f
     else (f / PrimFloat.of_uint63 (Uint63.of_Z (10 ^ Z.of_nat k)))%float, None)
  else syntaxError.

Definition parseUnsigned (neg : bool) (s : string) : float * error :=
  let '(m1, k1, rest) := scanDigits s 0 0 in
  match rest with
  | EmptyString => if (0 <? k1)%nat then exactDecimal neg m1 0 else syntaxError
  | String c rest' =>
    if Ascii.eqb c "."%char then
      let '(m2, k2, rest'') := scanDigits rest' m1 0 in
      match rest'' with
      | EmptyString =>
        if (0 <? k1 + k2)%nat then exactDecimal neg m2 k2 else syntaxError
      | _ => syntaxError
      end
    else syntaxError
  end.

(** [strconv.ParseFloat(s, 64)] on plain decimal literals. *)
Definition parseDecimal (s : string) : float * error :=
  match s with
  | String c s' =>
    if Ascii.eqb c "-"%char then parseUnsigned true s'
    else if Ascii.eqb c "+"%char then parseUnsigned false s'
    else parseUnsigned false s
  | EmptyString => syntaxError
  end.

Definition hexDigit (n : N) : Ascii.ascii :=
  Ascii.ascii_of_N (if (n <? 10)%N then 48 + n else 55 + n)%N.

Definition unreserved (n : N) : bool :=
  (((48 <=? n) && (n <=? 57)) || ((65 <=? n) && (n <=? 90))
   || ((97 <=? n) && (n <=? 122))
   || (n =? 45) || (n =? 95) || (n =? 46) || (n =? 126))%N.

(** [url.QueryEscape]: unreserved bytes are kept, a space becomes [+],
    every other byte becomes [%XX]. *)
Fixpoint queryEscape (s : string) : string :=
  match s with
  | EmptyString => EmptyString
  | String c s' =>
    let n := Ascii.N_of_ascii c in
    if unreserved n then String c (queryEscape s')
    else if (n =? 32)%N then String "+"%char (queryEscape s')
    else String "%"%char
           (String (hexDigit (n / 16)) (String (hexDigit (n mod 16)) (queryEscape s')))
  end.

(** A record with the given name and namespace and every other field at
    its zero value, as [json.Unmarshal] leaves the fields absent from
    the text. *)
Definition function (name ns : string) : types.FunctionStatus :=
  {| types.Name := name; types.Image := ""; types.Namespace := ns;
     types.EnvProcess := ""; types.EnvVars := ∅; types.Constraints := [];
     types.Secrets := []; types.Labels := None; types.Annotations := None;
     types.Limits := None; types.Requests := None;
     types.ReadOnlyRootFilesystem := false; types.InvocationCount := 0;
     types.Replicas := 0; types.AvailableReplicas := 0;
     types.CreatedAt := None; types.Usage := None |}.

(** The decoding table: the body [fn1.ns1] stands for the JSON array
    with the one record named [fn1] in namespace [ns1]. *)
Definition unmarshal (body : string) : list types.FunctionStatus * error :=
  if String.eqb body "[]" then ([], None)
  else if String.eqb body "[fn1.ns1]" then ([function "fn1" "ns1"], None)
  else ([], Some "invalid character looking for beginning of value").

Definition marshal (functions : list FunctionStatus) : string * error :=
  ("[" +:+ String.concat "," (map (fun r => Name r +:+ "." +:+ Namespace r) functions)
       +:+ "]", None).

#[export] Instance library : GoLibrary :=
  {| ParseFloat := parseDecimal; QueryEscape := queryEscape;
     Unmarshal := unmarshal; Marshal := marshal |}.

(** A query client that answers from a script, one reply per call. *)
#[export] Instance scripted
  : PrometheusQueryFetcher (list (option VectorQueryResponse * error)) :=
  fun script _ =>
    match script with
    | reply :: script' => (script', reply)
    | [] => ([], (None, Some "connection refused"))
    end.

(** A query client that always returns an empty result. *)
#[export] Instance empty : PrometheusQueryFetcher unit :=
  fun _ _ => (tt, (Some {| Status := "success"; Data := {| Result := [] |} |}, None)).

Definition sample (functionName container ns value : string) : VectorSample :=
  {| Metric := Metric.mk functionName container ns;
     Value := (JNumber 0, JString value) |}.

Definition response (samples : list VectorSample) : option VectorQueryResponse :=
  Some {| Status := "success"; Data := {| Result := samples |} |}.

Definition world {T} (client : T) : World T :=
  {| prometheus := client; fetched := []; logged := [] |}.

End Example.

(** ** The exporter ([Exporter.Collect], [Exporter.calc], the watcher) *)

(** A metric vector of the Prometheus client ([CounterVec], [GaugeVec],
    [HistogramVec], [SummaryVec]): one series per tuple of label values.
    The exporter only sets gauges; the series of the other vectors are
    passed through, each abstracted to one number. *)
Abbreviation Vec := (gmap (list string) float).

(** [vec.WithLabelValues(lv).Set(x)] *)
Definition WithLabelValues_Set (lv : string) (x : float) (vec : Vec) : Vec :=
  <[ [lv] := x ]> vec.

(** [vec.Reset()] deletes every series. *)
Definition Reset (vec : Vec) : Vec := ∅.

Inductive Family :=
| FunctionInvocation
| FunctionsHistogram
| FunctionInvocationStarted
| ServiceReplicas
| FunctionRequestSummary
| PodCpuUsage
| PodMemoryWorkingSet.

(** A metric sent on the channel [ch]. *)
Record Sent := { family : Family; labelValues : list string; reading : float }.

(** [vec.Collect(ch)] sends every series of the vector. *)
Definition Vec_Collect (fam : Family) (vec : Vec) (ch : list Sent) : list Sent :=
  ch ++ map (fun kv => {| family := fam; labelValues := fst kv; reading := snd kv |})
            (map_to_list vec).

Record MetricOptions := {
  GatewayFunctionInvocation : Vec;
  GatewayFunctionsHistogram : Vec;
  GatewayFunctionInvocationStarted : Vec;
  ServiceReplicasGauge : Vec;
  GatewayFunctionRequestSummary : Vec;
  PodCpuUsageSecondsTotal : Vec;
  PodMemoryWorkingSetBytes : Vec
}.

(** The exporter; its [prometheusQuery] is the client of the environment
    and its credentials only matter to the HTTP calls of the watcher. *)
Record Exporter := {
  metricOptions : MetricOptions;
  services : list types.FunctionStatus;
  FunctionNamespace : string
}.

Definition set_gauges (replicas cpu memory : Vec) (o : MetricOptions) : MetricOptions :=
  {| GatewayFunctionInvocation := GatewayFunctionInvocation o;
     GatewayFunctionsHistogram := GatewayFunctionsHistogram o;
     GatewayFunctionInvocationStarted := GatewayFunctionInvocationStarted o;
     ServiceReplicasGauge := replicas;
     GatewayFunctionRequestSummary := GatewayFunctionRequestSummary o;
     PodCpuUsageSecondsTotal := cpu;
     PodMemoryWorkingSetBytes := memory |}.

Definition set_metricOptions (o : MetricOptions) (e : Exporter) : Exporter :=
  {| metricOptions := o; services := services e;
     FunctionNamespace := FunctionNamespace e |}.

Definition set_services (l : list types.FunctionStatus) (e : Exporter) : Exporter :=
  {| metricOptions := metricOptions e; services := l;
     FunctionNamespace := FunctionNamespace e |}.

(** [float64(n)] for a [uint64]: the nearest binary64, ties to even. *)
Definition float64_of_uint64 (n : Z) : float :=
  SF2Prim (binary_normalize prec emax n 0 false).

(** The label of a service in [Collect]. *)
Definition serviceName (service : types.FunctionStatus) : string :=
  if (0 <? String.length (types.Namespace service))%nat
  then types.Name service +:+ "." +:+ types.Namespace service
  else types.Name service.

(** The two queries of [calc]. *)
Definition calcCpuQuery : string :=
  "sum by(container, namespace) (container_cpu_usage_seconds_total{image!="
  +:+ doubleQuote +:+ doubleQuote +:+ ",namespace=" +:+ doubleQuote +:+ "openfaas-fn"
  +:+ doubleQuote +:+ ", container!=" +:+ doubleQuote +:+ "POD" +:+ doubleQuote
  +:+ "})".

Definition calcMemoryQuery : string := memoryQuery.

(** [x.(string)] without the comma-ok form panics on any other type. *)
Definition assertString {T} (x : jvalue) : M T string :=
  match x with
  | JString s => ret s
  | _ => throw TypeAssertion
  end.

(** The upstream listing endpoints the watcher calls over HTTP. *)
Class ProviderListing := {
  getNamespaces : list string * error;
  getFunctions : string -> list types.FunctionStatus * error
}.

Section ExporterCode.
Context {lib : GoLibrary} {T : Type} {client : PrometheusQueryFetcher T}.

(** One loop of [calc]: every sample sets the gauge of
    [container.namespace] to its value; the conversion error is
    dropped, so an unparsable value sets what [ParseFloat] returned
    with the error. *)
Definition setFromSamples (format : string) (samples : list VectorSample)
           (gauge : Vec) : M T Vec :=
  forRange samples (fun v gauge =>
    let metricValue := snd (Value v) in
    value <- assertString metricValue ;;
    let (f, _) := ParseFloat value in
    logPrintf format [LFloat f] ;;;
    ret (WithLabelValues_Set
           (Metric.Container (Metric v) +:+ "." +:+ Metric.Namespace (Metric v))
           f gauge)) gauge.

(** [func (e *Exporter) calc()] *)
Definition calc (e : Exporter) : M T Exporter :=
  let q1 := calcCpuQuery in
  let q2 := calcMemoryQuery in
  reply <- fetch (QueryEscape q1) ;;
  let '(q1Results, err) := reply in
  match err with
  | Some msg => logPrintf "Error querying q1: %s\n" [LStr msg] ;;; ret e
  | None =>
    r1 <- deref q1Results ;;
    cpu <- setFromSamples "calc cpu f: %f" (Result (Data r1))
                          (PodCpuUsageSecondsTotal (metricOptions e)) ;;
    let e := set_metricOptions
               (set_gauges (ServiceReplicasGauge (metricOptions e)) cpu
                           (PodMemoryWorkingSetBytes (metricOptions e))
                           (metricOptions e)) e in
    reply <- fetch (QueryEscape q2) ;;
    let '(q2Results, err) := reply in
    match err with
    | Some msg => logPrintf "Error querying q2: %s\n" [LStr msg] ;;; ret e
    | None =>
      r2 <- deref q2Results ;;
      memory <- setFromSamples "calc memory f: %f" (Result (Data r2))
                               (PodMemoryWorkingSetBytes (metricOptions e)) ;;
      ret (set_metricOptions
             (set_gauges (ServiceReplicasGauge (metricOptions e))
                         (PodCpuUsageSecondsTotal (metricOptions e)) memory
                         (metricOptions e)) e)
    end
  end.

(** Lines 69-87 of [Collect]: the replica gauge is reset, then every
    service of the snapshot gets its replica count and a zero CPU and
    memory gauge. *)
Definition resetGauges (e : Exporter) : Exporter :=
  let o := metricOptions e in
  let o := set_gauges (Reset (ServiceReplicasGauge o)) (PodCpuUsageSecondsTotal o)
                      (PodMemoryWorkingSetBytes o) o in
  set_metricOptions
    (foldl (fun o service =>
              set_gauges
                (WithLabelValues_Set (serviceName service)
                   (float64_of_uint64 (types.Replicas service)) (ServiceReplicasGauge o))
                (WithLabelValues_Set (serviceName service) 0 (PodCpuUsageSecondsTotal o))
                (WithLabelValues_Set (serviceName service) 0 (PodMemoryWorkingSetBytes o))
                o)
           o (services e)) e.

(** [func (e *Exporter) Collect(ch chan<- prometheus.Metric)]: the result
    is the exporter after the scrape and what was sent on [ch]. *)
Definition Collect (e : Exporter) (ch : list Sent) : M T (Exporter * list Sent) :=
  let o := metricOptions e in
  let ch := Vec_Collect FunctionInvocation (GatewayFunctionInvocation o) ch in
  let ch := Vec_Collect FunctionsHistogram (GatewayFunctionsHistogram o) ch in
  let ch := Vec_Collect FunctionInvocationStarted (GatewayFunctionInvocationStarted o) ch in
  let e := resetGauges e in
  e <- calc e ;;
  let o := metricOptions e in
  let ch := Vec_Collect FunctionRequestSummary (GatewayFunctionRequestSummary o) ch in
  let ch := Vec_Collect PodCpuUsage (PodCpuUsageSecondsTotal o) ch in
  let ch := Vec_Collect PodMemoryWorkingSet (PodMemoryWorkingSetBytes o) ch in
  let ch := Vec_Collect ServiceReplicas (ServiceReplicasGauge o) ch in
  ret (e, ch).

(** One tick of [StartServiceWatcher]: the snapshot is replaced by the
    listing of the default namespace when there are no namespaces, and
    by the concatenation of the per-namespace listings otherwise; a
    failed listing of the default namespace keeps the old snapshot. *)
Definition watcherTick {provider : ProviderListing} (e : Exporter) : M T Exporter :=
  let (namespaces, err) := getNamespaces in
  match err with
  | Some msg => logPrintln msg
  | None => ret tt
  end ;;;
  if (length namespaces =? 0)%nat then
    let (services, err) := getFunctions (FunctionNamespace e) in
    match err with
    | Some msg => logPrintln msg ;;; ret e
    | None => ret (set_services services (set_services services e))
    end
  else
    services <- forRange namespaces (fun namespace services =>
      let (nsServices, err) := getFunctions namespace in
      match err with
      | Some msg => logPrintln msg ;;; ret services
      | None => ret (services ++ nsServices)
      end) [] ;;
    ret (set_services services e).

End ExporterCode.

(** *** Vocabulary for the exporter's properties *)

(** The gauge series a sample of [calc] addresses, and the value it sets:
    what [ParseFloat] returns, error or not. *)
Definition gaugeKey (v : VectorSample) : list string :=
  [Metric.Container (Metric v) +:+ "." +:+ Metric.Namespace (Metric v)].

Definition gaugeValue {lib : GoLibrary} (v : VectorSample) : float :=
  match snd (Value v) with
  | JString value => fst (ParseFloat value)
  | _ => 0%float
  end.

(** A gauge after every sample has set its series, in sample order. *)
Definition refreshed {lib : GoLibrary} (samples : list VectorSample) (gauge : Vec) : Vec :=
  foldl (fun gauge v => <[gaugeKey v := gaugeValue v]> gauge) gauge samples.

Definition stringValued (v : VectorSample) : Prop :=
  exists value, snd (Value v) = JString value.

(** The exporter instances of the examples. *)
Module ExporterExample.

Definition noSeries : MetricOptions :=
  {| GatewayFunctionInvocation := ∅; GatewayFunctionsHistogram := ∅;
     GatewayFunctionInvocationStarted := ∅; ServiceReplicasGauge := ∅;
     GatewayFunctionRequestSummary := ∅;
     PodCpuUsageSecondsTotal := ∅; PodMemoryWorkingSetBytes := ∅ |}.

(** A new exporter whose watcher has listed the one function [fn1.ns1]. *)
Definition exporter : Exporter :=
  {| metricOptions := noSeries;
     services := [Example.function "fn1" "ns1"];
     FunctionNamespace := "openfaas-fn" |}.

(** The provider after [fn1] was deleted: no namespaces, no functions. *)
Definition deleted : ProviderListing :=
  {| getNamespaces := ([], None); getFunctions := fun _ => ([], None) |}.

End ExporterExample.

(** ** Vocabulary for single runs and for the joins as a family *)

(** From the world [σ], [m] returns [a]. *)
Definition returns {T A} (m : M T A) (σ : World T) (a : A) : Prop :=
  exists σ', m σ = (σ', Ok a).

(** From the world [σ], [m] panics with [p]. *)
Definition panics {T A} (m : M T A) (σ : World T) (p : panic) : Prop :=
  exists σ', m σ = (σ', Panic p).

(** The four joins of [add_metrics.go], named by the field they fill. *)
Inductive Join := CountJoin | CPUJoin | MemoryJoin | AvgTimeJoin.

Definition runJoin {lib : GoLibrary} {T : Type} (j : Join)
  : list FunctionStatus -> option VectorQueryResponse -> M T (list FunctionStatus) :=
  match j with
  | CountJoin => mixIn
  | CPUJoin => mixCPU
  | MemoryJoin => mixMemory
  | AvgTimeJoin => mixTime
  end.

(** The key test of each join. *)
Definition joinMatches (j : Join) : FunctionStatus -> VectorSample -> bool :=
  match j with
  | CountJoin | AvgTimeJoin => matchesFunctionName
  | CPUJoin | MemoryJoin => matchesContainer
  end.

Definition joinRecord {lib : GoLibrary} (j : Join)
  : list VectorSample -> FunctionStatus -> FunctionStatus :=
  match j with
  | CountJoin => mixIn_record
  | CPUJoin => mixCPU_record
  | MemoryJoin => mixMemory_record
  | AvgTimeJoin => mixTime_record
  end.

(** Every record carries a [Usage], as the handler's zero-initialisation
    leaves them. *)
Definition usageAllocated (functions : list FunctionStatus) : Prop :=
  Forall (fun r => is_Some (Usage r)) functions.

(** A sample whose value is a string that [ParseFloat] accepts. *)
Definition parsable {lib : GoLibrary} (v : VectorSample) : Prop :=
  is_Some (parsedValue v).

(** [mixCPU] and [mixMemory] get through a record when its [Usage] is
    allocated or no sample contributes to it. *)
Definition usable {lib : GoLibrary} (samples : list VectorSample) (r : FunctionStatus) : Prop :=
  is_Some (Usage r) \/ matchedValues (matchesContainer r) samples = [].

(** The shape shared by [mixCPU] and [mixMemory]: the update made for one
    parsed value, the iteration for record [i], and what the iteration
    leaves in the record. The two joins differ in the log format and in
    the field of [Usage] that [change] adds to. *)
Definition usageOnValue {T} (format : string)
           (change : float -> FunctionUsage.t -> FunctionUsage.t)
           (i : nat) (f : float) (functions : list FunctionStatus)
  : M T (list FunctionStatus) :=
  logPrintf format [LFloat f] ;;;
  updateAt i (fun r => u <- deref (Usage r) ;; ret (set_Usage (Some (change f u)) r))
           functions.

Definition usageBody {lib : GoLibrary} {T} (format : string)
           (change : float -> FunctionUsage.t -> FunctionUsage.t)
           (samples : list VectorSample) (i : nat) (functions : list FunctionStatus)
  : M T (list FunctionStatus) :=
  match functions !! i with
  | None => throw IndexOutOfRange
  | Some function =>
    forRange samples
             (joinBody (matchesContainer function) (usageOnValue format change i))
             functions
  end.

Definition usageChanged {lib : GoLibrary}
           (change : float -> FunctionUsage.t -> FunctionUsage.t)
           (samples : list VectorSample) (r : FunctionStatus) : FunctionStatus :=
  match Usage r with
  | Some u =>
    set_Usage (Some (foldl (fun u f => change f u) u
                           (matchedValues (matchesContainer r) samples))) r
  | None => r
  end.

(** [m] panics with [p], having touched nothing but the log. *)
Definition panicsAfterLogs {T A} (m : M T A) (p : panic) : Prop :=
  forall σ, exists L, m σ = (addLogs L σ, Panic p).

(** A reply of the handler on a writer [w] whose header was not written
    yet: the status code, the content type, and the bytes added to the
    body. *)
Definition replied (w w' : ResponseWriter) (code : Z) (contentType body : string) : Prop :=
  status w' = Some code
  /\ header w' !! "Content-Type" = Some contentType
  /\ written w' = written w +:+ body.

(** The library of the examples with an encoder that fails, as
    [json.Marshal] does on a float64 that is not finite. *)
Module HandlerExample.

Definition unsupported : GoLibrary :=
  {| ParseFloat := Example.parseDecimal; QueryEscape := Example.queryEscape;
     Unmarshal := Example.unmarshal;
     Marshal := fun _ => ("", Some "json: unsupported value: NaN") |}.

Definition listing : Recorder := {| Code := 200; Body := Some "[fn1.ns1]" |}.

Definition noFunctions : Recorder := {| Code := 200; Body := Some "[]" |}.

Definition answers : list (option VectorQueryResponse * error) :=
  [(Example.response [Example.sample "fn1.ns1" "" "" "42"], None);
   (Example.response [Example.sample "" "fn1" "ns1" "1.5"], None);
   (Example.response [Example.sample "" "fn1" "ns1" "1024"], None);
   (Example.response [Example.sample "fn1.ns1" "" "" "0.2"], None)].

(** Every query fails, and the client still hands back a result. *)
Definition failures : list (option VectorQueryResponse * error) :=
  [(Example.response [], Some "connection refused");
   (Example.response [], Some "timeout");
   (Example.response [], Some "timeout");
   (Example.response [], Some "timeout")].

End HandlerExample.

(** *** Vocabulary for a whole scrape and for the watcher *)

(** The value the last sample that addresses the series [k] sets, if any
    sample does. *)
Definition lastSet {lib : GoLibrary} (samples : list VectorSample) (k : list string)
  : option float :=
  foldl (fun acc v => if decide (gaugeKey v = k) then Some (gaugeValue v) else acc)
        None samples.

(** The label tuples of the services in the snapshot. *)
Definition snapshotKeys (e : Exporter) : list (list string) :=
  map (fun service => [serviceName service]) (services e).

(** What a scrape leaves in the series [k] of the CPU or memory gauge:
    the last value a sample sets, else zero for a service of the
    snapshot, else what the series held before. *)
Definition scraped {lib : GoLibrary} (samples : list VectorSample) (e : Exporter)
           (gauge : Vec) (k : list string) : option float :=
  match lastSet samples k with
  | Some x => Some x
  | None => if decide (k ∈ snapshotKeys e) then Some 0%float else gauge !! k
  end.

(** The replica gauge [Collect] builds from a snapshot. *)
Definition replicaGauge (snapshot : list types.FunctionStatus) : Vec :=
  foldl (fun gauge service =>
           <[ [serviceName service] := float64_of_uint64 (types.Replicas service) ]> gauge)
        ∅ snapshot.

Fixpoint containsDot (s : string) : bool :=
  match s with
  | EmptyString => false
  | String c s' => Ascii.eqb c "."%char || containsDot s'
  end.

(** What one listing contributes to the snapshot in the loop over the
    namespaces: nothing when it failed. *)
Definition listedIn {provider : ProviderListing} (namespace : string)
  : list types.FunctionStatus :=
  match getFunctions namespace with
  | (nsServices, None) => nsServices
  | (_, Some _) => []
  end.

(** Providers for the examples of the watcher. *)
Module WatcherExample.

(** Two namespaces; the listing of the second one fails. *)
Definition twoNamespaces : ProviderListing :=
  {| getNamespaces := (["ns1"; "ns2"], None);
     getFunctions := fun namespace =>
       if String.eqb namespace "ns1" then ([Example.function "fn1" "ns1"], None)
       else ([], Some "unexpected status 503") |}.

(** A provider that cannot be reached. *)
Definition unreachable : ProviderListing :=
  {| getNamespaces := ([], Some "connection refused");
     getFunctions := fun _ => ([], Some "connection refused") |}.

(** An exporter with a stale CPU series, and a service without
    namespace in its snapshot. *)
Definition exporter : Exporter :=
  {| metricOptions :=
       {| GatewayFunctionInvocation := {[ ["fn1.ns1"; "200"] := 3%float ]};
          GatewayFunctionsHistogram := ∅;
          GatewayFunctionInvocationStarted := ∅;
          ServiceReplicasGauge := {[ ["gone.ns1"] := 1%float ]};
          GatewayFunctionRequestSummary := ∅;
          PodCpuUsageSecondsTotal := {[ ["gone.ns1"] := 5%float ]};
          PodMemoryWorkingSetBytes := ∅ |};
     services := [Example.function "fn1" "ns1"; Example.function "fn2" ""];
     FunctionNamespace := "openfaas-fn" |}.

Definition replies : list (option VectorQueryResponse * error) :=
  [(Example.response [Example.sample "" "fn1" "ns1" "7"], None);
   (Example.response [Example.sample "" "fn1" "ns1" "1024"], None);
   (Example.response [Example.sample "" "fn1" "ns1" "7"], None);
   (Example.response [Example.sample "" "fn1" "ns1" "1024"], None)].

End WatcherExample.

(** The exporter after a scrape whose two queries returned the samples
    [cpuSamples] and [memorySamples]. *)
Definition scrapedExporter {lib : GoLibrary} (cpuSamples memorySamples : list VectorSample)
           (e : Exporter) : Exporter :=
  let o := metricOptions (resetGauges e) in
  set_metricOptions
    (set_gauges (ServiceReplicasGauge o)
                (refreshed cpuSamples (PodCpuUsageSecondsTotal o))
                (refreshed memorySamples (PodMemoryWorkingSetBytes o)) o)
    (resetGauges e).

(** Replies for the examples of a malformed result: a numeric sample
    value, and a nil result without an error. *)
Module ScrapeExample.

Definition numeric : VectorSample :=
  {| Metric := Metric.mk "" "fn1" "ns1"; Value := (JNumber 0, JNumber 7) |}.

Definition numericReply : list (option VectorQueryResponse * error) :=
  [(Example.response [Example.sample "" "fn1" "ns1" "7"; numeric], None)].

Definition nilReply : list (option VectorQueryResponse * error) := [(None, None)].

End ScrapeExample.

(** ** The earlier revision of [add_metrics.go] ([part_001])

    Its [mixIn], [mixCPU] and [mixMemory] are the ones above, line for
    line. It differs in the zero-initialisation, which writes into a
    slice that is never grown, in the CPU query (the one [calc] sends),
    and in [mixTime], which matches on container and namespace and
    divides without a guard. *)
Module Part001.

Section Code.
Context {lib : GoLibrary} {T : Type} {client : PrometheusQueryFetcher T}.

(** The inner loop body of [mixTime] for record [i]. *)
Definition timeBody (i : nat) (function : FunctionStatus) (v : VectorSample)
           (st : list FunctionStatus * float) : M T (list FunctionStatus * float) :=
  let '(functions, num) := st in
  if matchesContainer function v then
    match snd (Value v) with
    | JString value =>
      let (f, err) := ParseFloat value in
      match err with
      | Some e =>
        logPrintf conversionFailure [LStr value; LStr e] ;;;
        ret (functions, num)
      | None =>
        logPrintf "add_metrics: avgTime %f" [LFloat f] ;;;
        functions <- updateAt i (fun r =>
          ret (set_InvocationAvgTime (InvocationAvgTime r + f) r)) functions ;;
        ret (functions, (num + 1)%float)
      end
    | _ => ret (functions, num)
    end
  else ret (functions, num).

(** [func mixTime] of [part_001], lines 206-233: after the inner loop,
    [InvocationAvgTime /= num] whatever [num] is. *)
Definition mixTime (functions : list FunctionStatus)
           (metrics : option VectorQueryResponse) : M T (list FunctionStatus) :=
  m <- deref metrics ;;
  logPrintf "metrices len: %d" [LInt (Z.of_nat (length (Result (Data m))))] ;;;
  forIndex (length functions) 0 (fun i functions =>
    match functions !! i with
    | None => throw IndexOutOfRange
    | Some function =>
      st <- forRange (Result (Data m)) (timeBody i function) (functions, 0%float) ;;
      let '(functions, num) := st in
      updateAt i (fun r =>
        ret (set_InvocationAvgTime (InvocationAvgTime r / num) r)) functions
    end) functions.

(** Lines 50-72: [var functions []FunctionStatus] stays nil, and every
    statement of the loop assigns through [functions[i]]. The first
    three assignments are kept apart; the later ones are gathered in one
    update, with the dereferences of the two [Limits] and the two
    [Requests] pointers they make. *)
Definition zeroInPlace (function : list types.FunctionStatus)
           (functions : list FunctionStatus) : M T (list FunctionStatus) :=
  forIndex (length function) 0 (fun i functions =>
    match function !! i with
    | None => throw IndexOutOfRange
    | Some f =>
      functions <- updateAt i (fun r => ret (set_InvocationCount 0 r)) functions ;;
      functions <- updateAt i (fun r => ret (set_InvocationAvgTime 0 r)) functions ;;
      functions <- updateAt i (fun r =>
        ret (set_Usage (Some (FunctionUsage.mk 0 0)) r)) functions ;;
      updateAt i (fun r =>
        _ <- deref (Limits r) ;;
        limits <- deref (types.Limits f) ;;
        _ <- deref (Requests r) ;;
        requests <- deref (types.Requests f) ;;
        ret {| Name := types.Name f;
               Namespace := types.Namespace f;
               Image := types.Image f;
               Limits := Some (FunctionResources.mk (FunctionResources.Memory limits)
                                                   (FunctionResources.CPU limits));
               EnvProcess := types.EnvProcess f;
               AvailableReplicas := types.AvailableReplicas f;
               Replicas := types.Replicas f;
               Requests := Some (FunctionResources.mk (FunctionResources.Memory requests)
                                                     (FunctionResources.CPU requests));
               Annotations := types.Annotations f;
               Constraints := types.Constraints f;
               ReadOnlyRootFilesystem := types.ReadOnlyRootFilesystem f;
               CreatedAt := types.CreatedAt f;
               EnvVars := EnvVars r; Secrets := Secrets r; Labels := Labels r;
               InvocationCount := InvocationCount r;
               InvocationAvgTime := InvocationAvgTime r;
               Usage := Usage r |}) functions
    end) functions.

(** The CPU query of this revision is the one [calc] sends. *)
Definition cpuQuery : string := calcCpuQuery.

(** Lines 74-117, entered when [len(functions) > 0]. *)
Definition queryAndMix (functions : list FunctionStatus) : M T (list FunctionStatus) :=
  match functions !! 0%nat with
  | None => throw IndexOutOfRange
  | Some first =>
    let ns := Namespace first in
    let q := invocationQuery ns in
    reply <- fetch (QueryEscape q) ;;
    let '(results, err) := reply in
    match err with
    | Some e => logPrintf queryFailure [LStr e]
    | None => ret tt
    end ;;;
    functions <- mixIn functions results ;;
    let q1 := cpuQuery in
    reply1 <- fetch (QueryEscape q1) ;;
    let '(results1, err1) := reply1 in
    match err1 with
    | Some _ => e <- errorString err ;; logPrintf queryFailure [LStr e]
    | None => ret tt
    end ;;;
    functions <- mixCPU functions results1 ;;
    let q2 := memoryQuery in
    reply2 <- fetch (QueryEscape q2) ;;
    let '(results2, err2) := reply2 in
    match err2 with
    | Some _ => e <- errorString err ;; logPrintf queryFailure [LStr e]
    | None => ret tt
    end ;;;
    functions <- mixMemory functions results2 ;;
    let q3 := latencyQuery in
    reply3 <- fetch (QueryEscape q3) ;;
    let '(results3, err3) := reply3 in
    match err3 with
    | Some _ => e <- errorString err ;; logPrintf queryFailure [LStr e]
    | None => ret tt
    end ;;;
    mixTime functions results3
  end.

(** The handler of [part_001], lines 16-128. *)
Definition AddMetricsHandler (recorder : Recorder) (w : ResponseWriter) : M T ResponseWriter :=
  match Body recorder with
  | None =>
    logPrintln "Upstream call had empty body." ;;;
    ret w
  | Some upstreamBody =>
    if negb (Code recorder =? StatusOK)%Z then
      logPrintf "List functions responded with code %d, body: %s"
                [LInt (Code recorder); LStr upstreamBody] ;;;
      ret (http_Error upstreamBody (Code recorder) w)
    else
      let (function, err) := Unmarshal upstreamBody in
      match err with
      | Some e =>
        logPrintf "Metrics upstream error: %s, value: %s" [LStr e; LStr upstreamBody] ;;;
        ret (http_Error "Unable to parse list of functions from provider"
                        StatusInternalServerError w)
      | None =>
        functions <- zeroInPlace function [] ;;
        functions <- (if (0 <? length functions)%nat
                      then queryAndMix functions else ret functions) ;;
        let (bytesOut, err) := Marshal functions in
        match err with
        | Some e =>
          logPrintf "Error serializing functions: %s" [LStr e] ;;;
          ret (http_Error "Error writing response after adding metrics"
                          StatusInternalServerError w)
        | None =>
          ret (Write bytesOut
                 (WriteHeader StatusOK
                    (Header_Set "Content-Type" "application/json" w)))
        end
      end
  end.

End Code.

(** What [mixTime] leaves in a record: the running total divided by the
    match count, also when the count is zero. *)
Definition mixTime_record {lib : GoLibrary} (samples : list VectorSample)
           (r : FunctionStatus) : FunctionStatus :=
  let vs := matchedValues (matchesContainer r) samples in
  set_InvocationAvgTime
    (sumFrom (InvocationAvgTime r) vs / float64_count (length vs))%float r.

End Part001.

(** *** Vocabulary for what every returning run guarantees *)

(** Whenever [m] returns, the result satisfies [P] (nothing is said of
    the runs that panic). *)
Definition ensures {T A} (m : M T A) (P : A -> Prop) : Prop :=
  forall σ σ' a, m σ = (σ', Ok a) -> P a.

(** [r'] is [r] up to the three metric fields [InvocationCount],
    [InvocationAvgTime] and [Usage]. *)
Definition metricsOnly (r r' : FunctionStatus) : Prop :=
  r' = set_Usage (Usage r')
         (set_InvocationAvgTime (InvocationAvgTime r')
            (set_InvocationCount (InvocationCount r') r)).

(** * Properties *)

(** ** Reasoning about the environment monad *)

Lemma addLogs_nil {T} (σ : World T) : addLogs [] σ = σ.
Proof. destruct σ; unfold addLogs; simpl; by rewrite app_nil_r. Qed.

Lemma addLogs_app {T} (L1 L2 : list LogEntry) (σ : World T) :
  addLogs L2 (addLogs L1 σ) = addLogs (L1 ++ L2) σ.
Proof. unfold addLogs; simpl; by rewrite app_assoc. Qed.

Lemma logsOnly_ret {T A} (a : A) : logsOnly (@ret T A a) a.
Proof. intros σ; exists []; by rewrite addLogs_nil. Qed.

Lemma logsOnly_bind {T A B} (m : M T A) (k : A -> M T B) a b :
  logsOnly m a -> logsOnly (k a) b -> logsOnly (bind m k) b.
Proof.
  intros Hm Hk σ. destruct (Hm σ) as [L1 E1].
  destruct (Hk (addLogs L1 σ)) as [L2 E2].
  exists (L1 ++ L2). unfold bind. rewrite E1, E2. by rewrite addLogs_app.
Qed.

Lemma logsOnly_logPrintf {T} format args : logsOnly (@logPrintf T format args) tt.
Proof. intros σ. by eexists [_]. Qed.

Lemma logsOnly_deref {T A} (a : A) : logsOnly (@deref T A (Some a)) a.
Proof. apply logsOnly_ret. Qed.

Lemma logsOnly_updateAt {T A} (i : nat) (f : A -> M T A) (l : list A) a a' :
  l !! i = Some a -> logsOnly (f a) a' -> logsOnly (updateAt i f l) (<[i := a']> l).
Proof.
  intros Hi Hf. unfold updateAt. rewrite Hi.
  eapply logsOnly_bind; [exact Hf | apply logsOnly_ret].
Qed.

(** *** Rules shared by the ways of running a join

    [R m a] reads: running [m] yields [a]. The loops of the joins are
    analysed once, for every [R] that is closed under [ret], [bind] and
    logging: [logsOnly] (the run returns) and [okOrPanic] (the run
    returns or panics). *)
Section Rules.
Context {T : Type}.
Variable R : forall A, M T A -> A -> Prop.
Hypothesis R_ret : forall A (a : A), R A (ret a) a.
Hypothesis R_bind : forall A B (m : M T A) (k : A -> M T B) a b,
    R A m a -> R B (k a) b -> R B (bind m k) b.
Hypothesis R_log : forall format args, R unit (logPrintf format args) tt.

(** The outer loop of a join: iteration [i] rewrites element [i] only. *)
Lemma rule_forIndex {A} (body : nat -> list A -> M T (list A))
      (g : A -> A) (P : A -> Prop) :
  (forall i l a, l !! i = Some a -> P a -> R _ (body i l) (<[i := g a]> l)) ->
  forall l, Forall P l -> R _ (forIndex (length l) 0 body l) (map g l).
Proof.
  intros Hbody l Hl.
  enough (Hgen : forall post pre, Forall P post ->
            R _ (forIndex (length post) (length pre) body (pre ++ post))
                (pre ++ map g post))
    by exact (Hgen l [] Hl).
  clear l Hl. induction post as [|a post IH]; intros pre HP; simpl.
  - rewrite app_nil_r. apply R_ret.
  - inversion HP as [|? ? Pa Ppost]; subst.
    eapply R_bind.
    + apply (Hbody (length pre) (pre ++ a :: post) a); [|exact Pa].
      by rewrite list_lookup_middle.
    + rewrite insert_app_r_alt by lia. rewrite Nat.sub_diag. simpl.
      specialize (IH (pre ++ [g a]) Ppost).
      rewrite length_app in IH. simpl in IH.
      rewrite Nat.add_1_r in IH. by rewrite <- !app_assoc in IH.
Qed.

(** The inner loop of [mixIn], [mixCPU] and [mixMemory] for record [i]:
    the matching parsed values are folded into the record, in order. *)
Lemma rule_joinBody {lib : GoLibrary} matches
      (onValue : float -> list FunctionStatus -> M T (list FunctionStatus))
      (g : float -> FunctionStatus -> FunctionStatus)
      (P : FunctionStatus -> Prop) i :
  (forall f l r, l !! i = Some r -> P r -> R _ (onValue f l) (<[i := g f r]> l)) ->
  (forall f r, P r -> P (g f r)) ->
  forall samples l r, l !! i = Some r -> P r ->
    R _ (forRange samples (joinBody matches onValue) l)
        (<[i := foldl (fun r f => g f r) r (matchedValues matches samples)]> l).
Proof.
  intros Hon HP. induction samples as [|v samples IH]; intros l r Hi Pr; simpl.
  - rewrite list_insert_id by done. apply R_ret.
  - unfold matchedValues in *. simpl. unfold joinBody at 1, parsedValue.
    destruct (matches v); [|eapply R_bind; [apply R_ret | by apply IH]].
    destruct (snd (Value v));
      try (eapply R_bind; [apply R_ret | by apply IH]).
    destruct (ParseFloat s) as [f [e|]]; simpl.
    + eapply R_bind; [|by apply IH].
      eapply R_bind; [apply R_log | apply R_ret].
    + eapply R_bind; [by apply Hon|].
      assert (Hlen : (i < length l)%nat) by (eapply lookup_lt_Some; eauto).
      specialize (IH (<[i := g f r]> l) (g f r)).
      rewrite list_insert_insert_eq in IH. apply IH; [|by apply HP].
      by apply list_lookup_insert_eq.
Qed.

End Rules.

Lemma logsOnly_forIndex {T A} (body : nat -> list A -> M T (list A))
      (g : A -> A) (P : A -> Prop) :
  (forall i l a, l !! i = Some a -> P a -> logsOnly (body i l) (<[i := g a]> l)) ->
  forall l, Forall P l -> logsOnly (forIndex (length l) 0 body l) (map g l).
Proof.
  apply (rule_forIndex (@logsOnly T)).
  - intros; apply logsOnly_ret.
  - intros; by eapply logsOnly_bind.
Qed.

Section JoinLemmas.
Context {lib : GoLibrary} {T : Type}.

Lemma logsOnly_joinBody matches
      (onValue : float -> list FunctionStatus -> M T (list FunctionStatus))
      (g : float -> FunctionStatus -> FunctionStatus)
      (P : FunctionStatus -> Prop) i :
  (forall f l r, l !! i = Some r -> P r -> logsOnly (onValue f l) (<[i := g f r]> l)) ->
  (forall f r, P r -> P (g f r)) ->
  forall samples l r, l !! i = Some r -> P r ->
    logsOnly (forRange samples (joinBody matches onValue) l)
             (<[i := foldl (fun r f => g f r) r (matchedValues matches samples)]> l).
Proof.
  apply (rule_joinBody (@logsOnly T)).
  - intros; apply logsOnly_ret.
  - intros; by eapply logsOnly_bind.
  - intros; apply logsOnly_logPrintf.
Qed.

Lemma set_InvocationCount_id r : set_InvocationCount (InvocationCount r) r = r.
Proof. by destruct r. Qed.

Lemma set_InvocationAvgTime_id r : set_InvocationAvgTime (InvocationAvgTime r) r = r.
Proof. by destruct r. Qed.

Lemma set_Usage_id r : set_Usage (Usage r) r = r.
Proof. by destruct r. Qed.

Lemma mixIn_runs (functions : list FunctionStatus) (m : VectorQueryResponse) :
  logsOnly (T:=T) (mixIn functions (Some m))
           (map (mixIn_record (Result (Data m))) functions).
Proof.
  unfold mixIn.
  apply (logsOnly_forIndex _ _ (fun _ => True)); [|by apply Forall_true].
  intros i l a Hi _. rewrite Hi.
  eapply logsOnly_bind; [apply logsOnly_deref|].
  unfold mixIn_record, sumFrom.
  set (vs := matchedValues (matchesFunctionName a) (Result (Data m))).
  replace (set_InvocationCount (foldl PrimFloat.add (InvocationCount a) vs) a)
    with (foldl (fun r f => set_InvocationCount (InvocationCount r + f) r) a vs).
  - apply (logsOnly_joinBody (matchesFunctionName a) _
             (fun f r => set_InvocationCount (InvocationCount r + f) r)
             (fun _ => True)); try done.
    intros f l' r Hl' _. eapply logsOnly_updateAt; [done | apply logsOnly_ret].
  - clear. generalize a. induction vs as [|f vs IH]; intros r; simpl.
    + by rewrite set_InvocationCount_id.
    + rewrite IH. by destruct r.
Qed.

Lemma mixCPU_runs (functions : list FunctionStatus) (m : VectorQueryResponse) :
  Forall (fun r => is_Some (Usage r)) functions ->
  logsOnly (T:=T) (mixCPU functions (Some m))
           (map (mixCPU_record (Result (Data m))) functions).
Proof.
  intros Hall. unfold mixCPU.
  eapply logsOnly_bind; [apply logsOnly_deref|].
  eapply logsOnly_bind; [apply logsOnly_logPrintf|].
  apply (logsOnly_forIndex _ _ (fun r => is_Some (Usage r))); [|done].
  intros i l a Hi [u Hu]. rewrite Hi.
  unfold mixCPU_record, sumFrom. rewrite Hu.
  set (vs := matchedValues (matchesContainer a) (Result (Data m))).
  set (g := fun f r => match Usage r with
                       | Some u => set_Usage (Some (addCPU f u)) r
                       | None => r
                       end).
  replace (set_Usage _ a) with (foldl (fun r f => g f r) a vs).
  - apply (logsOnly_joinBody (matchesContainer a) _ g (fun r => is_Some (Usage r)));
      [| |done|by eexists].
    + intros f l' r Hl' [u' Hu'].
      eapply logsOnly_bind; [apply logsOnly_logPrintf|].
      eapply logsOnly_updateAt; [done|].
      rewrite Hu'. eapply logsOnly_bind; [apply logsOnly_deref|].
      unfold g. rewrite Hu'. apply logsOnly_ret.
    + intros f r [u' Hu']. unfold g. rewrite Hu'. by eexists.
  - clear -Hu. revert u Hu. generalize a.
    induction vs as [|f vs IH]; intros r u Hu; simpl.
    + destruct u; simpl. rewrite <- Hu. by rewrite set_Usage_id.
    + unfold g at 2. rewrite Hu.
      rewrite (IH _ (addCPU f u)) by done. by destruct r.
Qed.

Lemma mixMemory_runs (functions : list FunctionStatus) (m : VectorQueryResponse) :
  Forall (fun r => is_Some (Usage r)) functions ->
  logsOnly (T:=T) (mixMemory functions (Some m))
           (map (mixMemory_record (Result (Data m))) functions).
Proof.
  intros Hall. unfold mixMemory.
  eapply logsOnly_bind; [apply logsOnly_deref|].
  eapply logsOnly_bind; [apply logsOnly_logPrintf|].
  apply (logsOnly_forIndex _ _ (fun r => is_Some (Usage r))); [|done].
  intros i l a Hi [u Hu]. rewrite Hi.
  unfold mixMemory_record, sumFrom. rewrite Hu.
  set (vs := matchedValues (matchesContainer a) (Result (Data m))).
  set (g := fun f r => match Usage r with
                       | Some u => set_Usage (Some (addMemory f u)) r
                       | None => r
                       end).
  replace (set_Usage _ a) with (foldl (fun r f => g f r) a vs).
  - apply (logsOnly_joinBody (matchesContainer a) _ g (fun r => is_Some (Usage r)));
      [| |done|by eexists].
    + intros f l' r Hl' [u' Hu'].
      eapply logsOnly_bind; [apply logsOnly_logPrintf|].
      eapply logsOnly_updateAt; [done|].
      rewrite Hu'. eapply logsOnly_bind; [apply logsOnly_deref|].
      unfold g. rewrite Hu'. apply logsOnly_ret.
    + intros f r [u' Hu']. unfold g. rewrite Hu'. by eexists.
  - clear -Hu. revert u Hu. generalize a.
    induction vs as [|f vs IH]; intros r u Hu; simpl.
    + destruct u; simpl. rewrite <- Hu. by rewrite set_Usage_id.
    + unfold g at 2. rewrite Hu.
      rewrite (IH _ (addMemory f u)) by done. by destruct r.
Qed.

Lemma logsOnly_timeBody i function samples :
  forall l r num, l !! i = Some r ->
    let vs := matchedValues (matchesFunctionName function) samples in
    logsOnly (T:=T) (forRange samples (timeBody i function) (l, num))
             (<[i := set_InvocationAvgTime (sumFrom (InvocationAvgTime r) vs) r]> l,
              Nat.iter (length vs) (fun n => (n + 1)%float) num).
Proof.
  induction samples as [|v samples IH]; intros l r num Hi; simpl.
  - rewrite set_InvocationAvgTime_id, list_insert_id by done. apply logsOnly_ret.
  - unfold matchedValues in *. simpl. unfold timeBody at 1, parsedValue.
    destruct (matchesFunctionName function v);
      [|eapply logsOnly_bind; [apply logsOnly_ret | by apply IH]].
    destruct (snd (Value v));
      try (eapply logsOnly_bind; [apply logsOnly_ret | by apply IH]).
    destruct (ParseFloat s) as [f [e|]]; simpl.
    + eapply logsOnly_bind; [|by apply IH].
      eapply logsOnly_bind; [apply logsOnly_logPrintf | apply logsOnly_ret].
    + eapply logsOnly_bind.
      { eapply logsOnly_bind; [apply logsOnly_logPrintf|].
        eapply logsOnly_bind; [|apply logsOnly_ret].
        eapply logsOnly_updateAt; [done | apply logsOnly_ret]. }
      assert (Hlen : (i < length l)%nat) by (eapply lookup_lt_Some; eauto).
      specialize (IH (<[i := set_InvocationAvgTime (InvocationAvgTime r + f) r]> l)
                     (set_InvocationAvgTime (InvocationAvgTime r + f) r)
                     (num + 1)%float).
      rewrite list_lookup_insert_eq in IH by done. specialize (IH eq_refl).
      rewrite list_insert_insert_eq in IH.
      pose proof (Nat.iter_succ_r
                    (length (omap (fun v => if matchesFunctionName function v
                                            then parsedValue v else None) samples))
                    (fun n => (n + 1)%float) num) as Hiter.
      simpl in Hiter. rewrite <- Hiter in IH. clear Hiter.
      clear Hi. destruct r. exact IH.
Qed.

Lemma mixTime_runs (functions : list FunctionStatus) (m : VectorQueryResponse) :
  logsOnly (T:=T) (mixTime functions (Some m))
           (map (mixTime_record (Result (Data m))) functions).
Proof.
  unfold mixTime.
  eapply logsOnly_bind; [apply logsOnly_deref|].
  eapply logsOnly_bind; [apply logsOnly_logPrintf|].
  apply (logsOnly_forIndex _ _ (fun _ => True)); [|by apply Forall_true].
  intros i l a Hi _. rewrite Hi.
  eapply logsOnly_bind.
  { apply (logsOnly_timeBody i a (Result (Data m)) l a 0%float Hi). }
  simpl. unfold mixTime_record, float64_count.
  set (vs := matchedValues (matchesFunctionName a) (Result (Data m))).
  set (num := Nat.iter (length vs) _ _).
  assert (Hlen : (i < length l)%nat) by (eapply lookup_lt_Some; eauto).
  destruct (negb (num =? 0)%float).
  - replace (<[i := set_InvocationAvgTime
                      (sumFrom (InvocationAvgTime a) vs / num) a]> l)
      with (<[i := set_InvocationAvgTime
                     (InvocationAvgTime
                        (set_InvocationAvgTime (sumFrom (InvocationAvgTime a) vs) a) / num)
                     (set_InvocationAvgTime (sumFrom (InvocationAvgTime a) vs) a)]>
            (<[i := set_InvocationAvgTime (sumFrom (InvocationAvgTime a) vs) a]> l)).
    + eapply logsOnly_updateAt; [by apply list_lookup_insert_eq | apply logsOnly_ret].
    + rewrite list_insert_insert_eq. by destruct a.
  - apply logsOnly_ret.
Qed.

End JoinLemmas.

(** ** Runs that may panic *)

Lemma okOrPanic_ret {T A} (a : A) : okOrPanic (@ret T A a) a.
Proof. intros σ; exists []; left; by rewrite addLogs_nil. Qed.

Lemma okOrPanic_throw {T A} (p : panic) (a : A) : okOrPanic (@throw T A p) a.
Proof. intros σ; exists []; right; exists p; by rewrite addLogs_nil. Qed.

Lemma okOrPanic_bind {T A B} (m : M T A) (k : A -> M T B) a b :
  okOrPanic m a -> okOrPanic (k a) b -> okOrPanic (bind m k) b.
Proof.
  intros Hm Hk σ. unfold bind. destruct (Hm σ) as [L1 [E1|[p E1]]]; rewrite E1.
  - destruct (Hk (addLogs L1 σ)) as [L2 [E2|[p E2]]]; rewrite E2;
      exists (L1 ++ L2); rewrite addLogs_app; eauto.
  - exists L1; eauto.
Qed.

Lemma logsOnly_okOrPanic {T A} (m : M T A) (a : A) : logsOnly m a -> okOrPanic m a.
Proof. intros Hm σ. destruct (Hm σ) as [L E]. exists L; by left. Qed.

Section PanickingJoins.
Context {lib : GoLibrary} {T : Type}.

Lemma okOrPanic_updateUsage (i : nat) (l : list FunctionStatus) (r : FunctionStatus)
      (change : FunctionUsage.t -> FunctionUsage.t) :
  l !! i = Some r ->
  okOrPanic (T:=T)
    (updateAt i (fun r => u <- deref (Usage r) ;; ret (set_Usage (Some (change u)) r)) l)
    (<[i := match Usage r with
            | Some u => set_Usage (Some (change u)) r
            | None => r
            end]> l).
Proof.
  intros Hi. unfold updateAt. rewrite Hi. destruct (Usage r) as [u|]; simpl.
  - apply logsOnly_okOrPanic.
    eapply logsOnly_bind; [|apply logsOnly_ret].
    eapply logsOnly_bind; apply logsOnly_ret.
  - intros σ. exists []. right. exists NilDereference. by rewrite addLogs_nil.
Qed.

Lemma foldl_usage (change : float -> FunctionUsage.t -> FunctionUsage.t)
      (vs : list float) (r : FunctionStatus) :
  foldl (fun r f => match Usage r with
                    | Some u => set_Usage (Some (change f u)) r
                    | None => r
                    end) r vs
  = match Usage r with
    | Some u => set_Usage (Some (foldl (fun u f => change f u) u vs)) r
    | None => r
    end.
Proof.
  revert r. induction vs as [|f vs IH]; intros r; simpl.
  - destruct (Usage r) eqn:E; [|done]. by rewrite <- E, set_Usage_id.
  - rewrite IH. destruct (Usage r) eqn:E; simpl; [by destruct r | by rewrite E].
Qed.

Lemma foldl_addCPU (vs : list float) (u : FunctionUsage.t) :
  foldl (fun u f => addCPU f u) u vs
  = FunctionUsage.mk (sumFrom (FunctionUsage.CPU u) vs) (FunctionUsage.TotalMemoryBytes u).
Proof.
  revert u. induction vs as [|f vs IH]; intros [c b]; simpl; [done|].
  by rewrite IH.
Qed.

Lemma foldl_addMemory (vs : list float) (u : FunctionUsage.t) :
  foldl (fun u f => addMemory f u) u vs
  = FunctionUsage.mk (FunctionUsage.CPU u) (sumFrom (FunctionUsage.TotalMemoryBytes u) vs).
Proof.
  revert u. induction vs as [|f vs IH]; intros [c b]; simpl; [done|].
  by rewrite IH.
Qed.

Lemma mixCPU_okOrPanic (functions : list FunctionStatus) (m : VectorQueryResponse) :
  okOrPanic (T:=T) (mixCPU functions (Some m))
            (map (mixCPU_record (Result (Data m))) functions).
Proof.
  unfold mixCPU.
  eapply okOrPanic_bind; [apply okOrPanic_ret|].
  eapply okOrPanic_bind; [apply logsOnly_okOrPanic, logsOnly_logPrintf|].
  apply (rule_forIndex (@okOrPanic T) (@okOrPanic_ret T) (@okOrPanic_bind T)
           _ _ (fun _ => True)); [|by apply Forall_true].
  intros i l a Hi _. rewrite Hi.
  replace (mixCPU_record (Result (Data m)) a)
    with (foldl (fun r f => match Usage r with
                            | Some u => set_Usage (Some (addCPU f u)) r
                            | None => r
                            end) a
                (matchedValues (matchesContainer a) (Result (Data m)))).
  - apply (rule_joinBody (@okOrPanic T) (@okOrPanic_ret T) (@okOrPanic_bind T)
             (fun f a => logsOnly_okOrPanic _ _ (logsOnly_logPrintf f a))
             (matchesContainer a) _ _ (fun _ => True)); try done.
    intros f l' r Hl' _.
    eapply okOrPanic_bind; [apply logsOnly_okOrPanic, logsOnly_logPrintf|].
    by apply (okOrPanic_updateUsage i l' r (addCPU f)).
  - rewrite (foldl_usage addCPU). unfold mixCPU_record.
    destruct (Usage a); [|done]. by rewrite foldl_addCPU.
Qed.

Lemma mixMemory_okOrPanic (functions : list FunctionStatus) (m : VectorQueryResponse) :
  okOrPanic (T:=T) (mixMemory functions (Some m))
            (map (mixMemory_record (Result (Data m))) functions).
Proof.
  unfold mixMemory.
  eapply okOrPanic_bind; [apply okOrPanic_ret|].
  eapply okOrPanic_bind; [apply logsOnly_okOrPanic, logsOnly_logPrintf|].
  apply (rule_forIndex (@okOrPanic T) (@okOrPanic_ret T) (@okOrPanic_bind T)
           _ _ (fun _ => True)); [|by apply Forall_true].
  intros i l a Hi _. rewrite Hi.
  replace (mixMemory_record (Result (Data m)) a)
    with (foldl (fun r f => match Usage r with
                            | Some u => set_Usage (Some (addMemory f u)) r
                            | None => r
                            end) a
                (matchedValues (matchesContainer a) (Result (Data m)))).
  - apply (rule_joinBody (@okOrPanic T) (@okOrPanic_ret T) (@okOrPanic_bind T)
             (fun f a => logsOnly_okOrPanic _ _ (logsOnly_logPrintf f a))
             (matchesContainer a) _ _ (fun _ => True)); try done.
    intros f l' r Hl' _.
    eapply okOrPanic_bind; [apply logsOnly_okOrPanic, logsOnly_logPrintf|].
    by apply (okOrPanic_updateUsage i l' r (addMemory f)).
  - rewrite (foldl_usage addMemory). unfold mixMemory_record.
    destruct (Usage a); [|done]. by rewrite foldl_addMemory.
Qed.

End PanickingJoins.

(** ** Binary64 facts: the match count of [mixTime] is never zero

    [num] starts at [0.0] and grows by [1.0] per match. Read through
    [Prim2SF], each addition is [SF64add]; its rounding never takes a
    positive sum at or above one to zero. *)

Section Binary64.
Local Open Scope Z_scope.

Lemma digits2_pos_bounds (p : positive) :
  2 ^ (Zpos (digits2_pos p) - 1) <= Zpos p < 2 ^ Zpos (digits2_pos p).
Proof.
  induction p as [p IH|p IH|]; simpl digits2_pos.
  - rewrite Pos2Z.inj_succ. replace (Z.succ (Zpos (digits2_pos p)) - 1) with (Z.succ (Zpos (digits2_pos p) - 1)) by lia.
    rewrite !Z.pow_succ_r by lia. lia.
  - rewrite Pos2Z.inj_succ. replace (Z.succ (Zpos (digits2_pos p)) - 1) with (Z.succ (Zpos (digits2_pos p) - 1)) by lia.
    rewrite !Z.pow_succ_r by lia. lia.
  - simpl. lia.
Qed.

Lemma digits2_pos_lower (p : positive) (k : Z) :
  0 <= k -> 2 ^ k <= Zpos p -> k < Zpos (digits2_pos p).
Proof.
  intros Hk Hp. destruct (digits2_pos_bounds p) as [_ Hu].
  apply (Z.pow_lt_mono_r_iff 2); lia.
Qed.

Lemma shr_1_lower (mrs : shr_record) (k : Z) :
  1 <= k -> 2 ^ k <= shr_m mrs -> 2 ^ (k - 1) <= shr_m (shr_1 mrs).
Proof.
  intros Hk Hm. destruct mrs as [m r s]. simpl in Hm.
  assert (E : 2 ^ k = 2 * 2 ^ (k - 1)).
  { replace k with (Z.succ (k - 1)) at 1 by lia. apply Z.pow_succ_r. lia. }
  assert (0 < 2 ^ (k - 1)) by (apply Z.pow_pos_nonneg; lia).
  destruct m as [|[p|p|]|p]; simpl; lia.
Qed.

Lemma iter_shr_1_lower (n : positive) :
  forall (mrs : shr_record) (k : Z),
    Zpos n <= k -> 2 ^ k <= shr_m mrs ->
    2 ^ (k - Zpos n) <= shr_m (SpecFloat.iter_pos shr_1 n mrs).
Proof.
  induction n as [n IH|n IH|]; intros mrs k Hk Hm; simpl.
  - replace (k - Zpos n~1) with (k - 1 - Zpos n - Zpos n) by lia.
    apply IH; [lia|]. apply IH; [lia|]. apply shr_1_lower; [lia|done].
  - replace (k - Zpos n~0) with (k - Zpos n - Zpos n) by lia.
    apply IH; [lia|]. apply IH; [lia|assumption].
  - apply shr_1_lower; [lia|assumption].
Qed.

Lemma shr_m_record_of_loc m l : shr_m (shr_record_of_loc m l) = m.
Proof. by destruct l as [|[]]. Qed.

Lemma digits2_pos_mono (p q : positive) :
  Zpos p <= Zpos q -> Zpos (digits2_pos p) <= Zpos (digits2_pos q).
Proof.
  intros Hpq. destruct (digits2_pos_bounds p) as [Hl _].
  pose proof (digits2_pos_lower q (Zpos (digits2_pos p) - 1) ltac:(lia) ltac:(lia)). lia.
Qed.

(** Above the underflow threshold, [shr_fexp] keeps the mantissa positive
    and does not lower the magnitude (digits plus exponent). *)
Lemma shr_fexp_positive (p : positive) (e : Z) (l : location) :
  emin < Zpos (digits2_pos p) + e ->
  exists mrs p' e', shr_fexp prec emax (Zpos p) e l = (mrs, e')
    /\ shr_m mrs = Zpos p'
    /\ Zpos (digits2_pos p) + e <= Zpos (digits2_pos p') + e'.
Proof.
  intros Hmag. unfold shr_fexp, shr. simpl Zdigits2.
  set (d := Zpos (digits2_pos p)) in *.
  set (n := fexp prec emax (d + e) - e).
  assert (Hn : n < d).
  { unfold n, fexp, emin, prec, emax in *. lia. }
  destruct n as [|np|np] eqn:En.
  - exists (shr_record_of_loc (Zpos p) l), p, e.
    rewrite shr_m_record_of_loc. repeat split; try lia.
  - destruct (digits2_pos_bounds p) as [Hl _]. fold d in Hl.
    pose proof (iter_shr_1_lower np (shr_record_of_loc (Zpos p) l) (d - 1)) as Hit.
    rewrite shr_m_record_of_loc in Hit.
    specialize (Hit ltac:(lia) Hl).
    assert (0 < 2 ^ (d - 1 - Zpos np)) by (apply Z.pow_pos_nonneg; lia).
    destruct (shr_m (SpecFloat.iter_pos shr_1 np (shr_record_of_loc (Zpos p) l))) as [|p'|p'] eqn:Em; try lia.
    exists (SpecFloat.iter_pos shr_1 np (shr_record_of_loc (Zpos p) l)), p', (e + Zpos np).
    repeat split; try done.
    pose proof (digits2_pos_lower p' (d - 1 - Zpos np) ltac:(lia) Hit). lia.
  - exists (shr_record_of_loc (Zpos p) l), p, e.
    rewrite shr_m_record_of_loc. repeat split; try lia.
Qed.

Lemma round_nearest_even_ge (m : Z) (l : location) : m <= round_nearest_even m l.
Proof. destruct l as [|[]]; simpl; try lia. destruct (Z.even m); lia. Qed.

Lemma binary_round_aux_positive (p : positive) (e : Z) (l : location) :
  emin < Zpos (digits2_pos p) + e ->
  positiveNonzero (binary_round_aux prec emax false (Zpos p) e l).
Proof.
  intros Hmag. unfold binary_round_aux.
  destruct (shr_fexp_positive p e l Hmag) as (mrs & p' & e' & -> & Hm & Hmag').
  pose proof (round_nearest_even_ge (shr_m mrs) (loc_of_shr_record mrs)) as Hr.
  rewrite Hm in Hr |- *.
  destruct (round_nearest_even (Zpos p') (loc_of_shr_record mrs)) as [|p2|p2] eqn:E2; try lia.
  pose proof (digits2_pos_mono p' p2 Hr).
  destruct (shr_fexp_positive p2 e' loc_Exact ltac:(lia)) as (mrs2 & p3 & e3 & -> & -> & _).
  simpl. by destruct (e3 <=? emax - prec).
Qed.

Lemma digits2_pos_iter_xO (p d : positive) :
  Zpos (digits2_pos (Pos.iter xO p d)) = Zpos (digits2_pos p) + Zpos d.
Proof.
  induction d as [|d IH] using Pos.peano_ind.
  - simpl. lia.
  - rewrite Pos.iter_succ. simpl. lia.
Qed.

Lemma shl_align_magnitude (p : positive) (e e' : Z) :
  Zpos (digits2_pos (fst (shl_align p e e'))) + snd (shl_align p e e')
  = Zpos (digits2_pos p) + e.
Proof.
  unfold shl_align. destruct (e' - e) as [|d|d] eqn:E; simpl; try done.
  rewrite digits2_pos_iter_xO. lia.
Qed.

Lemma binary_round_positive (p : positive) (e : Z) :
  emin < Zpos (digits2_pos p) + e ->
  positiveNonzero (binary_round prec emax false p e).
Proof.
  intros Hmag. unfold binary_round.
  pose proof (shl_align_magnitude p e (fexp prec emax (Zpos (digits2_pos p) + e))) as Hs.
  destruct (shl_align p e _) as [mz ez]. simpl in Hs.
  apply binary_round_aux_positive. lia.
Qed.

Lemma shl_align_snd (p : positive) (e e' : Z) : e' <= e -> snd (shl_align p e e') = e'.
Proof. intros H. unfold shl_align. destruct (e' - e) eqn:E; simpl; lia. Qed.

(** Adding [1.0] to a positive float gives a positive float. *)
Lemma SFadd_one_positive (x : spec_float) :
  positiveNonzero x \/ x = S754_zero false ->
  positiveNonzero (SF64add x (Prim2SF 1)).
Proof.
  replace (Prim2SF 1) with (S754_finite false 4503599627370496 (-52)) by (by vm_compute).
  intros [Hx| ->]; [|done].
  destruct x as [[]|[]| |[] m e]; try done.
  unfold SF64add, SFadd, binary_normalize, cond_Zopp.
  set (ez := Z.min e (-52)).
  pose proof (shl_align_magnitude 4503599627370496 (-52) ez) as Hb.
  rewrite shl_align_snd in Hb by (unfold ez; lia).
  set (a := fst (shl_align m e ez)) in *.
  set (b := fst (shl_align 4503599627370496 (-52) ez)) in *.
  simpl Z.add. apply binary_round_positive.
  pose proof (digits2_pos_mono b (a + b) ltac:(lia)).
  simpl digits2_pos in Hb. unfold emin, prec, emax. lia.
Qed.

Lemma float64_count_positive (K : nat) :
  (0 < K)%nat -> positiveNonzero (Prim2SF (float64_count K)).
Proof.
  induction K as [|K IH]; [lia|]. intros _. unfold float64_count in *. simpl.
  rewrite FloatAxioms.add_spec. apply SFadd_one_positive.
  destruct K as [|K]; [by right | left; apply IH; lia].
Qed.

Lemma float64_count_nonzero (K : nat) :
  (0 < K)%nat -> (float64_count K =? 0)%float = false.
Proof.
  intros HK. rewrite FloatAxioms.eqb_spec.
  pose proof (float64_count_positive K HK) as Hp.
  replace (Prim2SF 0) with (S754_zero false) by (by vm_compute).
  by destruct (Prim2SF (float64_count K)) as [[]|[]| |[] m e].
Qed.

(** Addition commutes, and two values added onto zero do. *)
Lemma SF64add_comm (x y : spec_float) : SF64add x y = SF64add y x.
Proof.
  destruct x as [sx|sx| |sx mx ex], y as [sy|sy| |sy my ey];
    try (by destruct sx, sy); try done.
  unfold SF64add, SFadd. by rewrite (Z.min_comm ey ex), Z.add_comm.
Qed.

Lemma float_add_comm (x y : float) : (x + y)%float = (y + x)%float.
Proof. apply Prim2SF_inj. rewrite !FloatAxioms.add_spec. apply SF64add_comm. Qed.

Lemma SF64add_zero_l (x : spec_float) :
  SF64add (S754_zero false) x = match x with S754_zero _ => S754_zero false | _ => x end.
Proof. by destruct x as [[]|[]| |[] m e]. Qed.

Lemma SF64add_zero_r (x : spec_float) (s : bool) :
  (forall s', x <> S754_zero s') -> SF64add x (S754_zero s) = x.
Proof. intros Hx. destruct x as [s'|[]| |[] m e]; try done. by destruct (Hx s'). Qed.

(** Two values added onto zero give the same sum in either order. *)
Lemma float_sum2_comm (a b : float) : (0 + a + b)%float = (0 + b + a)%float.
Proof.
  apply Prim2SF_inj. rewrite !FloatAxioms.add_spec.
  replace (Prim2SF 0) with (S754_zero false) by (by vm_compute).
  rewrite !SF64add_zero_l.
  destruct (Prim2SF a) as [sa|sa| |sa ma ea] eqn:Ea, (Prim2SF b) as [sb|sb| |sb mb eb] eqn:Eb;
    try apply SF64add_comm; try (by destruct sa); try (by destruct sb); try (by destruct sa, sb).
Qed.

End Binary64.

(** ** Binary64 facts: the match count is exact up to [2^53] *)

Section ExactCount.
Local Open Scope Z_scope.

(** The number of binary digits is determined by the two bounds. *)
Lemma digits2_pos_unique (p : positive) (d : Z) :
  2 ^ (d - 1) <= Zpos p < 2 ^ d -> Zpos (digits2_pos p) = d.
Proof.
  intros [Hl Hu]. destruct (digits2_pos_bounds p) as [Hl' Hu'].
  assert (0 < d).
  { destruct (Z.lt_ge_cases 0 d) as [|Hd]; [done|].
    rewrite (Z.pow_neg_r 2 (d - 1)) in Hl by lia.
    assert (2 ^ d <= 2 ^ 0) by (apply Z.pow_le_mono_r; lia). simpl in *. lia. }
  assert (d - 1 < Zpos (digits2_pos p)).
  { apply (Z.pow_lt_mono_r_iff 2); lia. }
  assert (Zpos (digits2_pos p) - 1 < d).
  { apply (Z.pow_lt_mono_r_iff 2); lia. }
  lia.
Qed.

Lemma shr_1_exact (m : Z) :
  0 <= m -> shr_1 (Build_shr_record (2 * m) false false) = Build_shr_record m false false.
Proof. intros Hm. by destruct m. Qed.

Lemma pow2_xO (n : positive) : 2 ^ Zpos n~0 = 2 ^ Zpos n * 2 ^ Zpos n.
Proof. replace (Zpos n~0) with (Zpos n + Zpos n) by lia. by rewrite Z.pow_add_r by lia. Qed.

Lemma pow2_xI (n : positive) : 2 ^ Zpos n~1 = 2 * (2 ^ Zpos n * 2 ^ Zpos n).
Proof.
  replace (Zpos n~1) with (Z.succ (Zpos n + Zpos n)) by lia.
  by rewrite Z.pow_succ_r, Z.pow_add_r by lia.
Qed.

Lemma iter_shr_1_exact (n : positive) :
  forall m, 0 <= m ->
    SpecFloat.iter_pos shr_1 n (Build_shr_record (m * 2 ^ Zpos n) false false)
    = Build_shr_record m false false.
Proof.
  induction n as [n IH|n IH|]; intros m Hm; cbn [SpecFloat.iter_pos].
  - assert (0 <= 2 ^ Zpos n) by (apply Z.pow_nonneg; lia).
    replace (m * 2 ^ Zpos n~1) with (2 * ((m * 2 ^ Zpos n) * 2 ^ Zpos n))
      by (rewrite pow2_xI; lia).
    rewrite shr_1_exact by nia.
    rewrite IH by nia. by apply IH.
  - assert (0 <= 2 ^ Zpos n) by (apply Z.pow_nonneg; lia).
    replace (m * 2 ^ Zpos n~0) with ((m * 2 ^ Zpos n) * 2 ^ Zpos n)
      by (rewrite pow2_xO; lia).
    rewrite IH by nia. by apply IH.
  - rewrite Z.pow_1_r, Z.mul_comm. by apply shr_1_exact.
Qed.

Lemma pos_iter_xO (p d : positive) : Zpos (Pos.iter xO p d) = Zpos p * 2 ^ Zpos d.
Proof.
  induction d as [|d IH] using Pos.peano_ind.
  - simpl. lia.
  - rewrite Pos.iter_succ, Pos2Z.inj_xO, IH, Pos2Z.inj_succ, Z.pow_succ_r by lia. lia.
Qed.

(** A mantissa of 53 bits times a power of two rounds to itself. *)
Lemma binary_round_aux_exact (M : positive) (j e : Z) :
  2 ^ 52 <= Zpos M < 2 ^ 53 -> 0 <= j -> emin <= e + j <= emax - prec ->
  binary_round_aux prec emax false (Zpos M * 2 ^ j) e loc_Exact
  = S754_finite false M (e + j).
Proof.
  intros HM Hj He. unfold binary_round_aux.
  assert (HP : 0 < 2 ^ j) by (apply Z.pow_pos_nonneg; lia).
  destruct (Zpos M * 2 ^ j) as [|p|p] eqn:Ep; try lia.
  assert (Hd : Zpos (digits2_pos p) = 53 + j).
  { apply digits2_pos_unique. rewrite <- Ep.
    replace (53 + j - 1) with (52 + j) by lia. rewrite !Z.pow_add_r by lia. nia. }
  assert (HdM : Zpos (digits2_pos M) = 53).
  { apply digits2_pos_unique. simpl. lia. }
  unfold shr_fexp at 1. simpl Zdigits2. rewrite Hd.
  replace (fexp prec emax (53 + j + e) - e) with j
    by (unfold fexp, emin, prec, emax in *; lia).
  unfold shr, shr_record_of_loc.
  assert (Hfirst : (match j with
                    | Zpos n => (SpecFloat.iter_pos shr_1 n (Build_shr_record (Zpos p) false false), e + j)
                    | _ => (Build_shr_record (Zpos p) false false, e)
                    end) = (Build_shr_record (Zpos M) false false, e + j)).
  { destruct j as [|n|n]; try lia.
    - f_equal; [|lia]. f_equal. rewrite <- Ep. simpl. lia.
    - rewrite <- Ep. by rewrite iter_shr_1_exact. }
  rewrite Hfirst. simpl loc_of_shr_record. simpl round_nearest_even.
  unfold shr_fexp. simpl Zdigits2. rewrite HdM.
  replace (fexp prec emax (53 + (e + j)) - (e + j)) with 0
    by (unfold fexp, emin, prec, emax in *; lia).
  simpl. destruct (Z.leb_spec (e + j) (emax - prec)); [done|lia].
Qed.

Lemma binary_round_exact (p M : positive) (j e : Z) :
  Zpos p = Zpos M * 2 ^ j ->
  2 ^ 52 <= Zpos M < 2 ^ 53 -> 0 <= j -> emin <= e + j <= emax - prec ->
  binary_round prec emax false p e = S754_finite false M (e + j).
Proof.
  intros Hp HM Hj He. unfold binary_round.
  assert (HP : 0 < 2 ^ j) by (apply Z.pow_pos_nonneg; lia).
  assert (Hd : Zpos (digits2_pos p) = 53 + j).
  { apply digits2_pos_unique. rewrite Hp.
    replace (53 + j - 1) with (52 + j) by lia. rewrite !Z.pow_add_r by lia. nia. }
  rewrite Hd.
  replace (fexp prec emax (53 + j + e)) with (e + j)
    by (unfold fexp, emin, prec, emax in *; lia).
  unfold shl_align. replace (e + j - e) with j by lia.
  destruct j as [|n|n] eqn:Ej; try lia; rewrite Hp; by apply binary_round_aux_exact.
Qed.

Lemma float64_of_Z_small (n : positive) :
  Zpos n < 2 ^ 53 ->
  exists M, float64_of_Z (Zpos n) = S754_finite false M (Zpos (digits2_pos n) - 53)
            /\ Zpos M = Zpos n * 2 ^ (53 - Zpos (digits2_pos n)).
Proof.
  intros Hn. unfold float64_of_Z, binary_normalize, binary_round.
  destruct (digits2_pos_bounds n) as [Hl Hu].
  set (d := Zpos (digits2_pos n)) in *.
  assert (Hd : d <= 53).
  { destruct (Z.le_gt_cases d 53) as [|Hgt]; [done|].
    assert (2 ^ 53 <= 2 ^ (d - 1)) by (apply Z.pow_le_mono_r; lia). lia. }
  replace (fexp prec emax (d + 0)) with (d - 53)
    by (unfold fexp, emin, prec, emax, d in *; lia).
  unfold shl_align. replace (d - 53 - 0) with (d - 53) by lia.
  assert (Hbounds : 2 ^ 52 <= Zpos n * 2 ^ (53 - d) < 2 ^ 53).
  { replace (2 ^ 52) with (2 ^ (d - 1) * 2 ^ (53 - d))
      by (rewrite <- Z.pow_add_r by lia; f_equal; lia).
    replace (2 ^ 53) with (2 ^ d * 2 ^ (53 - d))
      by (rewrite <- Z.pow_add_r by lia; f_equal; lia).
    assert (0 < 2 ^ (53 - d)) by (apply Z.pow_pos_nonneg; lia). nia. }
  destruct (d - 53) as [|k|k] eqn:Ek; try lia.
  - exists n. replace (53 - d) with 0 in * by lia. rewrite Z.pow_0_r in *.
    split; [|lia]. replace (Zpos n) with (Zpos n * 2 ^ 0) by (rewrite Z.pow_0_r; lia).
    rewrite (binary_round_aux_exact n 0 0); [done|lia|lia|unfold emin, prec, emax; lia].
  - exists (Pos.iter xO n k).
    assert (Hk : Zpos k = 53 - d) by lia.
    split; [|by rewrite pos_iter_xO, Hk].
    replace (Zpos (Pos.iter xO n k)) with (Zpos (Pos.iter xO n k) * 2 ^ 0)
      by (rewrite Z.pow_0_r; lia).
    rewrite (binary_round_aux_exact (Pos.iter xO n k) 0 (Zneg k)).
    + done.
    + by rewrite pos_iter_xO, Hk.
    + lia.
    + unfold emin, prec, emax. lia.
Qed.

Lemma SF64add_float64_succ (n : Z) :
  0 <= n < 2 ^ 53 ->
  SF64add (float64_of_Z n) (S754_finite false 4503599627370496 (-52)) = float64_of_Z (n + 1).
Proof.
  intros [Hn0 Hn]. destruct n as [|n|n]; [by vm_compute| |lia].
  destruct (float64_of_Z_small n Hn) as (M & -> & HM).
  destruct (digits2_pos_bounds n) as [Hl Hu].
  set (d := Zpos (digits2_pos n)) in *.
  assert (Hd : 1 <= d <= 53).
  { split; [unfold d; lia|].
    destruct (Z.le_gt_cases d 53) as [|Hgt]; [done|].
    assert (2 ^ 53 <= 2 ^ (d - 1)) by (apply Z.pow_le_mono_r; lia). lia. }
  destruct (Z.eq_dec d 1) as [Hd1|Hd1].
  { (* n = 1 *)
    rewrite Hd1 in *. simpl in Hl, Hu. assert (n = 1%positive) by lia. subst n.
    assert (M = 4503599627370496%positive) by (simpl in HM; lia). subst M.
    by vm_compute. }
  unfold SF64add, SFadd, cond_Zopp.
  replace (Z.min (d - 53) (-52)) with (-52) by lia.
  unfold shl_align at 1 2. replace (-52 - (d - 53)) with (Zneg (Z.to_pos (d - 1))) by lia.
  replace (-52 - -52) with 0 by lia. cbn [fst].
  assert (Ha : Zpos (Pos.iter xO M (Z.to_pos (d - 1))) = Zpos n * 2 ^ 52).
  { rewrite pos_iter_xO, HM, Z2Pos.id by lia. rewrite <- Z.mul_assoc, <- Z.pow_add_r by lia.
    do 2 f_equal. lia. }
  set (a := Pos.iter xO M (Z.to_pos (d - 1))) in *.
  change (Zpos a + 4503599627370496) with (Zpos (a + 4503599627370496)).
  unfold binary_normalize.
  assert (Hsum : Zpos (a + 4503599627370496) = (Zpos n + 1) * 2 ^ 52).
  { rewrite Pos2Z.inj_add, Ha. change (2 ^ 52) with 4503599627370496. lia. }
  destruct (Z.eq_dec (Zpos n + 1) (2 ^ 53)) as [Htop|Htop].
  - rewrite Htop. rewrite Htop in Hsum.
    rewrite (binary_round_exact _ 4503599627370496 53 (-52)); [by vm_compute| | | |].
    + rewrite Hsum. by vm_compute.
    + by vm_compute.
    + lia.
    + unfold emin, prec, emax. lia.
  - assert (Hn1 : Zpos (n + 1) < 2 ^ 53) by lia.
    replace (Zpos n + 1) with (Zpos (n + 1)) in * by lia.
    destruct (float64_of_Z_small (n + 1) Hn1) as (M' & -> & HM').
    destruct (digits2_pos_bounds (n + 1)) as [Hl' Hu'].
    set (d' := Zpos (digits2_pos (n + 1))) in *.
    assert (Hd' : 1 <= d' <= 53).
    { split; [unfold d'; lia|].
      destruct (Z.le_gt_cases d' 53) as [|Hgt]; [done|].
      assert (2 ^ 53 <= 2 ^ (d' - 1)) by (apply Z.pow_le_mono_r; lia). lia. }
    assert (HM'b : 2 ^ 52 <= Zpos M' < 2 ^ 53).
    { rewrite HM'.
      replace (2 ^ 52) with (2 ^ (d' - 1) * 2 ^ (53 - d'))
        by (rewrite <- Z.pow_add_r by lia; f_equal; lia).
      replace (2 ^ 53) with (2 ^ d' * 2 ^ (53 - d'))
        by (rewrite <- Z.pow_add_r by lia; f_equal; lia).
      assert (0 < 2 ^ (53 - d')) by (apply Z.pow_pos_nonneg; lia). nia. }
    rewrite (binary_round_exact _ M' (d' - 1) (-52)).
    + f_equal. lia.
    + rewrite Hsum, HM', <- Z.mul_assoc, <- Z.pow_add_r by lia. do 2 f_equal. lia.
    + done.
    + lia.
    + unfold emin, prec, emax. lia.
Qed.

Lemma float64_count_spec (K : nat) :
  Z.of_nat K <= 2 ^ 53 -> Prim2SF (float64_count K) = float64_of_Z (Z.of_nat K).
Proof.
  induction K as [|K IH]; intros HK; [by vm_compute|].
  unfold float64_count in *. simpl Nat.iter.
  rewrite FloatAxioms.add_spec, IH by lia.
  replace (Prim2SF 1) with (S754_finite false 4503599627370496 (-52)) by (by vm_compute).
  rewrite SF64add_float64_succ by lia. f_equal. lia.
Qed.

Lemma float64_of_nat_spec (K : nat) :
  Z.of_nat K <= 2 ^ 53 -> Prim2SF (float64_of_nat K) = float64_of_Z (Z.of_nat K).
Proof.
  intros HK. unfold float64_of_nat, float64_of_Z. rewrite of_uint63_spec.
  rewrite Uint63.of_Z_spec. rewrite Z.mod_small; [done|].
  split; [lia|]. eapply Z.le_lt_trans; [exact HK|]. by vm_compute.
Qed.

(** The count of up to [2^53] matches is the number of matches. *)
Lemma float64_count_exact (K : nat) :
  Z.of_nat K <= 2 ^ 53 -> float64_count K = float64_of_nat K.
Proof.
  intros HK. apply Prim2SF_inj.
  by rewrite float64_count_spec, float64_of_nat_spec.
Qed.

End ExactCount.

(** ** The average-latency join *)

(** C1. [mixTime], for every record (zero-initialised, as the handler
    leaves it): when K > 0 samples match the record's key
    [name.namespace] with parsed values v1..vK, [InvocationAvgTime] ends
    as the float64 sum of v1..vK, accumulated in sample order, divided by
    the count [num], which is the float64 of K (exactly, for every K up
    to [2^53]); when no sample matches, the field stays 0 and nothing is
    divided. *)
Theorem mixTime_mean {lib : GoLibrary} {T : Type} (functions : list FunctionStatus)
        (m : VectorQueryResponse) (i : nat) (r : FunctionStatus) (σ : World T) :
  functions !! i = Some r ->
  InvocationAvgTime r = 0%float ->
  exists σ' functions' r',
    mixTime functions (Some m) σ = (σ', Ok functions')
    /\ functions' !! i = Some r'
    /\ InvocationAvgTime r' =
       match matchedValues (matchesFunctionName r) (Result (Data m)) with
       | [] => 0%float
       | vs => (sumFrom 0 vs / float64_count (length vs))%float
       end
    /\ forall K, (Z.of_nat K <= 2 ^ 53)%Z -> float64_count K = float64_of_nat K.
Proof.
  intros Hi Hzero. destruct (mixTime_runs functions m σ) as [L E].
  exists (addLogs L σ), (map (mixTime_record (Result (Data m))) functions),
         (mixTime_record (Result (Data m)) r).
  split; [exact E|]. split; [by rewrite list_lookup_fmap, Hi|].
  split; [|exact float64_count_exact].
  unfold mixTime_record. rewrite Hzero.
  destruct (matchedValues (matchesFunctionName r) (Result (Data m))) as [|v vs] eqn:Evs.
  - reflexivity.
  - rewrite float64_count_nonzero by (simpl; lia). reflexivity.
Qed.

Lemma mixTime_mean_witness :
  let functions := [zeroed (Example.function "fn1" "ns1")] in
  let m := {| Status := "success";
              Data := {| Result := [Example.sample "fn1.ns1" "" "" "0.2";
                                    Example.sample "other.ns1" "" "" "7";
                                    Example.sample "fn1.ns1" "" "" "0.8"] |} |} in
  exists σ' functions' r',
    mixTime (lib := Example.library) functions (Some m) (Example.world tt)
    = (σ', Ok functions')
    /\ functions' !! 0%nat = Some r'
    /\ InvocationAvgTime r' = 0.5%float.
Proof.
  intros functions m.
  destruct (mixTime_mean (lib := Example.library) functions m 0
              (zeroed (Example.function "fn1" "ns1")) (Example.world tt)
              eq_refl eq_refl) as (σ' & functions' & r' & Hrun & Hi & Havg & _).
  exists σ', functions', r'. split; [exact Hrun|]. split; [exact Hi|].
  rewrite Havg. vm_compute. reflexivity.
Defined.

(** For instance, two matches are counted as [2.0]; and the guard matters:
    dividing the zero field by a zero count would leave NaN. *)
Example float64_count_2 : float64_count 2 = 2%float.
Proof. reflexivity. Qed.

Example unguarded_division : (0 / float64_count 0)%float = nan.
Proof. reflexivity. Qed.

(** ** Frame of the joins *)

Section Frame.
Context {lib : GoLibrary}.

Lemma Forall2_map_diag {A} (P : A -> A -> Prop) (g : A -> A) (l : list A) :
  (forall a, P a (g a)) -> Forall2 P l (map g l).
Proof. intros Hg. induction l; simpl; constructor; auto. Qed.

Lemma mixIn_record_frame samples r : onlyInvocationCount r (mixIn_record samples r).
Proof. reflexivity. Qed.

Lemma mixTime_record_frame samples r : onlyInvocationAvgTime r (mixTime_record samples r).
Proof.
  unfold onlyInvocationAvgTime, mixTime_record.
  by destruct (negb _).
Qed.

Lemma mixCPU_record_frame samples r : onlyUsageCPU r (mixCPU_record samples r).
Proof.
  unfold onlyUsageCPU, mixCPU_record. destruct (Usage r) as [u|] eqn:E; simpl; [done|].
  by rewrite E.
Qed.

Lemma mixMemory_record_frame samples r : onlyUsageMemory r (mixMemory_record samples r).
Proof.
  unfold onlyUsageMemory, mixMemory_record. destruct (Usage r) as [u|] eqn:E; simpl; [done|].
  by rewrite E.
Qed.

End Frame.

(** C9. Every join, for every record list and every query result: the
    list it returns matches the list it was given element by element
    (same length, same order), and each record differs from the one it
    came from in nothing but the join's own metric field.
    [mixIn] and [mixTime] always return; [mixCPU] and [mixMemory] return
    whenever every record has its usage allocated, and otherwise return
    or panic on the nil usage of a matching record. *)
Theorem joins_frame {lib : GoLibrary} {T : Type} (functions : list FunctionStatus)
        (m : VectorQueryResponse) (σ : World T) :
  (exists σ' functions',
      mixIn functions (Some m) σ = (σ', Ok functions')
      /\ Forall2 onlyInvocationCount functions functions')
  /\ (exists σ' functions',
        mixTime functions (Some m) σ = (σ', Ok functions')
        /\ Forall2 onlyInvocationAvgTime functions functions')
  /\ (forall σ' functions',
        mixCPU functions (Some m) σ = (σ', Ok functions') ->
        Forall2 onlyUsageCPU functions functions')
  /\ (forall σ' functions',
        mixMemory functions (Some m) σ = (σ', Ok functions') ->
        Forall2 onlyUsageMemory functions functions')
  /\ (Forall (fun r => is_Some (Usage r)) functions ->
      (exists σ' functions', mixCPU functions (Some m) σ = (σ', Ok functions'))
      /\ (exists σ' functions', mixMemory functions (Some m) σ = (σ', Ok functions'))).
Proof.
  split; [|split; [|split; [|split; [|intros Hall; split]]]].
  - destruct (mixIn_runs functions m σ) as [L E]. eexists _, _. split; [exact E|].
    apply Forall2_map_diag, mixIn_record_frame.
  - destruct (mixTime_runs functions m σ) as [L E]. eexists _, _. split; [exact E|].
    apply Forall2_map_diag, mixTime_record_frame.
  - intros σ' functions' E.
    destruct (mixCPU_okOrPanic functions m σ) as [L [E'|[p E']]]; rewrite E' in E; [|done].
    injection E as _ <-. apply Forall2_map_diag, mixCPU_record_frame.
  - intros σ' functions' E.
    destruct (mixMemory_okOrPanic functions m σ) as [L [E'|[p E']]]; rewrite E' in E; [|done].
    injection E as _ <-. apply Forall2_map_diag, mixMemory_record_frame.
  - destruct (mixCPU_runs functions m Hall σ) as [L E]. eauto.
  - destruct (mixMemory_runs functions m Hall σ) as [L E]. eauto.
Qed.

Lemma joins_frame_witness :
  let r := zeroed (Example.function "fn1" "ns1") in
  let m := {| Status := "success";
              Data := {| Result := [Example.sample "fn1.ns1" "fn1" "ns1" "1.5";
                                    Example.sample "fn1.ns1" "fn1" "ns1" "0.5"] |} |} in
  Forall (fun r => is_Some (Usage r)) [r]
  /\ exists σ' functions',
      mixCPU (lib := Example.library) [r] (Some m) (Example.world tt) = (σ', Ok functions')
      /\ Forall2 onlyUsageCPU [r] functions'.
Proof.
  intros r m.
  assert (Hall : Forall (fun r => is_Some (Usage r)) [r])
    by (repeat constructor; by eexists).
  split; [exact Hall|].
  destruct (joins_frame (lib := Example.library) [r] m (Example.world tt))
    as (_ & _ & Hcpu & _ & Hruns).
  destruct (Hruns Hall) as [(σ' & functions' & E) _].
  exists σ', functions'. split; [exact E|]. by apply (Hcpu σ').
Defined.

(** ** The summing joins *)

Lemma sumFrom_zero_permutation (vs vs' : list float) :
  vs ≡ₚ vs' -> (length vs <= 2)%nat -> sumFrom 0 vs = sumFrom 0 vs'.
Proof.
  intros Hp Hlen. destruct vs as [|a [|b [|c vs]]]; simpl in Hlen; try lia.
  - apply Permutation_nil_l in Hp. by subst.
  - apply Permutation_length_1_inv in Hp. by subst.
  - apply Permutation_length_2_inv in Hp as [->| ->]; [done|].
    apply float_sum2_comm.
Qed.

(** C2, as the code has it. For [mixIn], [mixCPU] and [mixMemory], for
    every record and every query result: the join's field ends as the
    float64 sum of the parsed values of the matching samples, added in
    sample order onto the value the field had before (zero after the
    handler's initialisation); matches are summed, never averaged or
    overwritten. For a permutation of the samples the matching values are
    permuted, and the sum from zero is the same when at most two samples
    match. *)
Theorem joins_sum {lib : GoLibrary} {T : Type} (functions : list FunctionStatus)
        (m : VectorQueryResponse) (i : nat) (r : FunctionStatus)
        (u : FunctionUsage.t) (σ : World T) :
  functions !! i = Some r ->
  Usage r = Some u ->
  Forall (fun r => is_Some (Usage r)) functions ->
  (exists σ' functions' r',
      mixIn functions (Some m) σ = (σ', Ok functions')
      /\ functions' !! i = Some r'
      /\ InvocationCount r' =
         sumFrom (InvocationCount r)
                 (matchedValues (matchesFunctionName r) (Result (Data m))))
  /\ (exists σ' functions' r' u',
        mixCPU functions (Some m) σ = (σ', Ok functions')
        /\ functions' !! i = Some r' /\ Usage r' = Some u'
        /\ FunctionUsage.CPU u' =
           sumFrom (FunctionUsage.CPU u)
                   (matchedValues (matchesContainer r) (Result (Data m))))
  /\ (exists σ' functions' r' u',
        mixMemory functions (Some m) σ = (σ', Ok functions')
        /\ functions' !! i = Some r' /\ Usage r' = Some u'
        /\ FunctionUsage.TotalMemoryBytes u' =
           sumFrom (FunctionUsage.TotalMemoryBytes u)
                   (matchedValues (matchesContainer r) (Result (Data m))))
  /\ (forall (matches : VectorSample -> bool) (samples' : list VectorSample),
        Result (Data m) ≡ₚ samples' ->
        matchedValues matches (Result (Data m)) ≡ₚ matchedValues matches samples'
        /\ ((length (matchedValues matches (Result (Data m))) <= 2)%nat ->
            sumFrom 0 (matchedValues matches (Result (Data m)))
            = sumFrom 0 (matchedValues matches samples'))).
Proof.
  intros Hi Hu Hall. split; [|split; [|split; [|intros matches samples' Hp; split; [|intros Hlen]]]].
  - destruct (mixIn_runs functions m σ) as [L E].
    eexists _, _, _. split; [exact E|]. split; [by rewrite list_lookup_fmap, Hi|done].
  - destruct (mixCPU_runs functions m Hall σ) as [L E].
    eexists _, _, _, _. split; [exact E|]. split; [by rewrite list_lookup_fmap, Hi|].
    unfold mixCPU_record. rewrite Hu. by split.
  - destruct (mixMemory_runs functions m Hall σ) as [L E].
    eexists _, _, _, _. split; [exact E|]. split; [by rewrite list_lookup_fmap, Hi|].
    unfold mixMemory_record. rewrite Hu. by split.
  - unfold matchedValues. by apply omap_Permutation.
  - apply sumFrom_zero_permutation; [|done].
    unfold matchedValues. by apply omap_Permutation.
Qed.

Lemma joins_sum_witness :
  let r := zeroed (Example.function "fn1" "ns1") in
  let m := {| Status := "success";
              Data := {| Result := [Example.sample "fn1.ns1" "fn1" "ns1" "1.5";
                                    Example.sample "fn2.ns1" "fn2" "ns1" "8";
                                    Example.sample "fn1.ns1" "fn1" "ns1" "0.5"] |} |} in
  exists σ' functions' r' u',
    mixCPU (lib := Example.library) [r] (Some m) (Example.world tt) = (σ', Ok functions')
    /\ functions' !! 0%nat = Some r' /\ Usage r' = Some u'
    /\ FunctionUsage.CPU u' = 2%float.
Proof.
  intros r m.
  destruct (joins_sum (lib := Example.library) [r] m 0 r (FunctionUsage.mk 0 0)
              (Example.world tt) eq_refl eq_refl
              ltac:(repeat constructor; by eexists))
    as (_ & (σ' & functions' & r' & u' & Hrun & Hi & Hu & Hcpu) & _).
  exists σ', functions', r', u'. split; [exact Hrun|]. split; [exact Hi|].
  split; [exact Hu|]. rewrite Hcpu. vm_compute. reflexivity.
Defined.

(** C2 as stated fails: the CPU join of one record with the values 0.1,
    0.2, 0.3 and with the same samples in reverse order gives two
    different sums (0.6000000000000001 and 0.6). *)
Lemma sum_depends_on_order :
  let r := zeroed (Example.function "fn1" "ns1") in
  let s := Example.sample "fn1.ns1" "fn1" "ns1" in
  let samples := [s "0.1"; s "0.2"; s "0.3"] in
  let reversed := [s "0.3"; s "0.2"; s "0.1"] in
  let cpu (run : World unit * res (list FunctionStatus)) : option float :=
      match snd run with
      | Ok [r'] => FunctionUsage.CPU <$> Usage r'
      | _ => None
      end in
  samples ≡ₚ reversed
  /\ cpu (mixCPU (lib := Example.library) [r] (Example.response samples) (Example.world tt))
     = Some 0x1.3333333333334p-1%float
  /\ cpu (mixCPU (lib := Example.library) [r] (Example.response reversed) (Example.world tt))
     = Some 0x1.3333333333333p-1%float
  /\ 0x1.3333333333334p-1%float <> 0x1.3333333333333p-1%float.
Proof.
  intros r s samples reversed cpu. split; [|split; [|split]].
  - unfold samples, reversed. by rewrite (reverse_Permutation [s "0.3"; s "0.2"; s "0.1"]).
  - vm_compute. reflexivity.
  - vm_compute. reflexivity.
  - intros E. discriminate E.
Qed.

(** ** The handler's error paths *)

(** C4, as the code has it. When the upstream handler answered with a
    status other than 200, the handler replies through [http.Error]: it
    writes exactly the upstream status code, and the upstream body
    followed by one newline, as plain text; no query is sent. *)
Theorem error_passthrough {lib : GoLibrary} {T : Type} {client : PrometheusQueryFetcher T}
        (recorder : Recorder) (upstreamBody : string) (w : ResponseWriter) (σ : World T) :
  Body recorder = Some upstreamBody ->
  Code recorder <> StatusOK ->
  status w = None ->
  exists σ' w',
    AddMetricsHandler recorder w σ = (σ', Ok w')
    /\ status w' = Some (Code recorder)
    /\ written w' = written w +:+ (upstreamBody +:+ newline)
    /\ header w' !! "Content-Type" = Some "text/plain; charset=utf-8"
    /\ fetched σ' = fetched σ.
Proof.
  intros Hbody Hcode Hfresh. unfold AddMetricsHandler. rewrite Hbody.
  destruct (Z.eqb_spec (Code recorder) StatusOK) as [E|_]; [done|]. simpl.
  eexists _, _. split; [reflexivity|]. simpl. rewrite Hfresh.
  repeat split. rewrite lookup_insert_ne by done. by rewrite lookup_insert_eq.
Qed.

Lemma error_passthrough_witness :
  exists σ' w',
    AddMetricsHandler (lib := Example.library) (client := Example.empty) {| Code := 503; Body := Some "boom" |}
                      newResponseWriter (Example.world tt) = (σ', Ok w')
    /\ status w' = Some 503%Z
    /\ written w' = "boom" +:+ newline.
Proof.
  destruct (error_passthrough (lib := Example.library) (client := Example.empty) {| Code := 503; Body := Some "boom" |}
              "boom" newResponseWriter (Example.world tt) eq_refl
              ltac:(discriminate) eq_refl)
    as (σ' & w' & Hrun & Hstatus & Hwritten & _).
  exists σ', w'. split; [exact Hrun|]. split; [exact Hstatus | exact Hwritten].
Defined.

(** C4 as stated fails: for the upstream reply 503 with body [boom] the
    client is sent five bytes, [boom] and a newline. *)
Lemma passthrough_appends_newline :
  let run := AddMetricsHandler (lib := Example.library) (client := Example.empty)
               {| Code := 503; Body := Some "boom" |}
               newResponseWriter (Example.world tt) in
  exists w', snd run = Ok w'
             /\ status w' = Some 503%Z
             /\ String.length (written w') = 5%nat
             /\ written w' <> "boom".
Proof.
  eexists. split; [vm_compute; reflexivity|]. repeat split. discriminate.
Qed.

(** C8, as the code has it. When the upstream status is 200 and the body
    does not parse, the handler replies with status 500 and the fixed
    message [Unable to parse list of functions from provider] followed by
    a newline; the reply is the same whatever the parse error and the
    body are, the two only go to the log, and no query is sent. *)
Theorem parse_failure_reply {lib : GoLibrary} {T : Type} {client : PrometheusQueryFetcher T}
        (recorder : Recorder) (upstreamBody : string) (w : ResponseWriter) (σ : World T)
        (function : list types.FunctionStatus) (e : string) :
  Body recorder = Some upstreamBody ->
  Code recorder = StatusOK ->
  Unmarshal upstreamBody = (function, Some e) ->
  status w = None ->
  exists σ' w',
    AddMetricsHandler recorder w σ = (σ', Ok w')
    /\ w' = http_Error parseFailureMessage StatusInternalServerError w
    /\ status w' = Some 500%Z
    /\ written w' = written w +:+ (parseFailureMessage +:+ newline)
    /\ logged σ' = logged σ ++ [{| log_format := "Metrics upstream error: %s, value: %s";
                                   log_args := [LStr e; LStr upstreamBody] |}]
    /\ fetched σ' = fetched σ.
Proof.
  intros Hbody Hcode Hparse Hfresh. unfold AddMetricsHandler.
  rewrite Hbody, Hcode, Hparse. simpl.
  eexists _, _. split; [reflexivity|]. simpl. by rewrite Hfresh.
Qed.

Lemma parse_failure_reply_witness :
  exists σ' w',
    AddMetricsHandler (lib := Example.library) (client := Example.empty) {| Code := 200; Body := Some "not json" |}
                      newResponseWriter (Example.world tt) = (σ', Ok w')
    /\ status w' = Some 500%Z
    /\ written w' = parseFailureMessage +:+ newline.
Proof.
  destruct (parse_failure_reply (lib := Example.library) (client := Example.empty)
              {| Code := 200; Body := Some "not json" |} "not json"
              newResponseWriter (Example.world tt) []
              "invalid character looking for beginning of value"
              eq_refl eq_refl eq_refl eq_refl)
    as (σ' & w' & Hrun & _ & Hstatus & Hwritten & _).
  exists σ', w'. split; [exact Hrun|]. split; [exact Hstatus | exact Hwritten].
Defined.

(** C8 as stated fails on the text of the message: the reply starts with
    a capital [U] and ends with a newline, so it is neither the quoted
    lower-case message nor that message and a newline. *)
Lemma parse_failure_message_differs :
  let run := AddMetricsHandler (lib := Example.library) (client := Example.empty)
               {| Code := 200; Body := Some "not json" |}
               newResponseWriter (Example.world tt) in
  exists w', snd run = Ok w'
             /\ status w' = Some 500%Z
             /\ written w' <> "unable to parse list of functions from provider"
             /\ written w' <> "unable to parse list of functions from provider" +:+ newline.
Proof.
  eexists. split; [vm_compute; reflexivity|]. repeat split; discriminate.
Qed.

(** ** Which queries a run sends *)

Lemma quiet_okOrPanic {T A} (m : M T A) (a : A) : okOrPanic m a -> quiet m.
Proof. intros Hm σ. destruct (Hm σ) as [L [E|[p E]]]; rewrite E; eauto. Qed.

Lemma quiet_logsOnly {T A} (m : M T A) (a : A) : logsOnly m a -> quiet m.
Proof. intros Hm. by eapply quiet_okOrPanic, logsOnly_okOrPanic. Qed.

Lemma quiet_throw {T A} (p : panic) : quiet (@throw T A p).
Proof. intros σ. exists [], (Panic p). by rewrite addLogs_nil. Qed.

Lemma quiet_bind {T A B} (m : M T A) (k : A -> M T B) :
  quiet m -> (forall a, quiet (k a)) -> quiet (bind m k).
Proof.
  intros Hm Hk σ. unfold bind. destruct (Hm σ) as (L1 & [a|p] & E1); rewrite E1.
  - destruct (Hk a (addLogs L1 σ)) as (L2 & r & E2). rewrite E2.
    exists (L1 ++ L2), r. by rewrite addLogs_app.
  - eauto.
Qed.

Lemma sendsPrefixOf_quiet {T A} (qs : list string) (m : M T A) :
  quiet m -> sendsPrefixOf qs m.
Proof.
  intros Hm σ. destruct (Hm σ) as (L & r & E). exists []. rewrite E. simpl.
  split; [by rewrite app_nil_r | apply prefix_nil].
Qed.

Lemma sendsPrefixOf_bind_quiet {T A B} (qs : list string) (m : M T A) (k : A -> M T B) :
  quiet m -> (forall a, sendsPrefixOf qs (k a)) -> sendsPrefixOf qs (bind m k).
Proof.
  intros Hm Hk σ. unfold bind. destruct (Hm σ) as (L & [a|p] & E); rewrite E.
  - destruct (Hk a (addLogs L σ)) as (sent & Hsent & Hpre). by exists sent.
  - exists []. simpl. split; [by rewrite app_nil_r | apply prefix_nil].
Qed.

Lemma sendsPrefixOf_fetch {T A} {client : PrometheusQueryFetcher T}
      (q : string) (qs : list string)
      (k : option VectorQueryResponse * error -> M T A) :
  (forall reply, sendsPrefixOf qs (k reply)) ->
  forall σ, exists sent,
      fetched (fst (bind (fetch q) k σ)) = fetched σ ++ q :: sent /\ sent `prefix_of` qs.
Proof.
  intros Hk σ. unfold bind, fetch.
  destruct (Fetch (prometheus σ) q) as [p' reply].
  destruct (Hk reply {| prometheus := p'; fetched := fetched σ ++ [q]; logged := logged σ |})
    as (sent & Hsent & Hpre).
  exists sent. split; [|done]. rewrite Hsent. simpl. by rewrite <- app_assoc.
Qed.

Section JoinsAreQuiet.
Context {lib : GoLibrary} {T : Type}.

Lemma quiet_mixIn functions results : quiet (T:=T) (mixIn functions results).
Proof.
  destruct results as [m|]; [eapply quiet_logsOnly, mixIn_runs|].
  destruct functions as [|r functions]; [eapply quiet_logsOnly, logsOnly_ret|].
  intros σ. exists [], (Panic NilDereference). by rewrite addLogs_nil.
Qed.

Lemma quiet_mixCPU functions results : quiet (T:=T) (mixCPU functions results).
Proof.
  destruct results as [m|]; [eapply quiet_okOrPanic, mixCPU_okOrPanic|].
  intros σ. exists [], (Panic NilDereference). by rewrite addLogs_nil.
Qed.

Lemma quiet_mixMemory functions results : quiet (T:=T) (mixMemory functions results).
Proof.
  destruct results as [m|]; [eapply quiet_okOrPanic, mixMemory_okOrPanic|].
  intros σ. exists [], (Panic NilDereference). by rewrite addLogs_nil.
Qed.

Lemma quiet_mixTime functions results : quiet (T:=T) (mixTime functions results).
Proof.
  destruct results as [m|]; [eapply quiet_logsOnly, mixTime_runs|].
  intros σ. exists [], (Panic NilDereference). by rewrite addLogs_nil.
Qed.

(** Reporting a failed query: the first query's own error is printed;
    the later ones print [err.Error()] of the first query, which panics
    when that query succeeded. *)
Lemma quiet_report (err : error) :
  quiet (T:=T) (match err with
                | Some e => logPrintf queryFailure [LStr e]
                | None => ret tt
                end).
Proof.
  destruct err; [eapply quiet_logsOnly, logsOnly_logPrintf
                |eapply quiet_logsOnly, logsOnly_ret].
Qed.

Lemma quiet_reportFirst (err' err : error) :
  quiet (T:=T) (match err' with
                | Some _ => e <- errorString err ;; logPrintf queryFailure [LStr e]
                | None => ret tt
                end).
Proof.
  destruct err'; [|eapply quiet_logsOnly, logsOnly_ret].
  apply quiet_bind; [|intros; eapply quiet_logsOnly, logsOnly_logPrintf].
  destruct err; [eapply quiet_logsOnly, logsOnly_ret | apply quiet_throw].
Qed.

End JoinsAreQuiet.

(** ** The enrichment as a function of the four replies *)

Lemma zeroInit_map (function : list types.FunctionStatus) :
  zeroInit function = map zeroed function.
Proof.
  unfold zeroInit.
  enough (Hgen : forall acc, foldl (fun functions f => functions ++ [zeroed f]) acc function
                             = acc ++ map zeroed function) by apply (Hgen []).
  induction function as [|f function IH]; intros acc; simpl.
  - by rewrite app_nil_r.
  - rewrite IH. by rewrite <- app_assoc.
Qed.

Section Enrichment.
Context {lib : GoLibrary} {T : Type} {client : PrometheusQueryFetcher T}.

Lemma usage_mixIn_record samples (l : list FunctionStatus) :
  Forall (fun r => is_Some (Usage r)) l ->
  Forall (fun r => is_Some (Usage r)) (map (mixIn_record samples) l).
Proof. intros Hl. apply Forall_fmap. eapply Forall_impl; [exact Hl|]. by intros r. Qed.

Lemma usage_mixCPU_record samples (l : list FunctionStatus) :
  Forall (fun r => is_Some (Usage r)) l ->
  Forall (fun r => is_Some (Usage r)) (map (mixCPU_record samples) l).
Proof.
  intros Hl. apply Forall_fmap. eapply Forall_impl; [exact Hl|].
  intros r [u Hu]. simpl. unfold mixCPU_record. rewrite Hu. by eexists.
Qed.

Lemma usage_mixMemory_record samples (l : list FunctionStatus) :
  Forall (fun r => is_Some (Usage r)) l ->
  Forall (fun r => is_Some (Usage r)) (map (mixMemory_record samples) l).
Proof.
  intros Hl. apply Forall_fmap. eapply Forall_impl; [exact Hl|].
  intros r [u Hu]. simpl. unfold mixMemory_record. rewrite Hu. by eexists.
Qed.

Ltac run_join :=
  match goal with
  | |- context [mixIn ?fs (Some ?m) ?σ] =>
    let L := fresh "L" in let E := fresh "E" in
    destruct (mixIn_runs fs m σ) as [L E]; rewrite E; clear E
  | |- context [mixCPU ?fs (Some ?m) ?σ] =>
    let L := fresh "L" in let E := fresh "E" in
    destruct (mixCPU_runs fs m ltac:(auto using usage_mixIn_record) σ) as [L E];
    rewrite E; clear E
  | |- context [mixMemory ?fs (Some ?m) ?σ] =>
    let L := fresh "L" in let E := fresh "E" in
    destruct (mixMemory_runs fs m
                ltac:(auto using usage_mixIn_record, usage_mixCPU_record) σ) as [L E];
    rewrite E; clear E
  | |- context [mixTime ?fs (Some ?m) ?σ] =>
    let L := fresh "L" in let E := fresh "E" in
    destruct (mixTime_runs fs m σ) as [L E]; rewrite E; clear E
  end; unfold addLogs; simpl.

Lemma queryAndMix_runs (functions : list FunctionStatus) (first : FunctionStatus)
      (σ : World T) p1 m1 p2 m2 p3 m3 p4 m4 :
  functions !! 0%nat = Some first ->
  Forall (fun r => is_Some (Usage r)) functions ->
  Fetch (prometheus σ) (QueryEscape (invocationQuery (Namespace first)))
  = (p1, (Some m1, None)) ->
  Fetch p1 (QueryEscape cpuQuery) = (p2, (Some m2, None)) ->
  Fetch p2 (QueryEscape memoryQuery) = (p3, (Some m3, None)) ->
  Fetch p3 (QueryEscape latencyQuery) = (p4, (Some m4, None)) ->
  exists L,
    queryAndMix functions σ
    = ({| prometheus := p4;
          fetched := fetched σ ++ queriesFor (Namespace first);
          logged := logged σ ++ L |},
       Ok (enriched m1 m2 m3 m4 functions)).
Proof.
  intros Hfirst Hall F1 F2 F3 F4. unfold queryAndMix. rewrite Hfirst.
  unfold bind at 1, fetch at 1. rewrite F1. unfold bind at 1. simpl.
  unfold bind at 1. run_join.
  unfold bind at 1, fetch at 1. simpl. rewrite F2. unfold bind at 1. simpl.
  unfold bind at 1. run_join.
  unfold bind at 1, fetch at 1. simpl. rewrite F3. unfold bind at 1. simpl.
  unfold bind at 1. run_join.
  unfold bind at 1, fetch at 1. simpl. rewrite F4. unfold bind at 1. simpl.
  run_join.
  eexists. unfold queriesFor, enriched. rewrite <- !app_assoc. simpl. reflexivity.
Qed.

End Enrichment.

Section EmptyResults.
Context {lib : GoLibrary}.

Lemma mixIn_record_empty r : mixIn_record [] r = r.
Proof. apply set_InvocationCount_id. Qed.

Lemma mixCPU_record_empty r : mixCPU_record [] r = r.
Proof.
  unfold mixCPU_record. destruct (Usage r) as [[c b]|] eqn:E; [|done].
  simpl. rewrite <- E. apply set_Usage_id.
Qed.

Lemma mixMemory_record_empty r : mixMemory_record [] r = r.
Proof.
  unfold mixMemory_record. destruct (Usage r) as [[c b]|] eqn:E; [|done].
  simpl. rewrite <- E. apply set_Usage_id.
Qed.

Lemma mixTime_record_empty r : mixTime_record [] r = r.
Proof. apply set_InvocationAvgTime_id. Qed.

Lemma map_id_ext {A} (g : A -> A) (l : list A) : (forall a, g a = a) -> map g l = l.
Proof. intros Hg. induction l; simpl; [done|]. by rewrite Hg, IHl. Qed.

Lemma enriched_empty s1 s2 s3 s4 (functions : list FunctionStatus) :
  enriched {| Status := s1; Data := {| Result := [] |} |}
           {| Status := s2; Data := {| Result := [] |} |}
           {| Status := s3; Data := {| Result := [] |} |}
           {| Status := s4; Data := {| Result := [] |} |} functions
  = functions.
Proof.
  unfold enriched. simpl.
  rewrite (map_id_ext _ functions mixIn_record_empty).
  rewrite (map_id_ext _ functions mixCPU_record_empty).
  rewrite (map_id_ext _ functions mixMemory_record_empty).
  apply (map_id_ext _ functions mixTime_record_empty).
Qed.

Lemma zeroed_zeroInitialised (f : types.FunctionStatus) : zeroInitialised f (zeroed f).
Proof.
  unfold zeroInitialised, zeroed, resourcesOrEmpty. simpl.
  destruct (types.Limits f) as [[]|], (types.Requests f) as [[]|], (types.Labels f);
    by repeat split.
Qed.

Lemma usage_zeroed (function : list types.FunctionStatus) :
  Forall (fun r => is_Some (Usage r)) (map zeroed function).
Proof. apply Forall_fmap, Forall_true. intros f. by eexists. Qed.

End EmptyResults.

(** C5, as the code has it. With a query client that always returns an
    empty result, the enriched list is the zero-initialised list: one
    record per parsed record, in the same order, every metric field zero,
    every other field as parsed, except that limits and requests are
    always allocated (empty strings where the parsed record had none). *)
Theorem enrich_empty {lib : GoLibrary} {T : Type} {client : PrometheusQueryFetcher T}
        (function : list types.FunctionStatus) (σ : World T) :
  alwaysEmpty T ->
  exists σ' functions,
    enrich function σ = (σ', Ok functions)
    /\ functions = zeroInit function
    /\ Forall2 zeroInitialised function functions.
Proof.
  intros Hempty. unfold enrich. rewrite zeroInit_map.
  assert (Hinit : Forall2 zeroInitialised function (map zeroed function)).
  { apply Forall2_fmap_r, Forall_Forall2_diag, Forall_true, zeroed_zeroInitialised. }
  destruct function as [|f function]; simpl.
  { eexists _, _. by split. }
  destruct (Hempty (prometheus σ) (QueryEscape (invocationQuery (Namespace (zeroed f)))))
    as (p1 & s1 & F1).
  destruct (Hempty p1 (QueryEscape cpuQuery)) as (p2 & s2 & F2).
  destruct (Hempty p2 (QueryEscape memoryQuery)) as (p3 & s3 & F3).
  destruct (Hempty p3 (QueryEscape latencyQuery)) as (p4 & s4 & F4).
  destruct (queryAndMix_runs (map zeroed (f :: function)) (zeroed f) σ
              _ _ _ _ _ _ _ _ eq_refl (usage_zeroed (f :: function)) F1 F2 F3 F4)
    as [L E].
  simpl in E. rewrite E. eexists _, _. split; [reflexivity|].
  by rewrite enriched_empty.
Qed.

Lemma enrich_empty_witness :
  exists σ' functions,
    enrich (lib := Example.library) (client := Example.empty)
           [Example.function "fn1" "ns1"; Example.function "fn2" "ns1"]
           (Example.world tt) = (σ', Ok functions)
    /\ Forall2 zeroInitialised
               [Example.function "fn1" "ns1"; Example.function "fn2" "ns1"] functions.
Proof.
  destruct (enrich_empty (lib := Example.library) (client := Example.empty)
              [Example.function "fn1" "ns1"; Example.function "fn2" "ns1"]
              (Example.world tt)
              ltac:(intros p q; by exists tt, "success"))
    as (σ' & functions & Hrun & _ & Hinit).
  by exists σ', functions.
Defined.

(** C5 as stated fails on the limits: the parsed record [fn1] has none
    (a nil pointer), and the enriched record has allocated, empty ones. *)
Lemma enrich_allocates_limits :
  let f := Example.function "fn1" "ns1" in
  exists r,
    snd (enrich (lib := Example.library) (client := Example.empty) [f] (Example.world tt))
    = Ok [r]
    /\ types.Limits f = None
    /\ Limits r = Some (FunctionResources.mk "" "")
    /\ Limits r <> types.Limits f.
Proof.
  eexists. split; [vm_compute; reflexivity|]. by repeat split.
Qed.

(** The scenario of the specification: one record [fn1.ns1]; the
    invocation query returns 42, the CPU query 1.5 and 0.5, the memory
    query 1024, the latency query 0.2 and 0.8. *)
Example enrich_scenario :
  let script :=
      [(Example.response [Example.sample "fn1.ns1" "" "" "42"], None);
       (Example.response [Example.sample "" "fn1" "ns1" "1.5";
                          Example.sample "" "fn1" "ns1" "0.5"], None);
       (Example.response [Example.sample "" "fn1" "ns1" "1024"], None);
       (Example.response [Example.sample "fn1.ns1" "" "" "0.2";
                          Example.sample "fn1.ns1" "" "" "0.8"], None)] in
  exists r,
    snd (enrich (lib := Example.library) (client := Example.scripted)
                [Example.function "fn1" "ns1"] (Example.world script)) = Ok [r]
    /\ InvocationCount r = 42%float
    /\ Usage r = Some (FunctionUsage.mk 2 1024)
    /\ InvocationAvgTime r = 0.5%float.
Proof.
  eexists. split; [vm_compute; reflexivity|]. by repeat split.
Qed.

(** ** Scope of the queries *)

Lemma sendsPrefixOf_cons {T A} {client : PrometheusQueryFetcher T}
      (q : string) (qs : list string)
      (k : option VectorQueryResponse * error -> M T A) :
  (forall reply, sendsPrefixOf qs (k reply)) ->
  sendsPrefixOf (q :: qs) (bind (fetch q) k).
Proof.
  intros Hk σ. destruct (sendsPrefixOf_fetch q qs k Hk σ) as (sent & Hsent & Hpre).
  exists (q :: sent). split; [done|]. by apply prefix_cons.
Qed.

(** C7. For a non-empty parsed list, the first query the handler sends is
    the invocation-count query scoped by the namespace [ns] of the first
    record: the escaped text
    [sum(gateway_function_invocation_total{function_name=~".*.ns"}) by (function_name)],
    with [ns] inside the [function_name] matcher. Whatever is sent after
    it is, in order, the CPU, memory and latency queries, whose texts are
    the three fixed strings below: they filter on the constant namespace
    [openfaas-fn] or on none, and on nothing taken from a record. When
    the client answers every query, exactly these four are sent. *)
Theorem queries_scope {lib : GoLibrary} {T : Type} {client : PrometheusQueryFetcher T}
        (first : types.FunctionStatus) (rest : list types.FunctionStatus) (σ : World T) :
  let quote := String (Ascii false true false false false true false false) EmptyString in
  let ns := types.Namespace first in
  let invocation :=
      "sum(gateway_function_invocation_total{function_name=~" +:+ quote +:+ ".*."
      +:+ ns +:+ quote +:+ "}) by (function_name)" in
  let cpu :=
      "sum by(container, namespace) (irate(container_cpu_usage_seconds_total{image!="
      +:+ quote +:+ quote +:+ ",namespace=" +:+ quote +:+ "openfaas-fn" +:+ quote
      +:+ ", container!=" +:+ quote +:+ "POD" +:+ quote +:+ "}[5m])*100)" in
  let memory :=
      "sum by(container, namespace) (container_memory_working_set_bytes{image!="
      +:+ quote +:+ quote +:+ ",namespace=" +:+ quote +:+ "openfaas-fn" +:+ quote
      +:+ ", container!=" +:+ quote +:+ "POD" +:+ quote +:+ "})" in
  let latency :=
      "sum by (function_name) (gateway_function_request_seconds_sum / gateway_function_request_seconds_count)" in
  (exists sent,
      fetched (fst (enrich (first :: rest) σ))
      = fetched σ ++ QueryEscape invocation :: sent
      /\ sent `prefix_of` [QueryEscape cpu; QueryEscape memory; QueryEscape latency])
  /\ (exists before after, invocation = before +:+ ns +:+ after)
  /\ (alwaysAnswers T ->
      fetched (fst (enrich (first :: rest) σ))
      = fetched σ ++ [QueryEscape invocation; QueryEscape cpu;
                      QueryEscape memory; QueryEscape latency]).
Proof.
  intros quote ns invocation cpu memory latency.
  enough (Hcode :
            (exists sent,
                fetched (fst (enrich (first :: rest) σ))
                = fetched σ ++ QueryEscape (invocationQuery (types.Namespace first)) :: sent
                /\ sent `prefix_of` [QueryEscape cpuQuery; QueryEscape memoryQuery;
                                     QueryEscape latencyQuery])
            /\ (exists before after,
                  invocationQuery (types.Namespace first)
                  = before +:+ types.Namespace first +:+ after)
            /\ (alwaysAnswers T ->
                fetched (fst (enrich (first :: rest) σ))
                = fetched σ ++ queriesFor (types.Namespace first)))
    by exact Hcode.
  clear quote ns invocation cpu memory latency.
  split; [|split].
  - unfold enrich. rewrite zeroInit_map. simpl. unfold queryAndMix. simpl.
    apply sendsPrefixOf_fetch. intros [results err].
    apply sendsPrefixOf_bind_quiet; [apply quiet_report|intros _].
    apply sendsPrefixOf_bind_quiet; [apply quiet_mixIn|intros functions1].
    apply sendsPrefixOf_cons. intros [results1 err1].
    apply sendsPrefixOf_bind_quiet; [apply quiet_reportFirst|intros _].
    apply sendsPrefixOf_bind_quiet; [apply quiet_mixCPU|intros functions2].
    apply sendsPrefixOf_cons. intros [results2 err2].
    apply sendsPrefixOf_bind_quiet; [apply quiet_reportFirst|intros _].
    apply sendsPrefixOf_bind_quiet; [apply quiet_mixMemory|intros functions3].
    apply sendsPrefixOf_cons. intros [results3 err3].
    apply sendsPrefixOf_bind_quiet; [apply quiet_reportFirst|intros _].
    apply sendsPrefixOf_quiet, quiet_mixTime.
  - exists ("sum(gateway_function_invocation_total{function_name=~" +:+ doubleQuote +:+ ".*."),
           (doubleQuote +:+ "}) by (function_name)").
    reflexivity.
  - intros Hanswers. unfold enrich. rewrite zeroInit_map. simpl.
    destruct (Hanswers (prometheus σ)
                (QueryEscape (invocationQuery (Namespace (zeroed first)))))
      as (p1 & m1 & F1).
    destruct (Hanswers p1 (QueryEscape cpuQuery)) as (p2 & m2 & F2).
    destruct (Hanswers p2 (QueryEscape memoryQuery)) as (p3 & m3 & F3).
    destruct (Hanswers p3 (QueryEscape latencyQuery)) as (p4 & m4 & F4).
    destruct (queryAndMix_runs (map zeroed (first :: rest)) (zeroed first) σ
                _ _ _ _ _ _ _ _ eq_refl (usage_zeroed (first :: rest)) F1 F2 F3 F4)
      as [L E].
    simpl in E. by rewrite E.
Qed.

Lemma queries_scope_witness :
  let quote := String (Ascii false true false false false true false false) EmptyString in
  fetched (fst (enrich (lib := Example.library) (client := Example.empty)
                       [Example.function "fn1" "ns1"] (Example.world tt)))
  = map Example.queryEscape
        ["sum(gateway_function_invocation_total{function_name=~" +:+ quote +:+ ".*."
         +:+ "ns1" +:+ quote +:+ "}) by (function_name)";
         "sum by(container, namespace) (irate(container_cpu_usage_seconds_total{image!="
         +:+ quote +:+ quote +:+ ",namespace=" +:+ quote +:+ "openfaas-fn" +:+ quote
         +:+ ", container!=" +:+ quote +:+ "POD" +:+ quote +:+ "}[5m])*100)";
         "sum by(container, namespace) (container_memory_working_set_bytes{image!="
         +:+ quote +:+ quote +:+ ",namespace=" +:+ quote +:+ "openfaas-fn" +:+ quote
         +:+ ", container!=" +:+ quote +:+ "POD" +:+ quote +:+ "})";
         "sum by (function_name) (gateway_function_request_seconds_sum / gateway_function_request_seconds_count)"].
Proof.
  intros quote.
  destruct (queries_scope (lib := Example.library) (client := Example.empty)
              (Example.function "fn1" "ns1") [] (Example.world tt))
    as (_ & _ & Hall).
  assert (Hanswers : alwaysAnswers unit (client := Example.empty))
    by (intros p q; by eexists tt, _).
  etransitivity; [exact (Hall Hanswers)|]. vm_compute. reflexivity.
Defined.

(** ** A failed query *)

(** C3 fails on the code. When the invocation-count query succeeds and
    the CPU query returns an error, the branch that should log the CPU
    error calls [err.Error()] on the nil error of the first query: the
    handler panics, the memory and latency queries are never sent and no
    response is written. *)
Theorem cpu_query_failure_panics {lib : GoLibrary} {T : Type}
        {client : PrometheusQueryFetcher T}
        (first : types.FunctionStatus) (rest : list types.FunctionStatus) (σ : World T)
        p1 m1 p2 results1 e1 :
  Fetch (prometheus σ) (QueryEscape (invocationQuery (types.Namespace first)))
  = (p1, (Some m1, None)) ->
  Fetch p1 (QueryEscape cpuQuery) = (p2, (results1, Some e1)) ->
  exists σ',
    enrich (first :: rest) σ = (σ', Panic NilDereference)
    /\ fetched σ' = fetched σ ++ [QueryEscape (invocationQuery (types.Namespace first));
                                  QueryEscape cpuQuery].
Proof.
  intros F1 F2. unfold enrich. rewrite zeroInit_map. simpl. unfold queryAndMix. simpl.
  unfold bind at 1, fetch at 1. rewrite F1. unfold bind at 1. simpl.
  unfold bind at 1.
  destruct (mixIn_runs (zeroed first :: map zeroed rest) m1
              {| prometheus := p1;
                 fetched := fetched σ ++
                   [QueryEscape (invocationQuery (types.Namespace first))];
                 logged := logged σ |}) as [L E].
  rewrite E. unfold addLogs. simpl.
  unfold bind at 1, fetch at 1. simpl. rewrite F2. unfold bind at 1. simpl.
  eexists. split; [reflexivity|]. simpl. by rewrite <- app_assoc.
Qed.

Lemma cpu_query_failure_panics_witness :
  let script := [(Example.response [], None); (None, Some "connection refused")] in
  exists σ',
    enrich (lib := Example.library) (client := Example.scripted)
           [Example.function "fn1" "ns1"] (Example.world script)
    = (σ', Panic NilDereference)
    /\ length (fetched σ') = 2%nat.
Proof.
  intros script.
  destruct (cpu_query_failure_panics (lib := Example.library) (client := Example.scripted)
              (Example.function "fn1" "ns1") [] (Example.world script)
              _ _ _ _ _ eq_refl eq_refl) as (σ' & Hrun & Hsent).
  exists σ'. split; [exact Hrun|]. by rewrite Hsent.
Defined.

(** The whole handler at that input: it panics before writing anything. *)
Example handler_panics_on_cpu_failure :
  let script := [(Example.response [], None); (None, Some "connection refused")] in
  snd (AddMetricsHandler (lib := Example.library) (client := Example.scripted)
         {| Code := 200; Body := Some "[fn1.ns1]" |} newResponseWriter
         (Example.world script))
  = Panic NilDereference.
Proof. vm_compute. reflexivity. Qed.

(** A first query that fails with a nil result, which is what the fetch
    of a failed request returns, panics in [mixIn]. *)
Example handler_panics_on_first_failure :
  let script := [(None, Some "connection refused")] in
  snd (AddMetricsHandler (lib := Example.library) (client := Example.scripted)
         {| Code := 200; Body := Some "[fn1.ns1]" |} newResponseWriter
         (Example.world script))
  = Panic NilDereference.
Proof. vm_compute. reflexivity. Qed.

(** ** The exporter *)

Section ExporterFacts.
Context {lib : GoLibrary} {T : Type} {client : PrometheusQueryFetcher T}.

Lemma setFromSamples_runs (format : string) (samples : list VectorSample) :
  Forall stringValued samples ->
  forall gauge, logsOnly (T:=T) (setFromSamples format samples gauge)
                         (refreshed samples gauge).
Proof.
  unfold setFromSamples, refreshed.
  induction 1 as [|v samples [value Hv] _ IH]; intros gauge; simpl.
  - apply logsOnly_ret.
  - eapply logsOnly_bind; [|apply IH].
    unfold gaugeValue, gaugeKey. rewrite Hv. simpl.
    eapply logsOnly_bind; [apply logsOnly_ret|].
    destruct (ParseFloat value) as [f err]. simpl.
    eapply logsOnly_bind; [apply logsOnly_logPrintf | apply logsOnly_ret].
Qed.

(** The loop of [Collect] over the snapshot leaves a zero CPU and memory
    gauge for every service of the snapshot. *)
Lemma zeroing_loop (l : list types.FunctionStatus) :
  forall o : MetricOptions,
    let o' := foldl (fun o service =>
                set_gauges
                  (WithLabelValues_Set (serviceName service)
                     (float64_of_uint64 (types.Replicas service)) (ServiceReplicasGauge o))
                  (WithLabelValues_Set (serviceName service) 0 (PodCpuUsageSecondsTotal o))
                  (WithLabelValues_Set (serviceName service) 0 (PodMemoryWorkingSetBytes o))
                  o) o l in
    (forall k, PodCpuUsageSecondsTotal o !! k = Some 0%float ->
               PodCpuUsageSecondsTotal o' !! k = Some 0%float)
    /\ (forall k, PodMemoryWorkingSetBytes o !! k = Some 0%float ->
                  PodMemoryWorkingSetBytes o' !! k = Some 0%float)
    /\ (forall service, service ∈ l ->
          PodCpuUsageSecondsTotal o' !! [serviceName service] = Some 0%float
          /\ PodMemoryWorkingSetBytes o' !! [serviceName service] = Some 0%float).
Proof.
  induction l as [|a l IH]; intros o; simpl.
  - split; [done|]. split; [done|]. intros service Hin. by apply elem_of_nil in Hin.
  - match goal with
    | |- context [foldl ?step ?o1 l] => destruct (IH o1) as (Hcpu & Hmem & Hin)
    end.
    simpl in Hcpu, Hmem. unfold WithLabelValues_Set in *.
    split; [|split].
    + intros k Hk. apply Hcpu. rewrite lookup_insert. by case_decide.
    + intros k Hk. apply Hmem. rewrite lookup_insert. by case_decide.
    + intros service Hs. apply elem_of_cons in Hs as [->|Hs]; [|by apply Hin].
      split; [apply Hcpu | apply Hmem]; by rewrite lookup_insert_eq.
Qed.

Lemma resetGauges_zero (e : Exporter) (service : types.FunctionStatus) :
  service ∈ services e ->
  PodCpuUsageSecondsTotal (metricOptions (resetGauges e)) !! [serviceName service]
  = Some 0%float
  /\ PodMemoryWorkingSetBytes (metricOptions (resetGauges e)) !! [serviceName service]
     = Some 0%float.
Proof.
  intros Hin. unfold resetGauges. simpl.
  match goal with
  | |- context [foldl ?step ?o1 (services e)] =>
    destruct (zeroing_loop (services e) o1) as (_ & _ & Hz)
  end.
  by apply Hz.
Qed.

Lemma refreshed_app (l1 l2 : list VectorSample) (gauge : Vec) :
  refreshed (l1 ++ l2) gauge = refreshed l2 (refreshed l1 gauge).
Proof. unfold refreshed. apply foldl_app. Qed.

Lemma refreshed_other (l : list VectorSample) (k : list string) :
  Forall (fun v => gaugeKey v <> k) l ->
  forall gauge, refreshed l gauge !! k = gauge !! k.
Proof.
  induction 1 as [|v l Hv _ IH]; intros gauge; simpl; [done|].
  unfold refreshed in *. simpl. rewrite IH. by rewrite lookup_insert_ne.
Qed.

(** A sample's series holds the sample's value unless a later sample
    addresses the same series. *)
Lemma refreshed_lookup (pre post : list VectorSample) (v : VectorSample) (gauge : Vec) :
  Forall (fun v' => gaugeKey v' <> gaugeKey v) post ->
  refreshed (pre ++ v :: post) gauge !! gaugeKey v = Some (gaugeValue v).
Proof.
  intros Hpost. rewrite refreshed_app. change (v :: post) with ([v] ++ post).
  rewrite refreshed_app, (refreshed_other post) by done.
  unfold refreshed. simpl. by rewrite lookup_insert_eq.
Qed.

(** After the loop of [Collect], the replica gauge holds exactly the
    series of the snapshot, each with the replica count of the service
    that set it last. *)
Lemma resetGauges_replicas (e : Exporter) :
  ServiceReplicasGauge (metricOptions (resetGauges e))
  = foldl (fun gauge service =>
             <[ [serviceName service] := float64_of_uint64 (types.Replicas service) ]> gauge)
          ∅ (services e).
Proof.
  assert (Hgen : forall l o g, ServiceReplicasGauge o = g ->
            ServiceReplicasGauge
              (foldl (fun o service =>
                 set_gauges
                   (WithLabelValues_Set (serviceName service)
                      (float64_of_uint64 (types.Replicas service)) (ServiceReplicasGauge o))
                   (WithLabelValues_Set (serviceName service) 0 (PodCpuUsageSecondsTotal o))
                   (WithLabelValues_Set (serviceName service) 0 (PodMemoryWorkingSetBytes o))
                   o) o l)
            = foldl (fun gauge service =>
                 <[ [serviceName service] := float64_of_uint64 (types.Replicas service) ]> gauge)
                 g l).
  { induction l as [|a l IH]; intros o' g Hg; simpl; [done|].
    apply IH. simpl. unfold WithLabelValues_Set. by rewrite Hg. }
  unfold resetGauges. simpl. by apply Hgen.
Qed.

Lemma calc_cpu_error (e : Exporter) (σ : World T) p1 results msg :
  Fetch (prometheus σ) (QueryEscape calcCpuQuery) = (p1, (results, Some msg)) ->
  exists L,
    calc e σ = ({| prometheus := p1;
                   fetched := fetched σ ++ [QueryEscape calcCpuQuery];
                   logged := logged σ ++ L |}, Ok e).
Proof.
  intros F1. unfold calc. unfold bind at 1, fetch at 1. rewrite F1. simpl.
  by eexists.
Qed.

Lemma calc_memory_error (e : Exporter) (σ : World T) p1 r1 p2 results2 msg :
  Fetch (prometheus σ) (QueryEscape calcCpuQuery) = (p1, (Some r1, None)) ->
  Forall stringValued (Result (Data r1)) ->
  Fetch p1 (QueryEscape calcMemoryQuery) = (p2, (results2, Some msg)) ->
  exists L,
    calc e σ
    = ({| prometheus := p2;
          fetched := fetched σ ++ [QueryEscape calcCpuQuery; QueryEscape calcMemoryQuery];
          logged := logged σ ++ L |},
       Ok (set_metricOptions
             (set_gauges (ServiceReplicasGauge (metricOptions e))
                         (refreshed (Result (Data r1))
                                    (PodCpuUsageSecondsTotal (metricOptions e)))
                         (PodMemoryWorkingSetBytes (metricOptions e))
                         (metricOptions e)) e)).
Proof.
  intros F1 Hstrings F2. unfold calc. unfold bind at 1, fetch at 1. rewrite F1.
  cbv beta iota zeta. unfold bind at 1. unfold deref, ret at 1. cbv beta iota.
  unfold bind at 1.
  match goal with
  | |- context [setFromSamples ?f ?l ?g ?σ1] =>
    destruct (setFromSamples_runs f l Hstrings g σ1) as [L E]; rewrite E; clear E
  end.
  unfold bind at 1, fetch at 1. unfold addLogs at 1. simpl prometheus.
  rewrite F2. unfold bind, logPrintf, ret. unfold addLogs. simpl.
  eexists. by rewrite <- !app_assoc.
Qed.

Lemma calc_runs (e : Exporter) (σ : World T) p1 r1 p2 r2 :
  Fetch (prometheus σ) (QueryEscape calcCpuQuery) = (p1, (Some r1, None)) ->
  Forall stringValued (Result (Data r1)) ->
  Fetch p1 (QueryEscape calcMemoryQuery) = (p2, (Some r2, None)) ->
  Forall stringValued (Result (Data r2)) ->
  exists L,
    calc e σ
    = ({| prometheus := p2;
          fetched := fetched σ ++ [QueryEscape calcCpuQuery; QueryEscape calcMemoryQuery];
          logged := logged σ ++ L |},
       Ok (set_metricOptions
             (set_gauges (ServiceReplicasGauge (metricOptions e))
                         (refreshed (Result (Data r1))
                                    (PodCpuUsageSecondsTotal (metricOptions e)))
                         (refreshed (Result (Data r2))
                                    (PodMemoryWorkingSetBytes (metricOptions e)))
                         (metricOptions e)) e)).
Proof.
  intros F1 Hs1 F2 Hs2. unfold calc. unfold bind at 1, fetch at 1. rewrite F1.
  cbv beta iota zeta. unfold bind at 1. unfold deref, ret at 1. cbv beta iota.
  unfold bind at 1.
  match goal with
  | |- context [setFromSamples ?f ?l ?g ?σ1] =>
    destruct (setFromSamples_runs f l Hs1 g σ1) as [L1 E]; rewrite E; clear E
  end.
  unfold bind at 1, fetch at 1. unfold addLogs at 1. simpl prometheus.
  rewrite F2. cbv beta iota zeta. unfold bind at 1. unfold ret at 1. cbv beta iota.
  unfold bind at 1.
  match goal with
  | |- context [setFromSamples ?f ?l ?g ?σ1] =>
    destruct (setFromSamples_runs f l Hs2 g σ1) as [L2 E]; rewrite E; clear E
  end.
  unfold ret, addLogs. simpl.
  eexists. by rewrite <- !app_assoc.
Qed.

(** The loop of [Collect] touches the CPU and memory series of the
    snapshot's services only. *)
Lemma zeroing_loop_other (l : list types.FunctionStatus) (k : list string) :
  Forall (fun service => [serviceName service] <> k) l ->
  forall o : MetricOptions,
    let o' := foldl (fun o service =>
                set_gauges
                  (WithLabelValues_Set (serviceName service)
                     (float64_of_uint64 (types.Replicas service)) (ServiceReplicasGauge o))
                  (WithLabelValues_Set (serviceName service) 0 (PodCpuUsageSecondsTotal o))
                  (WithLabelValues_Set (serviceName service) 0 (PodMemoryWorkingSetBytes o))
                  o) o l in
    PodCpuUsageSecondsTotal o' !! k = PodCpuUsageSecondsTotal o !! k
    /\ PodMemoryWorkingSetBytes o' !! k = PodMemoryWorkingSetBytes o !! k.
Proof.
  induction 1 as [|a l Ha _ IH]; intros o; simpl; [done|].
  match goal with
  | |- context [foldl ?step ?o1 l] => destruct (IH o1) as [Hcpu Hmem]
  end.
  simpl in Hcpu, Hmem. unfold WithLabelValues_Set in *.
  rewrite Hcpu, Hmem. by rewrite !lookup_insert_ne.
Qed.

(** A scrape never removes or zeroes a CPU or memory series whose key is
    neither the name of a service of the snapshot nor addressed by a
    sample of the replies: the series keeps its value. *)
Lemma stale_series_kept (e : Exporter) (ch : list Sent) (σ : World T)
      p1 r1 p2 r2 (k : list string) :
  Fetch (prometheus σ) (QueryEscape calcCpuQuery) = (p1, (Some r1, None)) ->
  Forall stringValued (Result (Data r1)) ->
  Fetch p1 (QueryEscape calcMemoryQuery) = (p2, (Some r2, None)) ->
  Forall stringValued (Result (Data r2)) ->
  Forall (fun service => [serviceName service] <> k) (services e) ->
  Forall (fun v => gaugeKey v <> k) (Result (Data r1)) ->
  Forall (fun v => gaugeKey v <> k) (Result (Data r2)) ->
  exists σ' e' ch',
    Collect e ch σ = (σ', Ok (e', ch'))
    /\ PodCpuUsageSecondsTotal (metricOptions e') !! k
       = PodCpuUsageSecondsTotal (metricOptions e) !! k
    /\ PodMemoryWorkingSetBytes (metricOptions e') !! k
       = PodMemoryWorkingSetBytes (metricOptions e) !! k.
Proof.
  intros F1 Hs1 F2 Hs2 Hsnapshot Hk1 Hk2. unfold Collect. cbv zeta. unfold bind.
  destruct (calc_runs (resetGauges e) σ p1 r1 p2 r2 F1 Hs1 F2 Hs2) as [L E].
  rewrite E. eexists _, _, _. split; [reflexivity|]. simpl.
  rewrite !refreshed_other by done. unfold resetGauges. simpl.
  match goal with
  | |- context [foldl ?step ?o1 (services e)] =>
    destruct (zeroing_loop_other (services e) k Hsnapshot o1) as [Hcpu Hmem]
  end.
  simpl in Hcpu, Hmem. by rewrite Hcpu, Hmem.
Qed.

End ExporterFacts.

(** C10. In a scrape, when the CPU query of [calc] returns an error,
    [calc] returns at once: the memory query is not sent, and the CPU and
    memory gauges of every service of the snapshot stay at the zero that
    [Collect] set. When the CPU query succeeds and the memory query
    returns an error, the CPU gauges have been set from the CPU samples
    (each series holds the value of the last sample that addresses it),
    and the memory gauges are the ones [Collect] left. *)
Theorem calc_failures {lib : GoLibrary} {T : Type} {client : PrometheusQueryFetcher T}
        (e : Exporter) (ch : list Sent) (σ : World T) :
  (forall p1 results msg,
      Fetch (prometheus σ) (QueryEscape calcCpuQuery) = (p1, (results, Some msg)) ->
      exists σ' e' ch',
        Collect e ch σ = (σ', Ok (e', ch'))
        /\ fetched σ' = fetched σ ++ [QueryEscape calcCpuQuery]
        /\ forall service, service ∈ services e ->
             PodCpuUsageSecondsTotal (metricOptions e') !! [serviceName service]
             = Some 0%float
             /\ PodMemoryWorkingSetBytes (metricOptions e') !! [serviceName service]
                = Some 0%float)
  /\ (forall p1 r1 p2 results2 msg,
        Fetch (prometheus σ) (QueryEscape calcCpuQuery) = (p1, (Some r1, None)) ->
        Forall stringValued (Result (Data r1)) ->
        Fetch p1 (QueryEscape calcMemoryQuery) = (p2, (results2, Some msg)) ->
        exists σ' e' ch',
          Collect e ch σ = (σ', Ok (e', ch'))
          /\ fetched σ' = fetched σ ++ [QueryEscape calcCpuQuery; QueryEscape calcMemoryQuery]
          /\ PodCpuUsageSecondsTotal (metricOptions e')
             = refreshed (Result (Data r1))
                         (PodCpuUsageSecondsTotal (metricOptions (resetGauges e)))
          /\ (forall pre v post,
                Result (Data r1) = pre ++ v :: post ->
                Forall (fun v' => gaugeKey v' <> gaugeKey v) post ->
                PodCpuUsageSecondsTotal (metricOptions e') !! gaugeKey v
                = Some (gaugeValue v))
          /\ PodMemoryWorkingSetBytes (metricOptions e')
             = PodMemoryWorkingSetBytes (metricOptions (resetGauges e))).
Proof.
  split.
  - intros p1 results msg F1. unfold Collect. cbv zeta. unfold bind.
    destruct (calc_cpu_error (resetGauges e) σ p1 results msg F1) as [L E].
    rewrite E. eexists _, _, _. split; [reflexivity|]. split; [done|].
    intros service Hin. by apply resetGauges_zero.
  - intros p1 r1 p2 results2 msg F1 Hstrings F2. unfold Collect. cbv zeta. unfold bind.
    destruct (calc_memory_error (resetGauges e) σ p1 r1 p2 results2 msg F1 Hstrings F2)
      as [L E].
    rewrite E. eexists _, _, _. split; [reflexivity|]. split; [done|].
    split; [done|]. split; [|done].
    intros pre v post Hsplit Hpost. simpl. rewrite Hsplit. by apply refreshed_lookup.
Qed.

Lemma calc_failures_witness :
  let e := {| metricOptions :=
                {| GatewayFunctionInvocation := ∅; GatewayFunctionsHistogram := ∅;
                   GatewayFunctionInvocationStarted := ∅; ServiceReplicasGauge := ∅;
                   GatewayFunctionRequestSummary := ∅;
                   PodCpuUsageSecondsTotal := {[ ["fn1.ns1"] := 5%float ]};
                   PodMemoryWorkingSetBytes := {[ ["fn1.ns1"] := 1024%float ]} |};
              services := [Example.function "fn1" "ns1"];
              FunctionNamespace := "openfaas-fn" |} in
  let cpuFails := [(None, Some "connection refused")] in
  let cpuSample := Example.sample "" "fn1" "ns1" "7" in
  let memoryFails := [(Example.response [cpuSample], None);
                      (None, Some "connection refused")] in
  (exists σ' e' ch',
      Collect (lib := Example.library) (client := Example.scripted) e []
              (Example.world cpuFails) = (σ', Ok (e', ch'))
      /\ length (fetched σ') = 1%nat
      /\ PodCpuUsageSecondsTotal (metricOptions e') !! ["fn1.ns1"] = Some 0%float
      /\ PodMemoryWorkingSetBytes (metricOptions e') !! ["fn1.ns1"] = Some 0%float)
  /\ (exists σ' e' ch',
        Collect (lib := Example.library) (client := Example.scripted) e []
                (Example.world memoryFails) = (σ', Ok (e', ch'))
        /\ length (fetched σ') = 2%nat
        /\ PodCpuUsageSecondsTotal (metricOptions e') !! ["fn1.ns1"] = Some 7%float).
Proof.
  intros e cpuFails cpuSample memoryFails. split.
  - destruct (calc_failures (lib := Example.library) (client := Example.scripted)
                e [] (Example.world cpuFails)) as [Hcpu _].
    destruct (Hcpu _ _ _ eq_refl) as (σ' & e' & ch' & Hrun & Hsent & Hzero).
    exists σ', e', ch'. split; [exact Hrun|]. split; [by rewrite Hsent|].
    apply (Hzero (Example.function "fn1" "ns1")). by left.
  - destruct (calc_failures (lib := Example.library) (client := Example.scripted)
                e [] (Example.world memoryFails)) as [_ Hmem].
    destruct (Hmem _ {| Status := "success"; Data := {| Result := [cpuSample] |} |}
                   _ _ _ eq_refl
                   ltac:(repeat constructor; by eexists) eq_refl)
      as (σ' & e' & ch' & Hrun & Hsent & _ & Hlast & _).
    exists σ', e', ch'. split; [exact Hrun|]. split; [by rewrite Hsent|].
    apply (Hlast [] cpuSample [] eq_refl). constructor.
Defined.

(** C6 fails on the code. [Collect] resets the replica gauge and zeroes
    the CPU and memory gauges of the services that are in the snapshot,
    but the CPU and memory gauges are never reset: a series whose service
    the watcher dropped keeps its last value. Here [fn1.ns1] is scraped
    with CPU 5 and memory 1024, the watcher then finds no function, and
    the next scrape, to which the backend returns no sample, still sends
    CPU 5 and memory 1024 for [fn1.ns1]. *)
Theorem dropped_service_stays_stale :
  let script :=
      [(Example.response [Example.sample "" "fn1" "ns1" "5"], None);
       (Example.response [Example.sample "" "fn1" "ns1" "1024"], None);
       (Example.response [], None);
       (Example.response [], None)] in
  exists σ1 e1 ch1 σ2 e2 σ3 e3 ch3,
    Collect (lib := Example.library) (client := Example.scripted)
            ExporterExample.exporter [] (Example.world script) = (σ1, Ok (e1, ch1))
    /\ watcherTick (provider := ExporterExample.deleted) e1 σ1 = (σ2, Ok e2)
    /\ services e2 = []
    /\ Collect (lib := Example.library) (client := Example.scripted) e2 [] σ2
       = (σ3, Ok (e3, ch3))
    /\ ch3 = [{| family := PodCpuUsage; labelValues := ["fn1.ns1"]; reading := 5 |};
              {| family := PodMemoryWorkingSet; labelValues := ["fn1.ns1"];
                 reading := 1024 |}].
Proof.
  intros script. eexists _, _, _, _, _, _, _, _.
  split; [vm_compute; reflexivity|].
  split; [vm_compute; reflexivity|].
  split; [reflexivity|].
  split; [vm_compute; reflexivity|].
  reflexivity.
Qed.

(** What [Collect] does guarantee before the refresh: the replica gauge
    holds the series of the snapshot only, and every service of the
    snapshot has a zero CPU and memory gauge. *)
Lemma resetGauges_snapshot (e : Exporter) :
  ServiceReplicasGauge (metricOptions (resetGauges e))
  = foldl (fun gauge service =>
             <[ [serviceName service] := float64_of_uint64 (types.Replicas service) ]> gauge)
          ∅ (services e)
  /\ forall service, service ∈ services e ->
       PodCpuUsageSecondsTotal (metricOptions (resetGauges e)) !! [serviceName service]
       = Some 0%float
       /\ PodMemoryWorkingSetBytes (metricOptions (resetGauges e)) !! [serviceName service]
          = Some 0%float.
Proof.
  split; [apply resetGauges_replicas|]. intros service Hin. by apply resetGauges_zero.
Qed.

(** * Further properties *)

(** ** Single runs *)

Lemma logsOnly_returns {T A} (m : M T A) (a : A) (σ : World T) :
  logsOnly m a -> returns m σ a.
Proof. intros Hm. destruct (Hm σ) as [L E]. by eexists. Qed.

Lemma returns_unique {T A} (m : M T A) (a a' : A) (σ : World T) :
  returns m σ a -> returns m σ a' -> a = a'.
Proof. intros [σ1 E1] [σ2 E2]. rewrite E1 in E2. by simplify_eq. Qed.

Lemma returns_bind {T A B} (m : M T A) (k : A -> M T B) (σ σ1 : World T) a b :
  m σ = (σ1, Ok a) -> returns (k a) σ1 b -> returns (bind m k) σ b.
Proof. intros E [σ2 E2]. exists σ2. unfold bind. by rewrite E. Qed.

(** ** The joins as list functions *)

Section JoinAlgebra.
Context {lib : GoLibrary}.

Lemma runJoin_runs {T} (j : Join) (functions : list FunctionStatus)
      (m : VectorQueryResponse) :
  usageAllocated functions ->
  logsOnly (T:=T) (runJoin j functions (Some m))
           (map (joinRecord j (Result (Data m))) functions).
Proof.
  intros Hall.
  destruct j; [apply mixIn_runs | by apply mixCPU_runs
               | by apply mixMemory_runs | apply mixTime_runs].
Qed.

Lemma usage_joinRecord (j : Join) samples (functions : list FunctionStatus) :
  usageAllocated functions -> usageAllocated (map (joinRecord j samples) functions).
Proof.
  intros Hall. apply Forall_fmap. eapply Forall_impl; [exact Hall|].
  intros r [u Hu]. simpl.
  destruct j; simpl; unfold mixIn_record, mixCPU_record, mixMemory_record, mixTime_record;
    rewrite ?Hu; simpl; try by eexists.
  destruct (negb _); simpl; by eexists.
Qed.

Lemma matchedValues_none matches (samples : list VectorSample) :
  Forall (fun v => matches v = false) samples -> matchedValues matches samples = [].
Proof.
  unfold matchedValues. induction 1 as [|v samples Hv _ IH]; simpl; [done|].
  by rewrite Hv.
Qed.

Lemma matchedValues_app matches (s1 s2 : list VectorSample) :
  matchedValues matches (s1 ++ s2) = matchedValues matches s1 ++ matchedValues matches s2.
Proof. unfold matchedValues. apply omap_app. Qed.

Lemma matchedValues_parsable matches (samples : list VectorSample) :
  matchedValues matches (filter parsable samples) = matchedValues matches samples.
Proof.
  unfold matchedValues. induction samples as [|v samples IH]; [done|].
  rewrite filter_cons.
  destruct (decide (parsable v)) as [Hv|Hv]; cbn -[filter]; rewrite IH; [done|].
  destruct (matches v); [|done].
  destruct (parsedValue v) eqn:E; [|done]. exfalso. apply Hv. unfold parsable. by eexists.
Qed.

Lemma joinRecord_unmatched (j : Join) samples r :
  matchedValues (joinMatches j r) samples = [] -> joinRecord j samples r = r.
Proof.
  intros Hnone. destruct j; simpl in *.
  - unfold mixIn_record. rewrite Hnone. apply set_InvocationCount_id.
  - unfold mixCPU_record. rewrite Hnone. simpl.
    destruct (Usage r) as [[c b]|] eqn:E; [|done]. simpl. rewrite <- E. apply set_Usage_id.
  - unfold mixMemory_record. rewrite Hnone. simpl.
    destruct (Usage r) as [[c b]|] eqn:E; [|done]. simpl. rewrite <- E. apply set_Usage_id.
  - unfold mixTime_record. rewrite Hnone. simpl. apply set_InvocationAvgTime_id.
Qed.

End JoinAlgebra.

(** X1. A record whose key no sample matches comes out of a join exactly
    as it went in, whichever of the four joins runs and whatever the other
    records and samples are. *)
Theorem unmatched_record_untouched {lib : GoLibrary} {T : Type} (j : Join)
        (functions : list FunctionStatus) (m : VectorQueryResponse)
        (i : nat) (r : FunctionStatus) (σ : World T) :
  usageAllocated functions ->
  functions !! i = Some r ->
  Forall (fun v => joinMatches j r v = false) (Result (Data m)) ->
  exists functions',
    returns (runJoin j functions (Some m)) σ functions'
    /\ functions' !! i = Some r.
Proof.
  intros Hall Hi Hnone. eexists. split.
  - by apply logsOnly_returns, runJoin_runs.
  - rewrite list_lookup_fmap, Hi. simpl. f_equal.
    by apply joinRecord_unmatched, matchedValues_none.
Qed.

Lemma unmatched_record_untouched_witness :
  let r := zeroed (Example.function "fn1" "ns1") in
  exists functions',
    returns (runJoin (lib := Example.library) CPUJoin [r]
               (Example.response [Example.sample "" "fn2" "ns1" "7"]))
            (Example.world tt) functions'
    /\ functions' !! 0%nat = Some r.
Proof.
  intros r.
  apply (unmatched_record_untouched (lib := Example.library) CPUJoin [r]
           {| Status := "success";
              Data := {| Result := [Example.sample "" "fn2" "ns1" "7"] |} |}
           0 r (Example.world tt)).
  - repeat constructor. by eexists.
  - reflexivity.
  - repeat constructor.
Defined.

Section JoinComposition.
Context {lib : GoLibrary}.

Lemma joinRecord_parsable (j : Join) samples r :
  joinRecord j (filter parsable samples) r = joinRecord j samples r.
Proof.
  destruct j; simpl;
    unfold mixIn_record, mixCPU_record, mixMemory_record, mixTime_record;
    by rewrite matchedValues_parsable.
Qed.

Lemma joinRecord_app (j : Join) s1 s2 r :
  j <> AvgTimeJoin ->
  joinRecord j (s1 ++ s2) r = joinRecord j s2 (joinRecord j s1 r).
Proof.
  intros Hj. destruct j; [| | |done]; simpl;
    unfold mixIn_record, mixCPU_record, mixMemory_record, sumFrom;
    rewrite ?matchedValues_app.
  - rewrite foldl_app. reflexivity.
  - destruct (Usage r) as [u|] eqn:E; simpl; rewrite ?E; [|done].
    rewrite foldl_app. reflexivity.
  - destruct (Usage r) as [u|] eqn:E; simpl; rewrite ?E; [|done].
    rewrite foldl_app. reflexivity.
Qed.

Lemma joinRecord_commute (j1 j2 : Join) s1 s2 r :
  j1 <> j2 ->
  joinRecord j2 s2 (joinRecord j1 s1 r) = joinRecord j1 s1 (joinRecord j2 s2 r).
Proof.
  intros Hj.
  destruct j1, j2; try done; simpl;
    unfold mixIn_record, mixCPU_record, mixMemory_record, mixTime_record;
    destruct (Usage r) as [u|] eqn:E; simpl; rewrite ?E; simpl;
    repeat match goal with
           | |- context [matchesFunctionName (?set ?x r)] =>
             change (matchesFunctionName (set x r)) with (matchesFunctionName r)
           | |- context [matchesContainer (?set ?x r)] =>
             change (matchesContainer (set x r)) with (matchesContainer r)
           end;
    repeat match goal with
           | |- context [if negb ?c then _ else _] => destruct (negb c); simpl; rewrite ?E
           end;
    reflexivity.
Qed.

End JoinComposition.

(** X2. A sample whose value is not a string, or is a string that
    [ParseFloat] rejects, contributes to no join: running a join on a
    reply gives the same records as running it on the reply with those
    samples removed. *)
Theorem unparsable_samples_ignored {lib : GoLibrary} {T : Type} (j : Join)
        (functions : list FunctionStatus) (m m' : VectorQueryResponse) (σ : World T) :
  usageAllocated functions ->
  Result (Data m') = filter parsable (Result (Data m)) ->
  exists functions',
    returns (runJoin j functions (Some m)) σ functions'
    /\ returns (runJoin j functions (Some m')) σ functions'.
Proof.
  intros Hall Hm'. exists (map (joinRecord j (Result (Data m))) functions). split.
  - by apply logsOnly_returns, runJoin_runs.
  - replace (map (joinRecord j (Result (Data m))) functions)
      with (map (joinRecord j (Result (Data m'))) functions).
    + by apply logsOnly_returns, runJoin_runs.
    + rewrite Hm'. apply map_ext. intros r. apply joinRecord_parsable.
Qed.

Lemma unparsable_samples_ignored_witness :
  let r := zeroed (Example.function "fn1" "ns1") in
  let good := Example.sample "fn1.ns1" "" "" "0.5" in
  let bad := Example.sample "fn1.ns1" "" "" "1e3x" in
  let number := {| Metric := Metric.mk "fn1.ns1" "" ""; Value := (JNumber 0, JNumber 2) |} in
  exists functions',
    returns (runJoin (lib := Example.library) AvgTimeJoin [r]
               (Example.response [bad; good; number])) (Example.world tt) functions'
    /\ returns (runJoin (lib := Example.library) AvgTimeJoin [r]
                  (Example.response [good])) (Example.world tt) functions'.
Proof.
  intros r good bad number.
  apply (unparsable_samples_ignored (lib := Example.library) AvgTimeJoin [r]
           {| Status := "success"; Data := {| Result := [bad; good; number] |} |}
           {| Status := "success"; Data := {| Result := [good] |} |} (Example.world tt)).
  - repeat constructor. by eexists.
  - vm_compute. reflexivity.
Defined.

(** X3. The three summing joins accumulate: joining with one reply and
    then with a second one leaves the same records as joining once with
    the samples of both, the first reply's samples first. (The handler
    relies on this when it starts from zeroed fields.) *)
Theorem sum_joins_accumulate {lib : GoLibrary} {T : Type} (j : Join)
        (functions : list FunctionStatus) (m1 m2 m12 : VectorQueryResponse) (σ : World T) :
  j <> AvgTimeJoin ->
  usageAllocated functions ->
  Result (Data m12) = Result (Data m1) ++ Result (Data m2) ->
  exists σ1 functions1 functions2,
    runJoin j functions (Some m1) σ = (σ1, Ok functions1)
    /\ returns (runJoin j functions1 (Some m2)) σ1 functions2
    /\ returns (runJoin j functions (Some m12)) σ functions2.
Proof.
  intros Hj Hall Hm12.
  destruct (runJoin_runs (T:=T) j functions m1 Hall σ) as [L1 E1].
  eexists _, _, _. split; [exact E1|]. split.
  - apply logsOnly_returns, runJoin_runs. by apply usage_joinRecord.
  - replace (map (joinRecord j (Result (Data m2)))
                 (map (joinRecord j (Result (Data m1))) functions))
      with (map (joinRecord j (Result (Data m12))) functions).
    + by apply logsOnly_returns, runJoin_runs.
    + rewrite Hm12, map_map. apply map_ext. intros r. by apply joinRecord_app.
Qed.

Lemma sum_joins_accumulate_witness :
  let r := zeroed (Example.function "fn1" "ns1") in
  let s1 := Example.sample "" "fn1" "ns1" "1.5" in
  let s2 := Example.sample "" "fn1" "ns1" "0.5" in
  exists σ1 functions1 functions2,
    runJoin (lib := Example.library) CPUJoin [r] (Example.response [s1]) (Example.world tt)
    = (σ1, Ok functions1)
    /\ returns (runJoin (lib := Example.library) CPUJoin functions1 (Example.response [s2]))
               σ1 functions2
    /\ returns (runJoin (lib := Example.library) CPUJoin [r] (Example.response [s1; s2]))
               (Example.world tt) functions2.
Proof.
  intros r s1 s2.
  apply (sum_joins_accumulate (lib := Example.library) CPUJoin [r]
           {| Status := "success"; Data := {| Result := [s1] |} |}
           {| Status := "success"; Data := {| Result := [s2] |} |}
           {| Status := "success"; Data := {| Result := [s1; s2] |} |} (Example.world tt)).
  - discriminate.
  - repeat constructor. by eexists.
  - reflexivity.
Defined.

(** X4. A join treats the records one by one: on a concatenated list it
    returns the concatenation of what it returns on the two parts, so no
    record's result depends on which other records are listed with it. *)
Theorem joins_distribute_over_append {lib : GoLibrary} {T : Type} (j : Join)
        (l1 l2 : list FunctionStatus) (m : VectorQueryResponse) (σ : World T) :
  usageAllocated (l1 ++ l2) ->
  exists l1' l2',
    returns (runJoin j l1 (Some m)) σ l1'
    /\ returns (runJoin j l2 (Some m)) σ l2'
    /\ returns (runJoin j (l1 ++ l2) (Some m)) σ (l1' ++ l2').
Proof.
  intros Hall. pose proof Hall as Hboth. apply Forall_app in Hboth as [H1 H2].
  eexists _, _. split; [|split].
  - by apply logsOnly_returns, runJoin_runs.
  - by apply logsOnly_returns, runJoin_runs.
  - rewrite <- map_app. by apply logsOnly_returns, runJoin_runs.
Qed.

Lemma joins_distribute_over_append_witness :
  let r1 := zeroed (Example.function "fn1" "ns1") in
  let r2 := zeroed (Example.function "fn2" "ns1") in
  let reply := Example.response [Example.sample "fn2.ns1" "" "" "3"] in
  exists l1' l2',
    returns (runJoin (lib := Example.library) CountJoin [r1] reply) (Example.world tt) l1'
    /\ returns (runJoin (lib := Example.library) CountJoin [r2] reply) (Example.world tt) l2'
    /\ returns (runJoin (lib := Example.library) CountJoin [r1; r2] reply)
               (Example.world tt) (l1' ++ l2').
Proof.
  intros r1 r2 reply.
  apply (joins_distribute_over_append (lib := Example.library) CountJoin [r1] [r2]
           {| Status := "success";
              Data := {| Result := [Example.sample "fn2.ns1" "" "" "3"] |} |}
           (Example.world tt)).
  repeat constructor; by eexists.
Defined.

(** X5. Two different joins commute: each one reads the record's name and
    namespace and writes a field of its own, so running them in either
    order returns the same records. The order of the four joins in the
    handler is therefore immaterial to the records it returns. *)
Theorem joins_commute {lib : GoLibrary} {T : Type} (j1 j2 : Join)
        (functions : list FunctionStatus) (m1 m2 : VectorQueryResponse) (σ : World T) :
  j1 <> j2 ->
  usageAllocated functions ->
  exists functions',
    returns (functions1 <- runJoin j1 functions (Some m1) ;;
             runJoin j2 functions1 (Some m2)) σ functions'
    /\ returns (functions2 <- runJoin j2 functions (Some m2) ;;
                runJoin j1 functions2 (Some m1)) σ functions'.
Proof.
  intros Hj Hall.
  exists (map (joinRecord j2 (Result (Data m2)))
              (map (joinRecord j1 (Result (Data m1))) functions)).
  split.
  - apply logsOnly_returns. eapply logsOnly_bind; [by apply runJoin_runs|].
    apply runJoin_runs. by apply usage_joinRecord.
  - replace (map (joinRecord j2 (Result (Data m2)))
                 (map (joinRecord j1 (Result (Data m1))) functions))
      with (map (joinRecord j1 (Result (Data m1)))
                (map (joinRecord j2 (Result (Data m2))) functions)).
    + apply logsOnly_returns. eapply logsOnly_bind; [by apply runJoin_runs|].
      apply runJoin_runs. by apply usage_joinRecord.
    + rewrite !map_map. apply map_ext. intros r. symmetry. by apply joinRecord_commute.
Qed.

Lemma joins_commute_witness :
  let r := zeroed (Example.function "fn1" "ns1") in
  let cpu := Example.response [Example.sample "" "fn1" "ns1" "1.5"] in
  let latency := Example.response [Example.sample "fn1.ns1" "" "" "0.2"] in
  exists functions',
    returns (functions1 <- runJoin (lib := Example.library) CPUJoin [r] cpu ;;
             runJoin (lib := Example.library) AvgTimeJoin functions1 latency)
            (Example.world tt) functions'
    /\ returns (functions2 <- runJoin (lib := Example.library) AvgTimeJoin [r] latency ;;
                runJoin (lib := Example.library) CPUJoin functions2 cpu)
               (Example.world tt) functions'.
Proof.
  intros r cpu latency.
  apply (joins_commute (lib := Example.library) CPUJoin AvgTimeJoin [r]
           {| Status := "success";
              Data := {| Result := [Example.sample "" "fn1" "ns1" "1.5"] |} |}
           {| Status := "success";
              Data := {| Result := [Example.sample "fn1.ns1" "" "" "0.2"] |} |}
           (Example.world tt)).
  - discriminate.
  - repeat constructor. by eexists.
Defined.

(** X6. A nil result pointer. [mixIn] dereferences [metrics] inside its
    loop over the records, so with a nil result it returns an empty record
    list untouched and panics on a non-empty one; [mixCPU], [mixMemory]
    and [mixTime] log the length of the result first and panic on a nil
    result whatever the records are. Nothing is logged before the panic. *)
Theorem nil_result_panics {lib : GoLibrary} {T : Type} (σ : World T) :
  mixIn [] None σ = (σ, Ok [])
  /\ (forall r functions, mixIn (r :: functions) None σ = (σ, Panic NilDereference))
  /\ (forall functions, mixCPU functions None σ = (σ, Panic NilDereference))
  /\ (forall functions, mixMemory functions None σ = (σ, Panic NilDereference))
  /\ (forall functions, mixTime functions None σ = (σ, Panic NilDereference)).
Proof. by repeat split. Qed.

(** ** When [mixCPU] and [mixMemory] panic *)

Lemma panicsAfterLogs_bind_l {T A B} (m : M T A) (k : A -> M T B) p :
  panicsAfterLogs m p -> panicsAfterLogs (bind m k) p.
Proof. intros Hm σ. destruct (Hm σ) as [L E]. exists L. unfold bind. by rewrite E. Qed.

Lemma panicsAfterLogs_bind_r {T A B} (m : M T A) (k : A -> M T B) a p :
  logsOnly m a -> panicsAfterLogs (k a) p -> panicsAfterLogs (bind m k) p.
Proof.
  intros Hm Hk σ. destruct (Hm σ) as [L1 E1].
  destruct (Hk (addLogs L1 σ)) as [L2 E2].
  exists (L1 ++ L2). unfold bind. rewrite E1, E2. by rewrite addLogs_app.
Qed.

Lemma panicsAfterLogs_panics {T A} (m : M T A) p (σ : World T) :
  panicsAfterLogs m p -> panics m σ p.
Proof. intros Hm. destruct (Hm σ) as [L E]. by eexists. Qed.

(** The outer loop of a join stops at the first record whose iteration
    panics. *)
Lemma forIndex_panics {T A} (body : nat -> list A -> M T (list A))
      (g : A -> A) (P : A -> Prop) p :
  (forall a, P a \/ ~ P a) ->
  (forall i l a, l !! i = Some a -> P a -> logsOnly (body i l) (<[i := g a]> l)) ->
  (forall i l a, l !! i = Some a -> ~ P a -> panicsAfterLogs (body i l) p) ->
  forall l, ~ Forall P l -> panicsAfterLogs (forIndex (length l) 0 body l) p.
Proof.
  intros Hdec Hgood Hbad l Hl.
  enough (Hgen : forall post pre, ~ Forall P post ->
            panicsAfterLogs (forIndex (length post) (length pre) body (pre ++ post)) p)
    by exact (Hgen l [] Hl).
  clear l Hl. induction post as [|a post IH]; intros pre Hnot; simpl.
  - destruct Hnot. constructor.
  - destruct (Hdec a) as [Pa|Pa].
    + eapply panicsAfterLogs_bind_r.
      * apply (Hgood (length pre) (pre ++ a :: post) a); [|done].
        by rewrite list_lookup_middle.
      * rewrite insert_app_r_alt by lia. rewrite Nat.sub_diag. simpl.
        assert (Hpost : ~ Forall P post) by (intros Hall; apply Hnot; by constructor).
        specialize (IH (pre ++ [g a]) Hpost).
        rewrite length_app in IH. simpl in IH.
        rewrite Nat.add_1_r in IH. by rewrite <- !app_assoc in IH.
    + apply panicsAfterLogs_bind_l.
      apply (Hbad (length pre) (pre ++ a :: post) a); [|done].
      by rewrite list_lookup_middle.
Qed.

Section UsageJoins.
Context {lib : GoLibrary} {T : Type}.
Variable format : string.
Variable change : float -> FunctionUsage.t -> FunctionUsage.t.

Lemma joinBody_unmatched matches
      (onValue' : float -> list FunctionStatus -> M T (list FunctionStatus))
      (samples : list VectorSample) (l : list FunctionStatus) :
  matchedValues matches samples = [] ->
  logsOnly (T:=T) (forRange samples (joinBody matches onValue') l) l.
Proof.
  unfold matchedValues. induction samples as [|v samples IH]; simpl; intros Hnone.
  - apply logsOnly_ret.
  - unfold joinBody at 1. unfold parsedValue in Hnone.
    destruct (matches v);
      [|eapply logsOnly_bind; [apply logsOnly_ret | by apply IH]].
    destruct (snd (Value v));
      try (eapply logsOnly_bind; [apply logsOnly_ret | by apply IH]).
    destruct (ParseFloat s) as [f [e|]]; simpl in *; [|discriminate].
    eapply logsOnly_bind; [|by apply IH].
    eapply logsOnly_bind; [apply logsOnly_logPrintf | apply logsOnly_ret].
Qed.

Lemma joinBody_panics matches
      (onValue' : float -> list FunctionStatus -> M T (list FunctionStatus))
      (samples : list VectorSample) (l : list FunctionStatus) p :
  (forall f, panicsAfterLogs (onValue' f l) p) ->
  matchedValues matches samples <> [] ->
  panicsAfterLogs (T:=T) (forRange samples (joinBody matches onValue') l) p.
Proof.
  intros Hon. unfold matchedValues.
  induction samples as [|v samples IH]; simpl; intros Hsome; [done|].
  unfold joinBody at 1. unfold parsedValue in Hsome.
  destruct (matches v);
    [|eapply panicsAfterLogs_bind_r; [apply logsOnly_ret | by apply IH]].
  destruct (snd (Value v));
    try (eapply panicsAfterLogs_bind_r; [apply logsOnly_ret | by apply IH]).
  destruct (ParseFloat s) as [f [e|]]; simpl in *.
  - eapply panicsAfterLogs_bind_r; [|by apply IH].
    eapply logsOnly_bind; [apply logsOnly_logPrintf | apply logsOnly_ret].
  - apply panicsAfterLogs_bind_l, Hon.
Qed.

Lemma usable_decided samples r : usable samples r \/ ~ usable samples r.
Proof.
  unfold usable. destruct (Usage r) as [u|]; [left; left; by eexists|].
  destruct (matchedValues (matchesContainer r) samples) as [|f vs]; [by left; right|].
  right. intros [[u Hu]|Hnil]; discriminate.
Qed.

Lemma usageBody_runs samples i l a :
  l !! i = Some a -> usable samples a ->
  logsOnly (T:=T) (usageBody format change samples i l)
           (<[i := usageChanged change samples a]> l).
Proof.
  intros Hi Ha. unfold usageBody. rewrite Hi. unfold usageChanged.
  rewrite <- (foldl_usage change).
  destruct (Usage a) as [u|] eqn:Hu.
  - apply (logsOnly_joinBody (matchesContainer a) _
             (fun f r => match Usage r with
                         | Some u => set_Usage (Some (change f u)) r
                         | None => r
                         end)
             (fun r => is_Some (Usage r))); [| |done|by eexists].
    + intros f l' r Hl' [u' Hu']. unfold usageOnValue.
      eapply logsOnly_bind; [apply logsOnly_logPrintf|].
      eapply logsOnly_updateAt; [done|].
      rewrite Hu'. eapply logsOnly_bind; [apply logsOnly_deref | apply logsOnly_ret].
    + intros f r [u' Hu']. rewrite Hu'. by eexists.
  - destruct Ha as [[u' Hu']|Hnone]; [congruence|].
    rewrite Hnone. simpl. rewrite list_insert_id by done. by apply joinBody_unmatched.
Qed.

Lemma usageBody_panics samples i l a :
  l !! i = Some a -> ~ usable samples a ->
  panicsAfterLogs (T:=T) (usageBody format change samples i l) NilDereference.
Proof.
  intros Hi Ha. unfold usageBody. rewrite Hi.
  assert (Hu : Usage a = None).
  { destruct (Usage a) eqn:E; [|done]. destruct Ha. left. by eexists. }
  apply joinBody_panics.
  - intros f. unfold usageOnValue.
    eapply panicsAfterLogs_bind_r; [apply logsOnly_logPrintf|].
    unfold updateAt. rewrite Hi. unfold bind, deref, throw. rewrite Hu.
    intros σ. exists []. by rewrite addLogs_nil.
  - intros Hnone. apply Ha. by right.
Qed.

Lemma usageLoop_runs samples (functions : list FunctionStatus) :
  Forall (usable samples) functions ->
  logsOnly (T:=T) (forIndex (length functions) 0 (usageBody format change samples) functions)
           (map (usageChanged change samples) functions).
Proof.
  apply (logsOnly_forIndex _ _ (usable samples)).
  intros i l a. apply usageBody_runs.
Qed.

Lemma usageLoop_panics samples (functions : list FunctionStatus) :
  ~ Forall (usable samples) functions ->
  panicsAfterLogs (T:=T)
    (forIndex (length functions) 0 (usageBody format change samples) functions)
    NilDereference.
Proof.
  apply (forIndex_panics _ (usageChanged change samples) (usable samples)).
  - apply usable_decided.
  - intros i l a. apply usageBody_runs.
  - intros i l a. apply usageBody_panics.
Qed.

End UsageJoins.

(** X7. [mixCPU] and [mixMemory] dereference a record's [Usage] only when
    a sample contributes to that record. So they return, with the sums
    folded into the records, exactly when every record either has its
    [Usage] allocated or is matched by no parsable sample; otherwise they
    panic with a nil dereference at the first record that is not so. *)
Theorem usage_panics_exactly {lib : GoLibrary} {T : Type}
        (functions : list FunctionStatus) (m : VectorQueryResponse) (σ : World T) :
  (Forall (usable (Result (Data m))) functions ->
   returns (mixCPU functions (Some m)) σ
           (map (mixCPU_record (Result (Data m))) functions)
   /\ returns (mixMemory functions (Some m)) σ
              (map (mixMemory_record (Result (Data m))) functions))
  /\ (~ Forall (usable (Result (Data m))) functions ->
      panics (mixCPU functions (Some m)) σ NilDereference
      /\ panics (mixMemory functions (Some m)) σ NilDereference).
Proof.
  split; intros Hall; split.
  - apply logsOnly_returns. unfold mixCPU.
    eapply logsOnly_bind; [apply logsOnly_deref|].
    eapply logsOnly_bind; [apply logsOnly_logPrintf|].
    replace (map (mixCPU_record (Result (Data m))) functions)
      with (map (usageChanged addCPU (Result (Data m))) functions).
    + by apply (usageLoop_runs "add_metrics: CPU %f" addCPU).
    + apply map_ext. intros r. unfold usageChanged, mixCPU_record.
      destruct (Usage r); [|done]. by rewrite foldl_addCPU.
  - apply logsOnly_returns. unfold mixMemory.
    eapply logsOnly_bind; [apply logsOnly_deref|].
    eapply logsOnly_bind; [apply logsOnly_logPrintf|].
    replace (map (mixMemory_record (Result (Data m))) functions)
      with (map (usageChanged addMemory (Result (Data m))) functions).
    + by apply (usageLoop_runs "add_metrics: Memory %f" addMemory).
    + apply map_ext. intros r. unfold usageChanged, mixMemory_record.
      destruct (Usage r); [|done]. by rewrite foldl_addMemory.
  - apply panicsAfterLogs_panics. unfold mixCPU.
    eapply panicsAfterLogs_bind_r; [apply logsOnly_deref|].
    eapply panicsAfterLogs_bind_r; [apply logsOnly_logPrintf|].
    by apply (usageLoop_panics "add_metrics: CPU %f" addCPU).
  - apply panicsAfterLogs_panics. unfold mixMemory.
    eapply panicsAfterLogs_bind_r; [apply logsOnly_deref|].
    eapply panicsAfterLogs_bind_r; [apply logsOnly_logPrintf|].
    by apply (usageLoop_panics "add_metrics: Memory %f" addMemory).
Qed.

Lemma usage_panics_exactly_witness :
  let nilUsage := set_Usage None (zeroed (Example.function "fn1" "ns1")) in
  returns (mixCPU (lib := Example.library) [nilUsage]
             (Example.response [Example.sample "" "fn2" "ns1" "1"]))
          (Example.world tt) [nilUsage]
  /\ panics (mixCPU (lib := Example.library) [nilUsage]
               (Example.response [Example.sample "" "fn1" "ns1" "1"]))
            (Example.world tt) NilDereference.
Proof.
  intros nilUsage. split.
  - apply (usage_panics_exactly (lib := Example.library) [nilUsage]
             {| Status := "success";
                Data := {| Result := [Example.sample "" "fn2" "ns1" "1"] |} |}
             (Example.world tt)).
    constructor; [right; reflexivity | constructor].
  - apply (usage_panics_exactly (lib := Example.library) [nilUsage]
             {| Status := "success";
                Data := {| Result := [Example.sample "" "fn1" "ns1" "1"] |} |}
             (Example.world tt)).
    intros Hall. apply Forall_cons in Hall as [[[u Hu]|Hnone] _]; discriminate.
Defined.

(** ** The handler's replies *)

Ltac join_step Hall :=
  match goal with
  | |- context [mixIn ?fs (Some ?m) ?σ] =>
    let L := fresh "L" in let E := fresh "E" in
    destruct (mixIn_runs fs m σ) as [L E]; rewrite E; clear E
  | |- context [mixCPU ?fs (Some ?m) ?σ] =>
    let L := fresh "L" in let E := fresh "E" in
    destruct (mixCPU_runs fs m ltac:(auto using usage_mixIn_record) σ) as [L E];
    rewrite E; clear E
  | |- context [mixMemory ?fs (Some ?m) ?σ] =>
    let L := fresh "L" in let E := fresh "E" in
    destruct (mixMemory_runs fs m
                ltac:(auto using usage_mixIn_record, usage_mixCPU_record) σ)
      as [L E];
    rewrite E; clear E
  | |- context [mixTime ?fs (Some ?m) ?σ] =>
    let L := fresh "L" in let E := fresh "E" in
    destruct (mixTime_runs fs m σ) as [L E]; rewrite E; clear E
  end; unfold addLogs; simpl.

Section HandlerReplies.
Context {lib : GoLibrary} {T : Type} {client : PrometheusQueryFetcher T}.

Lemma sendsPrefixOf_then_quiet {A B} (qs : list string) (m : M T A) (k : A -> M T B) :
  sendsPrefixOf qs m -> (forall a, quiet (k a)) -> sendsPrefixOf qs (bind m k).
Proof.
  intros Hm Hk σ. destruct (Hm σ) as (sent & Hsent & Hpre). exists sent. split; [|done].
  unfold bind. destruct (m σ) as [σ1 [a|p]]; simpl in *; [|done].
  destruct (Hk a σ1) as (L & r & E). by rewrite E.
Qed.

Lemma enrich_sends (first : types.FunctionStatus) (rest : list types.FunctionStatus) :
  sendsPrefixOf (queriesFor (types.Namespace first)) (enrich (first :: rest)).
Proof.
  unfold enrich. rewrite zeroInit_map. simpl. unfold queryAndMix. simpl.
  unfold queriesFor.
  apply sendsPrefixOf_cons. intros [results err].
  apply sendsPrefixOf_bind_quiet; [apply quiet_report|intros _].
  apply sendsPrefixOf_bind_quiet; [apply quiet_mixIn|intros functions1].
  apply sendsPrefixOf_cons. intros [results1 err1].
  apply sendsPrefixOf_bind_quiet; [apply quiet_reportFirst|intros _].
  apply sendsPrefixOf_bind_quiet; [apply quiet_mixCPU|intros functions2].
  apply sendsPrefixOf_cons. intros [results2 err2].
  apply sendsPrefixOf_bind_quiet; [apply quiet_reportFirst|intros _].
  apply sendsPrefixOf_bind_quiet; [apply quiet_mixMemory|intros functions3].
  apply sendsPrefixOf_cons. intros [results3 err3].
  apply sendsPrefixOf_bind_quiet; [apply quiet_reportFirst|intros _].
  apply sendsPrefixOf_quiet, quiet_mixTime.
Qed.

Lemma quiet_reply (w : ResponseWriter) (functions : list FunctionStatus) :
  quiet (T:=T)
    (let (bytesOut, err) := Marshal functions in
     match err with
     | Some e =>
       logPrintf "Error serializing functions: %s" [LStr e] ;;;
       ret (http_Error "Error writing response after adding metrics"
                       StatusInternalServerError w)
     | None =>
       ret (Write bytesOut
              (WriteHeader StatusOK (Header_Set "Content-Type" "application/json" w)))
     end).
Proof.
  destruct (Marshal functions) as [bytesOut [e|]].
  - eapply quiet_logsOnly, logsOnly_bind; [apply logsOnly_logPrintf | apply logsOnly_ret].
  - eapply quiet_logsOnly, logsOnly_ret.
Qed.

(** The four queries with results that are never nil, the first of them
    reporting an error: whatever the later ones report, the joins run. *)
Lemma queryAndMix_tolerant (functions : list FunctionStatus) (first : FunctionStatus)
      (σ : World T) p1 m1 e1 p2 m2 err2 p3 m3 err3 p4 m4 err4 :
  functions !! 0%nat = Some first ->
  usageAllocated functions ->
  Fetch (prometheus σ) (QueryEscape (invocationQuery (Namespace first)))
  = (p1, (Some m1, Some e1)) ->
  Fetch p1 (QueryEscape cpuQuery) = (p2, (Some m2, err2)) ->
  Fetch p2 (QueryEscape memoryQuery) = (p3, (Some m3, err3)) ->
  Fetch p3 (QueryEscape latencyQuery) = (p4, (Some m4, err4)) ->
  exists L,
    queryAndMix functions σ
    = ({| prometheus := p4;
          fetched := fetched σ ++ queriesFor (Namespace first);
          logged := logged σ ++ L |},
       Ok (enriched m1 m2 m3 m4 functions)).
Proof.
  intros Hfirst Hall F1 F2 F3 F4. unfold usageAllocated in Hall.
  unfold queryAndMix. rewrite Hfirst.
  unfold bind at 1, fetch at 1. rewrite F1. unfold bind at 1. simpl.
  unfold bind at 1. join_step Hall.
  unfold bind at 1, fetch at 1. simpl. rewrite F2. unfold bind at 1.
  destruct err2; simpl; unfold bind at 1; join_step Hall;
    (unfold bind at 1, fetch at 1; simpl; rewrite F3; unfold bind at 1;
     destruct err3; simpl; unfold bind at 1; join_step Hall;
     (unfold bind at 1, fetch at 1; simpl; rewrite F4; unfold bind at 1;
      destruct err4; simpl; join_step Hall;
      eexists; unfold queriesFor, enriched; rewrite <- !app_assoc; simpl; reflexivity)).
Qed.

End HandlerReplies.

(** X8. The query budget of the handler, for every upstream outcome,
    every client and every library: a run sends no query at all unless
    the upstream answered 200 with a body that parses to a non-empty
    list, and then what it sends is, in order, an initial part of the
    four queries built from the namespace of the first parsed record. *)
Theorem handler_query_budget {lib : GoLibrary} {T : Type}
        {client : PrometheusQueryFetcher T}
        (recorder : Recorder) (w : ResponseWriter) (σ : World T) :
  exists sent,
    fetched (fst (AddMetricsHandler recorder w σ)) = fetched σ ++ sent
    /\ (sent = []
        \/ exists body first rest,
             Body recorder = Some body
             /\ Code recorder = StatusOK
             /\ Unmarshal body = (first :: rest, None)
             /\ sent `prefix_of` queriesFor (types.Namespace first)).
Proof.
  unfold AddMetricsHandler.
  destruct (Body recorder) as [body|];
    [|exists []; split; [simpl; by rewrite app_nil_r | by left]].
  destruct (negb (Code recorder =? StatusOK)%Z) eqn:Hcode;
    [exists []; split; [simpl; by rewrite app_nil_r | by left]|].
  destruct (Unmarshal body) as [function [e|]] eqn:Hparse;
    [exists []; split; [simpl; by rewrite app_nil_r | by left]|].
  destruct function as [|first rest].
  - exists []. split; [|by left]. unfold enrich. rewrite zeroInit_map. simpl.
    unfold bind, ret.
    destruct (Marshal []) as [bytesOut [e|]]; simpl; by rewrite app_nil_r.
  - destruct (sendsPrefixOf_then_quiet _ _ _ (enrich_sends first rest) (quiet_reply w) σ)
      as (sent & Hsent & Hpre).
    exists sent. split; [exact Hsent|]. right. exists body, first, rest.
    split; [done|]. split; [|by split].
    apply negb_false_iff in Hcode. by apply Z.eqb_eq.
Qed.

(** X9. An upstream list that parses to no record: the handler sends no
    query, logs nothing, and replies 200 with the encoding of the empty
    list as [application/json]. *)
Theorem empty_list_reply {lib : GoLibrary} {T : Type} {client : PrometheusQueryFetcher T}
        (recorder : Recorder) (w : ResponseWriter) (σ : World T)
        (body bytesOut : string) :
  Body recorder = Some body ->
  Code recorder = StatusOK ->
  Unmarshal body = ([], None) ->
  Marshal [] = (bytesOut, None) ->
  status w = None ->
  exists w',
    AddMetricsHandler recorder w σ = (σ, Ok w')
    /\ replied w w' StatusOK "application/json" bytesOut.
Proof.
  intros Hbody Hcode Hparse Hencode Hfresh.
  unfold AddMetricsHandler. rewrite Hbody, Hcode. simpl. rewrite Hparse.
  unfold enrich. rewrite zeroInit_map. simpl. unfold bind, ret. rewrite Hencode.
  eexists. split; [reflexivity|].
  unfold replied. simpl. rewrite Hfresh. by rewrite lookup_insert_eq.
Qed.

Lemma empty_list_reply_witness :
  exists w',
    AddMetricsHandler (lib := Example.library) (client := Example.scripted)
      HandlerExample.noFunctions newResponseWriter (Example.world [])
    = (Example.world [], Ok w')
    /\ replied newResponseWriter w' StatusOK "application/json" "[]".
Proof.
  apply (empty_list_reply (lib := Example.library) (client := Example.scripted)
           HandlerExample.noFunctions newResponseWriter (Example.world []) "[]" "[]");
    reflexivity.
Defined.

(** X10. The reply after a full enrichment. When the upstream answered
    200 with a non-empty list and every query returned a result without
    error, the handler sends the four queries and encodes the enriched
    list: if the encoder succeeds the reply is 200, [application/json],
    with the encoded bytes; if the encoder fails the reply is 500, plain
    text, with the fixed message and a newline, and the encoder's error
    goes to the log only. *)
Theorem reply_after_enrichment {lib : GoLibrary} {T : Type}
        {client : PrometheusQueryFetcher T}
        (recorder : Recorder) (w : ResponseWriter) (σ : World T)
        (body : string) (first : types.FunctionStatus) (rest : list types.FunctionStatus)
        p1 m1 p2 m2 p3 m3 p4 m4 (bytesOut : string) (err : error) :
  Body recorder = Some body ->
  Code recorder = StatusOK ->
  Unmarshal body = (first :: rest, None) ->
  Fetch (prometheus σ) (QueryEscape (invocationQuery (types.Namespace first)))
  = (p1, (Some m1, None)) ->
  Fetch p1 (QueryEscape cpuQuery) = (p2, (Some m2, None)) ->
  Fetch p2 (QueryEscape memoryQuery) = (p3, (Some m3, None)) ->
  Fetch p3 (QueryEscape latencyQuery) = (p4, (Some m4, None)) ->
  Marshal (enriched m1 m2 m3 m4 (map zeroed (first :: rest))) = (bytesOut, err) ->
  status w = None ->
  exists σ' w',
    AddMetricsHandler recorder w σ = (σ', Ok w')
    /\ fetched σ' = fetched σ ++ queriesFor (types.Namespace first)
    /\ match err with
       | None => replied w w' StatusOK "application/json" bytesOut
       | Some _ =>
         replied w w' StatusInternalServerError "text/plain; charset=utf-8"
                 ("Error writing response after adding metrics" +:+ newline)
       end.
Proof.
  intros Hbody Hcode Hparse F1 F2 F3 F4 Hencode Hfresh.
  unfold AddMetricsHandler. rewrite Hbody, Hcode. simpl. rewrite Hparse.
  unfold enrich. rewrite zeroInit_map. unfold bind at 1.
  change (0 <? length (map zeroed (first :: rest)))%nat with true. cbv iota.
  destruct (queryAndMix_runs (map zeroed (first :: rest)) (zeroed first) σ
              _ _ _ _ _ _ _ _ eq_refl (usage_zeroed (first :: rest)) F1 F2 F3 F4)
    as [L E].
  rewrite E. rewrite Hencode. unfold replied.
  destruct err as [e|]; simpl; eexists _, _; (split; [reflexivity|]); simpl;
    rewrite Hfresh; (split; [done|]); split; try done.
  - rewrite lookup_insert_ne by done. by rewrite lookup_insert_eq.
  - by rewrite lookup_insert_eq.
Qed.

Lemma reply_after_enrichment_witness :
  (exists σ' w',
      AddMetricsHandler (lib := Example.library) (client := Example.scripted)
        HandlerExample.listing newResponseWriter (Example.world HandlerExample.answers)
      = (σ', Ok w')
      /\ replied newResponseWriter w' StatusOK "application/json" "[fn1.ns1]")
  /\ (exists σ' w',
        AddMetricsHandler (lib := HandlerExample.unsupported) (client := Example.scripted)
          HandlerExample.listing newResponseWriter (Example.world HandlerExample.answers)
        = (σ', Ok w')
        /\ replied newResponseWriter w' StatusInternalServerError
                   "text/plain; charset=utf-8"
                   ("Error writing response after adding metrics" +:+ newline)).
Proof.
  split.
  - destruct (reply_after_enrichment (lib := Example.library) (client := Example.scripted)
                HandlerExample.listing newResponseWriter
                (Example.world HandlerExample.answers)
                "[fn1.ns1]" (Example.function "fn1" "ns1") []
                _ _ _ _ _ _ _ _ "[fn1.ns1]" None
                eq_refl eq_refl eq_refl eq_refl eq_refl eq_refl eq_refl eq_refl eq_refl)
      as (σ' & w' & Hrun & _ & Hreply).
    by exists σ', w'.
  - destruct (reply_after_enrichment (lib := HandlerExample.unsupported)
                (client := Example.scripted)
                HandlerExample.listing newResponseWriter
                (Example.world HandlerExample.answers)
                "[fn1.ns1]" (Example.function "fn1" "ns1") []
                _ _ _ _ _ _ _ _ "" (Some "json: unsupported value: NaN")
                eq_refl eq_refl eq_refl eq_refl eq_refl eq_refl eq_refl eq_refl eq_refl)
      as (σ' & w' & Hrun & _ & Hreply).
    by exists σ', w'.
Defined.

(** X11. Failing open needs a result. If every query hands back a
    non-nil result and the first query reports an error, later errors do
    not stop the enrichment: all four queries are sent and the four joins
    run over whatever the results hold. (The branches that report the
    later errors print the first query's error, which is then not nil.) *)
Theorem first_error_tolerated {lib : GoLibrary} {T : Type}
        {client : PrometheusQueryFetcher T}
        (first : types.FunctionStatus) (rest : list types.FunctionStatus) (σ : World T)
        p1 m1 e1 p2 m2 err2 p3 m3 err3 p4 m4 err4 :
  Fetch (prometheus σ) (QueryEscape (invocationQuery (types.Namespace first)))
  = (p1, (Some m1, Some e1)) ->
  Fetch p1 (QueryEscape cpuQuery) = (p2, (Some m2, err2)) ->
  Fetch p2 (QueryEscape memoryQuery) = (p3, (Some m3, err3)) ->
  Fetch p3 (QueryEscape latencyQuery) = (p4, (Some m4, err4)) ->
  exists σ',
    enrich (first :: rest) σ
    = (σ', Ok (enriched m1 m2 m3 m4 (map zeroed (first :: rest))))
    /\ fetched σ' = fetched σ ++ queriesFor (types.Namespace first).
Proof.
  intros F1 F2 F3 F4. unfold enrich. rewrite zeroInit_map.
  change (0 <? length (map zeroed (first :: rest)))%nat with true. cbv iota.
  destruct (queryAndMix_tolerant (map zeroed (first :: rest)) (zeroed first) σ
              _ _ _ _ _ _ _ _ _ _ _ _ eq_refl (usage_zeroed (first :: rest)) F1 F2 F3 F4)
    as [L E].
  rewrite E. by eexists.
Qed.

Lemma first_error_tolerated_witness :
  exists σ' functions,
    enrich (lib := Example.library) (client := Example.scripted)
           [Example.function "fn1" "ns1"] (Example.world HandlerExample.failures)
    = (σ', Ok functions)
    /\ length (fetched σ') = 4%nat.
Proof.
  destruct (first_error_tolerated (lib := Example.library) (client := Example.scripted)
              (Example.function "fn1" "ns1") [] (Example.world HandlerExample.failures)
              _ _ _ _ _ _ _ _ _ _ _ _ eq_refl eq_refl eq_refl eq_refl)
    as (σ' & Hrun & Hsent).
  eexists σ', _. split; [exact Hrun|]. by rewrite Hsent.
Defined.

(** ** The watcher's tick *)

Section WatcherFacts.
Context {T : Type} {provider : ProviderListing}.

Lemma listing_loop (namespaces : list string) :
  forall services : list types.FunctionStatus,
    logsOnly (T:=T)
      (forRange namespaces (fun namespace services =>
         let (nsServices, err) := getFunctions namespace in
         match err with
         | Some msg => logPrintln msg ;;; ret services
         | None => ret (services ++ nsServices)
         end) services)
      (services ++ concat (map listedIn namespaces)).
Proof.
  induction namespaces as [|namespace namespaces IH]; intros services; simpl.
  - rewrite app_nil_r. apply logsOnly_ret.
  - unfold listedIn at 1. destruct (getFunctions namespace) as [nsServices [msg|]].
    + eapply logsOnly_bind; [|apply IH].
      eapply logsOnly_bind; [apply logsOnly_logPrintf | apply logsOnly_ret].
    + eapply logsOnly_bind; [apply logsOnly_ret|].
      simpl. rewrite app_assoc. apply IH.
Qed.

End WatcherFacts.

(** X12. A tick of the service watcher when the provider reports no
    namespace (an empty list, with or without an error, such as the 404
    of a provider without namespaces): the watcher lists the exporter's
    own namespace. If that listing succeeds it becomes the snapshot; if
    it fails the error is the last line logged and the exporter is left
    exactly as it was. The metrics backend is not queried. *)
Theorem tick_without_namespaces {T : Type} {provider : ProviderListing}
        (e : Exporter) (σ : World T) (namespacesErr : error)
        (listed : list types.FunctionStatus) (err : error) :
  getNamespaces = ([], namespacesErr) ->
  getFunctions (FunctionNamespace e) = (listed, err) ->
  exists σ',
    watcherTick e σ
    = (σ', Ok match err with
              | None => set_services listed e
              | Some _ => e
              end)
    /\ fetched σ' = fetched σ
    /\ prometheus σ' = prometheus σ
    /\ forall msg, err = Some msg ->
         last (logged σ') = Some {| log_format := "%s"; log_args := [LStr msg] |}.
Proof.
  intros Hnamespaces Hlisted. unfold watcherTick. rewrite Hnamespaces. simpl.
  rewrite Hlisted. unfold bind.
  destruct namespacesErr as [msg0|], err as [msg|]; simpl;
    eexists; (split; [reflexivity|]); simpl; (split; [done|]); (split; [done|]);
    intros msg' Hmsg'; simplify_eq; by rewrite last_snoc.
Qed.

Lemma tick_without_namespaces_witness :
  exists σ',
    watcherTick (provider := WatcherExample.unreachable)
                WatcherExample.exporter (Example.world tt)
    = (σ', Ok WatcherExample.exporter)
    /\ fetched σ' = [].
Proof.
  destruct (tick_without_namespaces (provider := WatcherExample.unreachable)
              WatcherExample.exporter (Example.world tt)
              (Some "connection refused") [] (Some "connection refused")
              eq_refl eq_refl) as (σ' & Hrun & Hsent & _).
  by exists σ'.
Defined.

(** X13. A tick when the provider reports namespaces: the snapshot is
    replaced by the listings of the namespaces, concatenated in the order
    the namespaces were reported, a failed listing contributing nothing.
    Unlike the tick without namespaces, failures never keep the old
    snapshot: when every listing fails the snapshot becomes empty. *)
Theorem tick_with_namespaces {T : Type} {provider : ProviderListing}
        (e : Exporter) (σ : World T) (namespaces : list string) (namespacesErr : error) :
  getNamespaces = (namespaces, namespacesErr) ->
  namespaces <> [] ->
  (exists σ',
      watcherTick e σ
      = (σ', Ok (set_services (concat (map listedIn namespaces)) e))
      /\ fetched σ' = fetched σ
      /\ prometheus σ' = prometheus σ)
  /\ (Forall (fun namespace => is_Some (snd (getFunctions namespace))) namespaces ->
      concat (map listedIn namespaces) = []).
Proof.
  intros Hnamespaces Hsome. split.
  - unfold watcherTick. rewrite Hnamespaces.
    destruct namespaces as [|namespace namespaces]; [done|].
    change (length (namespace :: namespaces) =? 0)%nat with false. cbv iota.
    assert (Hrun : logsOnly (T:=T)
              (match namespacesErr with
               | Some msg => logPrintln msg
               | None => ret tt
               end ;;;
               services <- forRange (namespace :: namespaces) (fun namespace services =>
                 let (nsServices, err) := getFunctions namespace in
                 match err with
                 | Some msg => logPrintln msg ;;; ret services
                 | None => ret (services ++ nsServices)
                 end) [] ;;
               ret (set_services services e))
              (set_services (concat (map listedIn (namespace :: namespaces))) e)).
    { eapply logsOnly_bind.
      { destruct namespacesErr; [apply logsOnly_logPrintf | apply logsOnly_ret]. }
      eapply logsOnly_bind; [apply (listing_loop (namespace :: namespaces) [])|].
      apply logsOnly_ret. }
    destruct (Hrun σ) as [L E]. rewrite E. by eexists.
  - intros Hfail. clear Hnamespaces Hsome.
    induction Hfail as [|namespace namespaces [msg Hmsg] _ IH]; simpl; [done|].
    rewrite IH, app_nil_r. unfold listedIn.
    destruct (getFunctions namespace) as [nsServices err]. simpl in Hmsg. by rewrite Hmsg.
Qed.

Lemma tick_with_namespaces_witness :
  exists σ',
    watcherTick (provider := WatcherExample.twoNamespaces)
                WatcherExample.exporter (Example.world tt)
    = (σ', Ok (set_services [Example.function "fn1" "ns1"] WatcherExample.exporter)).
Proof.
  destruct (tick_with_namespaces (provider := WatcherExample.twoNamespaces)
              WatcherExample.exporter (Example.world tt) ["ns1"; "ns2"] None
              eq_refl ltac:(discriminate)) as [(σ' & Hrun & _) _].
  by exists σ'.
Defined.

(** ** A whole scrape *)

Section ScrapeFacts.
Context {lib : GoLibrary} {T : Type} {client : PrometheusQueryFetcher T}.

Lemma lastSet_fold (samples : list VectorSample) (k : list string) :
  forall acc,
    foldl (fun acc v => if decide (gaugeKey v = k) then Some (gaugeValue v) else acc)
          acc samples
    = match lastSet samples k with
      | Some x => Some x
      | None => acc
      end.
Proof.
  unfold lastSet. induction samples as [|v samples IH]; intros acc; simpl; [done|].
  rewrite (IH (if decide (gaugeKey v = k) then Some (gaugeValue v) else acc)),
          (IH (if decide (gaugeKey v = k) then Some (gaugeValue v) else None)).
  destruct (foldl _ None samples); [done|]. by case_decide.
Qed.

Lemma refreshed_lastSet (samples : list VectorSample) (gauge : Vec) (k : list string) :
  refreshed samples gauge !! k
  = match lastSet samples k with
    | Some x => Some x
    | None => gauge !! k
    end.
Proof.
  rewrite <- lastSet_fold. unfold refreshed. revert gauge.
  induction samples as [|v samples IH]; intros gauge; simpl; [done|].
  rewrite IH. by rewrite lookup_insert.
Qed.

Lemma lastSet_none (samples : list VectorSample) (k : list string) :
  Forall (fun v => gaugeKey v <> k) samples -> lastSet samples k = None.
Proof.
  unfold lastSet. induction 1 as [|v samples Hv _ IH]; simpl; [done|].
  by rewrite decide_False.
Qed.

Lemma resetGauges_lookup (e : Exporter) (k : list string) :
  PodCpuUsageSecondsTotal (metricOptions (resetGauges e)) !! k
  = (if decide (k ∈ snapshotKeys e) then Some 0%float
     else PodCpuUsageSecondsTotal (metricOptions e) !! k)
  /\ PodMemoryWorkingSetBytes (metricOptions (resetGauges e)) !! k
     = (if decide (k ∈ snapshotKeys e) then Some 0%float
        else PodMemoryWorkingSetBytes (metricOptions e) !! k).
Proof.
  case_decide as Hk.
  - unfold snapshotKeys in Hk. apply list_elem_of_fmap in Hk as (service & -> & Hin).
    by apply resetGauges_zero.
  - assert (Hother : Forall (fun service => [serviceName service] <> k) (services e)).
    { apply Forall_forall. intros service Hin Heq. apply Hk. unfold snapshotKeys.
      apply list_elem_of_fmap. by exists service. }
    unfold resetGauges. simpl.
    match goal with
    | |- context [foldl ?step ?o1 (services e)] =>
      destruct (zeroing_loop_other (services e) k Hother o1) as [Hcpu Hmem]
    end.
    simpl in Hcpu, Hmem. by rewrite Hcpu, Hmem.
Qed.

Lemma services_resetGauges (e : Exporter) : services (resetGauges e) = services e.
Proof. done. Qed.

Lemma Collect_runs (e : Exporter) (ch : list Sent) (σ : World T) p1 r1 p2 r2 :
  Fetch (prometheus σ) (QueryEscape calcCpuQuery) = (p1, (Some r1, None)) ->
  Forall stringValued (Result (Data r1)) ->
  Fetch p1 (QueryEscape calcMemoryQuery) = (p2, (Some r2, None)) ->
  Forall stringValued (Result (Data r2)) ->
  exists L ch',
    Collect e ch σ
    = ({| prometheus := p2;
          fetched := fetched σ ++ [QueryEscape calcCpuQuery; QueryEscape calcMemoryQuery];
          logged := logged σ ++ L |},
       Ok (scrapedExporter (Result (Data r1)) (Result (Data r2)) e, ch')).
Proof.
  intros F1 Hs1 F2 Hs2. unfold Collect. cbv zeta. unfold bind.
  destruct (calc_runs (resetGauges e) σ p1 r1 p2 r2 F1 Hs1 F2 Hs2) as [L E].
  rewrite E. by eexists _, _.
Qed.

Lemma scrapedExporter_lookup samples1 samples2 (e : Exporter) (k : list string) :
  PodCpuUsageSecondsTotal (metricOptions (scrapedExporter samples1 samples2 e)) !! k
  = scraped samples1 e (PodCpuUsageSecondsTotal (metricOptions e)) k
  /\ PodMemoryWorkingSetBytes (metricOptions (scrapedExporter samples1 samples2 e)) !! k
     = scraped samples2 e (PodMemoryWorkingSetBytes (metricOptions e)) k.
Proof.
  destruct (resetGauges_lookup e k) as [Hcpu Hmem].
  unfold scrapedExporter, scraped, set_metricOptions, set_gauges.
  cbn [metricOptions PodCpuUsageSecondsTotal PodMemoryWorkingSetBytes].
  rewrite !refreshed_lastSet. by rewrite Hcpu, Hmem.
Qed.

(** Whatever [calc] does, it leaves alone everything but the CPU and
    memory gauges. *)
Lemma calc_frame (e e' : Exporter) (σ σ' : World T) :
  calc e σ = (σ', Ok e') ->
  services e' = services e
  /\ FunctionNamespace e' = FunctionNamespace e
  /\ set_gauges (ServiceReplicasGauge (metricOptions e))
                (PodCpuUsageSecondsTotal (metricOptions e'))
                (PodMemoryWorkingSetBytes (metricOptions e'))
                (metricOptions e)
     = metricOptions e'.
Proof.
  intros E. unfold calc in E.
  unfold bind at 1, fetch at 1 in E.
  destruct (Fetch (prometheus σ) (QueryEscape calcCpuQuery)) as [p1 [q1Results [msg|]]].
  { unfold bind, logPrintf, ret in E. simplify_eq.
    by match goal with x : Exporter |- _ => destruct x as [[]] end. }
  cbv beta iota zeta in E. unfold bind at 1 in E.
  destruct q1Results as [r1|]; [|discriminate E].
  unfold deref, ret at 1 in E. cbv beta iota in E. unfold bind at 1 in E.
  match type of E with
  | context [setFromSamples ?f ?l ?g ?σ1] =>
    destruct (setFromSamples f l g σ1) as [σ1' [cpu|pp]]
  end; [|discriminate E].
  unfold bind at 1, fetch at 1 in E.
  destruct (Fetch (prometheus σ1') (QueryEscape calcMemoryQuery))
    as [p2 [q2Results [msg|]]].
  { unfold bind, logPrintf, ret in E. simplify_eq.
    by match goal with x : Exporter |- _ => destruct x as [[]] end. }
  cbv beta iota zeta in E. unfold bind at 1 in E.
  destruct q2Results as [r2|]; [|discriminate E].
  unfold deref, ret at 1 in E. cbv beta iota in E. unfold bind at 1 in E.
  match type of E with
  | context [setFromSamples ?f ?l ?g ?σ2] =>
    destruct (setFromSamples f l g σ2) as [σ2' [memory|pp]]
  end; [|discriminate E].
  unfold ret in E. simplify_eq.
    by match goal with x : Exporter |- _ => destruct x as [[]] end.
Qed.

End ScrapeFacts.

Section ReplicaGauge.

Lemma replica_fold_other (l : list types.FunctionStatus) (k : list string) :
  Forall (fun service => [serviceName service] <> k) l ->
  forall gauge : Vec,
    foldl (fun gauge service =>
             <[ [serviceName service] := float64_of_uint64 (types.Replicas service) ]> gauge)
          gauge l !! k
    = gauge !! k.
Proof.
  induction 1 as [|a l Ha _ IH]; intros gauge; simpl; [done|].
  rewrite IH. by rewrite lookup_insert_ne.
Qed.

Lemma replicaGauge_absent (snapshot : list types.FunctionStatus) (k : list string) :
  k ∉ map (fun service => [serviceName service]) snapshot ->
  replicaGauge snapshot !! k = None.
Proof.
  intros Hk. unfold replicaGauge. rewrite replica_fold_other; [done|].
  apply Forall_forall. intros service Hin Heq. apply Hk.
  apply list_elem_of_fmap. by exists service.
Qed.

Lemma replica_fold_present (l : list types.FunctionStatus) (service : types.FunctionStatus) :
  service ∈ l ->
  NoDup (map (fun service => [serviceName service]) l) ->
  forall gauge : Vec,
    foldl (fun gauge service =>
             <[ [serviceName service] := float64_of_uint64 (types.Replicas service) ]> gauge)
          gauge l !! [serviceName service]
    = Some (float64_of_uint64 (types.Replicas service)).
Proof.
  induction l as [|a l IH]; intros Hin Hnodup gauge; [by apply elem_of_nil in Hin|].
  simpl in *. apply NoDup_cons in Hnodup as [Ha Hnodup].
  apply elem_of_cons in Hin as [->|Hin]; [|by apply IH].
  rewrite replica_fold_other; [by rewrite lookup_insert_eq|].
  apply Forall_forall. intros service' Hin' Heq. apply Ha.
  apply list_elem_of_fmap. by exists service'.
Qed.

(** The loop of [Collect] over the snapshot changes the three gauges
    only. *)
Lemma resetGauges_frame (e : Exporter) :
  set_gauges (ServiceReplicasGauge (metricOptions (resetGauges e)))
             (PodCpuUsageSecondsTotal (metricOptions (resetGauges e)))
             (PodMemoryWorkingSetBytes (metricOptions (resetGauges e)))
             (metricOptions e)
  = metricOptions (resetGauges e).
Proof.
  assert (Hgen : forall (l : list types.FunctionStatus) (o : MetricOptions),
            let o' := foldl (fun o service =>
                        set_gauges
                          (WithLabelValues_Set (serviceName service)
                             (float64_of_uint64 (types.Replicas service))
                             (ServiceReplicasGauge o))
                          (WithLabelValues_Set (serviceName service) 0
                             (PodCpuUsageSecondsTotal o))
                          (WithLabelValues_Set (serviceName service) 0
                             (PodMemoryWorkingSetBytes o))
                          o) o l in
            set_gauges (ServiceReplicasGauge o') (PodCpuUsageSecondsTotal o')
                       (PodMemoryWorkingSetBytes o') o = o').
  { induction l as [|a l IH]; intros o; simpl; [by destruct o|].
    match goal with
    | |- context [foldl ?step ?o1 l] => specialize (IH o1)
    end.
    simpl in IH. rewrite <- IH at 4. reflexivity. }
  unfold resetGauges. cbv zeta.
  match goal with
  | |- context [foldl ?step ?o1 (services e)] => specialize (Hgen (services e) o1)
  end.
  simpl in *. rewrite <- Hgen at 4. reflexivity.
Qed.

End ReplicaGauge.

(** X14. What a scrape leaves in the CPU and memory gauges, series by
    series, when both queries of [calc] return string-valued samples: the
    value of the last sample that addresses the series (whatever
    [ParseFloat] returned for it, error or not); failing that, zero if
    the series belongs to a service of the snapshot; failing that, the
    value the series had before the scrape. *)
Theorem scrape_sets_gauges {lib : GoLibrary} {T : Type} {client : PrometheusQueryFetcher T}
        (e : Exporter) (ch : list Sent) (σ : World T) p1 r1 p2 r2 :
  Fetch (prometheus σ) (QueryEscape calcCpuQuery) = (p1, (Some r1, None)) ->
  Forall stringValued (Result (Data r1)) ->
  Fetch p1 (QueryEscape calcMemoryQuery) = (p2, (Some r2, None)) ->
  Forall stringValued (Result (Data r2)) ->
  exists σ' e' ch',
    Collect e ch σ = (σ', Ok (e', ch'))
    /\ forall k,
         PodCpuUsageSecondsTotal (metricOptions e') !! k
         = scraped (Result (Data r1)) e (PodCpuUsageSecondsTotal (metricOptions e)) k
         /\ PodMemoryWorkingSetBytes (metricOptions e') !! k
            = scraped (Result (Data r2)) e (PodMemoryWorkingSetBytes (metricOptions e)) k.
Proof.
  intros F1 Hs1 F2 Hs2.
  destruct (Collect_runs e ch σ p1 r1 p2 r2 F1 Hs1 F2 Hs2) as (L & ch' & E).
  eexists _, _, _. split; [exact E|]. intros k. apply scrapedExporter_lookup.
Qed.

Lemma scrape_sets_gauges_witness :
  exists σ' e' ch',
    Collect (lib := Example.library) (client := Example.scripted)
            WatcherExample.exporter [] (Example.world WatcherExample.replies)
    = (σ', Ok (e', ch'))
    /\ PodCpuUsageSecondsTotal (metricOptions e') !! ["fn1.ns1"] = Some 7%float
    /\ PodCpuUsageSecondsTotal (metricOptions e') !! ["fn2"] = Some 0%float
    /\ PodCpuUsageSecondsTotal (metricOptions e') !! ["gone.ns1"] = Some 5%float.
Proof.
  destruct (scrape_sets_gauges (lib := Example.library) (client := Example.scripted)
              WatcherExample.exporter [] (Example.world WatcherExample.replies)
              _ {| Status := "success";
                   Data := {| Result := [Example.sample "" "fn1" "ns1" "7"] |} |}
              _ {| Status := "success";
                   Data := {| Result := [Example.sample "" "fn1" "ns1" "1024"] |} |}
              eq_refl ltac:(repeat constructor; by eexists)
              eq_refl ltac:(repeat constructor; by eexists))
    as (σ' & e' & ch' & Hrun & Hgauges).
  exists σ', e', ch'. split; [exact Hrun|].
  split; [|split]; apply Hgauges.
Defined.

(** X15. What no scrape touches. Whenever [Collect] returns, whatever the
    backend answered, the snapshot, the namespace and the invocation
    counter, histogram, started counter and request summary are as they
    were, and the replica gauge holds the series of the snapshot and no
    other: a series of a service that left the snapshot is gone, and with
    distinct service names every service has its replica count. *)
Theorem scrape_frame {lib : GoLibrary} {T : Type} {client : PrometheusQueryFetcher T}
        (e e' : Exporter) (ch ch' : list Sent) (σ σ' : World T) :
  Collect e ch σ = (σ', Ok (e', ch')) ->
  services e' = services e
  /\ FunctionNamespace e' = FunctionNamespace e
  /\ GatewayFunctionInvocation (metricOptions e')
     = GatewayFunctionInvocation (metricOptions e)
  /\ GatewayFunctionsHistogram (metricOptions e')
     = GatewayFunctionsHistogram (metricOptions e)
  /\ GatewayFunctionInvocationStarted (metricOptions e')
     = GatewayFunctionInvocationStarted (metricOptions e)
  /\ GatewayFunctionRequestSummary (metricOptions e')
     = GatewayFunctionRequestSummary (metricOptions e)
  /\ ServiceReplicasGauge (metricOptions e') = replicaGauge (services e)
  /\ (forall k, k ∉ snapshotKeys e -> ServiceReplicasGauge (metricOptions e') !! k = None)
  /\ (NoDup (snapshotKeys e) ->
      forall service, service ∈ services e ->
        ServiceReplicasGauge (metricOptions e') !! [serviceName service]
        = Some (float64_of_uint64 (types.Replicas service))).
Proof.
  intros Hrun. unfold Collect in Hrun. cbv zeta in Hrun. unfold bind in Hrun.
  destruct (calc (resetGauges e) σ) as [σ1 [e1|p]] eqn:Ecalc; [|discriminate Hrun].
  unfold ret in Hrun. injection Hrun as _ He' _. subst e'.
  destruct (calc_frame _ _ _ _ Ecalc) as (Hservices & Hnamespace & Hoptions).
  pose proof (resetGauges_frame e) as Hreset.
  pose proof (resetGauges_replicas e) as Hreplicas.
  rewrite <- Hoptions. rewrite <- Hreset. unfold set_gauges.
  cbn [GatewayFunctionInvocation GatewayFunctionsHistogram
       GatewayFunctionInvocationStarted GatewayFunctionRequestSummary
       ServiceReplicasGauge].
  rewrite Hservices, Hnamespace, Hreplicas. fold (replicaGauge (services e)).
  repeat (split; [done|]). split.
  - intros k Hk. by apply replicaGauge_absent.
  - intros Hnodup service Hin. by apply replica_fold_present.
Qed.

Lemma scrape_frame_witness :
  exists σ' e' ch',
    Collect (lib := Example.library) (client := Example.scripted)
            WatcherExample.exporter [] (Example.world WatcherExample.replies)
    = (σ', Ok (e', ch'))
    /\ ServiceReplicasGauge (metricOptions e') !! ["gone.ns1"] = None
    /\ GatewayFunctionInvocation (metricOptions e')
       = GatewayFunctionInvocation (metricOptions WatcherExample.exporter).
Proof.
  destruct (Collect_runs (lib := Example.library) (client := Example.scripted)
              WatcherExample.exporter [] (Example.world WatcherExample.replies)
              _ {| Status := "success";
                   Data := {| Result := [Example.sample "" "fn1" "ns1" "7"] |} |}
              _ {| Status := "success";
                   Data := {| Result := [Example.sample "" "fn1" "ns1" "1024"] |} |}
              eq_refl ltac:(repeat constructor; by eexists)
              eq_refl ltac:(repeat constructor; by eexists))
    as (L & ch' & Hrun).
  destruct (scrape_frame (lib := Example.library) (client := Example.scripted)
              _ _ _ _ _ _ Hrun)
    as (_ & _ & Hcounter & _ & _ & _ & _ & Habsent & _).
  eexists _, _, _. split; [exact Hrun|]. split; [|exact Hcounter].
  apply Habsent. unfold snapshotKeys, WatcherExample.exporter. simpl.
  intros Hin. apply elem_of_cons in Hin as [Hin|Hin]; [discriminate Hin|].
  apply elem_of_cons in Hin as [Hin|Hin]; [discriminate Hin|].
  by apply elem_of_nil in Hin.
Defined.

Lemma scrapedExporter_replicas {lib : GoLibrary} samples1 samples2 (e : Exporter) :
  ServiceReplicasGauge (metricOptions (scrapedExporter samples1 samples2 e))
  = replicaGauge (services e).
Proof.
  unfold scrapedExporter, set_metricOptions, set_gauges.
  cbn [metricOptions ServiceReplicasGauge]. apply resetGauges_replicas.
Qed.

Lemma scrapedExporter_frame {lib : GoLibrary} samples1 samples2 (e : Exporter) :
  set_gauges (ServiceReplicasGauge (metricOptions (scrapedExporter samples1 samples2 e)))
             (PodCpuUsageSecondsTotal (metricOptions (scrapedExporter samples1 samples2 e)))
             (PodMemoryWorkingSetBytes (metricOptions (scrapedExporter samples1 samples2 e)))
             (metricOptions e)
  = metricOptions (scrapedExporter samples1 samples2 e).
Proof.
  pose proof (resetGauges_frame e) as Hframe.
  unfold scrapedExporter, set_metricOptions. cbn [metricOptions].
  revert Hframe. generalize (metricOptions (resetGauges e)). intros o Hframe.
  rewrite <- Hframe. reflexivity.
Qed.

(** X16. Gauges are set, not accumulated: a second scrape to which the
    backend gives the same replies, with the snapshot unchanged in
    between, leaves the exporter exactly as the first scrape left it. *)
Theorem scrape_idempotent {lib : GoLibrary} {T : Type} {client : PrometheusQueryFetcher T}
        (e : Exporter) (ch ch0 : list Sent) (σ : World T) p1 r1 p2 r2 p3 p4 :
  Fetch (prometheus σ) (QueryEscape calcCpuQuery) = (p1, (Some r1, None)) ->
  Forall stringValued (Result (Data r1)) ->
  Fetch p1 (QueryEscape calcMemoryQuery) = (p2, (Some r2, None)) ->
  Forall stringValued (Result (Data r2)) ->
  Fetch p2 (QueryEscape calcCpuQuery) = (p3, (Some r1, None)) ->
  Fetch p3 (QueryEscape calcMemoryQuery) = (p4, (Some r2, None)) ->
  exists σ1 e1 ch1 σ2 ch2,
    Collect e ch σ = (σ1, Ok (e1, ch1))
    /\ Collect e1 ch0 σ1 = (σ2, Ok (e1, ch2)).
Proof.
  intros F1 Hs1 F2 Hs2 F3 F4.
  destruct (Collect_runs e ch σ p1 r1 p2 r2 F1 Hs1 F2 Hs2) as (L1 & ch1 & E1).
  eexists _, _, _. 
  match type of E1 with
  | _ = (?σ1, _) =>
    destruct (Collect_runs (scrapedExporter (Result (Data r1)) (Result (Data r2)) e)
                ch0 σ1 p3 r1 p4 r2 F3 Hs1 F4 Hs2) as (L2 & ch2 & E2)
  end.
  eexists _, ch2. split; [exact E1|]. rewrite E2. f_equal. f_equal. f_equal.
  set (e1 := scrapedExporter (Result (Data r1)) (Result (Data r2)) e).
  assert (Hservices : services e1 = services e) by done.
  assert (Hkeys : snapshotKeys e1 = snapshotKeys e) by done.
  assert (Hcpu : PodCpuUsageSecondsTotal (metricOptions (scrapedExporter (Result (Data r1)) (Result (Data r2)) e1))
                 = PodCpuUsageSecondsTotal (metricOptions e1)).
  { apply map_eq. intros k.
    destruct (scrapedExporter_lookup (Result (Data r1)) (Result (Data r2)) e1 k) as [-> _].
    destruct (scrapedExporter_lookup (Result (Data r1)) (Result (Data r2)) e k) as [Hk _].
    fold e1 in Hk. unfold scraped at 1. rewrite Hkeys, Hk. unfold scraped.
    destruct (lastSet (Result (Data r1)) k); [done|]. by case_decide. }
  assert (Hmem : PodMemoryWorkingSetBytes (metricOptions (scrapedExporter (Result (Data r1)) (Result (Data r2)) e1))
                 = PodMemoryWorkingSetBytes (metricOptions e1)).
  { apply map_eq. intros k.
    destruct (scrapedExporter_lookup (Result (Data r1)) (Result (Data r2)) e1 k) as [_ ->].
    destruct (scrapedExporter_lookup (Result (Data r1)) (Result (Data r2)) e k) as [_ Hk].
    fold e1 in Hk. unfold scraped at 1. rewrite Hkeys, Hk. unfold scraped.
    destruct (lastSet (Result (Data r2)) k); [done|]. by case_decide. }
  assert (Hreplicas : ServiceReplicasGauge (metricOptions (scrapedExporter (Result (Data r1)) (Result (Data r2)) e1))
                      = ServiceReplicasGauge (metricOptions e1)).
  { unfold e1 at 2. by rewrite !scrapedExporter_replicas, Hservices. }
  assert (Hoptions : metricOptions (scrapedExporter (Result (Data r1)) (Result (Data r2)) e1)
                     = metricOptions e1).
  { rewrite <- (scrapedExporter_frame (Result (Data r1)) (Result (Data r2)) e1).
    rewrite Hcpu, Hmem, Hreplicas. by destruct (metricOptions e1). }
  transitivity (set_metricOptions
                  (metricOptions (scrapedExporter (Result (Data r1)) (Result (Data r2)) e1))
                  e1).
  - reflexivity.
  - rewrite Hoptions. by destruct e1.
Qed.

Lemma scrape_idempotent_witness :
  exists σ1 e1 ch1 σ2 ch2,
    Collect (lib := Example.library) (client := Example.scripted)
            WatcherExample.exporter [] (Example.world WatcherExample.replies)
    = (σ1, Ok (e1, ch1))
    /\ Collect (lib := Example.library) (client := Example.scripted) e1 [] σ1
       = (σ2, Ok (e1, ch2)).
Proof.
  apply (scrape_idempotent (lib := Example.library) (client := Example.scripted)
           WatcherExample.exporter [] [] (Example.world WatcherExample.replies)
           _ {| Status := "success";
                Data := {| Result := [Example.sample "" "fn1" "ns1" "7"] |} |}
           _ {| Status := "success";
                Data := {| Result := [Example.sample "" "fn1" "ns1" "1024"] |} |}
           _ _ eq_refl ltac:(repeat constructor; by eexists)
           eq_refl ltac:(repeat constructor; by eexists) eq_refl eq_refl).
Defined.

(** ** Malformed replies *)

Section MalformedReplies.
Context {lib : GoLibrary} {T : Type} {client : PrometheusQueryFetcher T}.

Lemma setFromSamples_panics (format : string) (pre post : list VectorSample)
      (v : VectorSample) :
  Forall stringValued pre ->
  ~ stringValued v ->
  forall gauge,
    panicsAfterLogs (T:=T) (setFromSamples format (pre ++ v :: post) gauge) TypeAssertion.
Proof.
  intros Hpre Hv. unfold setFromSamples.
  induction Hpre as [|v' pre [value Hv'] _ IH]; intros gauge; simpl.
  - apply panicsAfterLogs_bind_l, panicsAfterLogs_bind_l.
    destruct (snd (Value v)) eqn:E; try (intros σ; exists []; by rewrite addLogs_nil).
    destruct Hv. by eexists.
  - rewrite Hv'.
    eapply (panicsAfterLogs_bind_r _ _
              (WithLabelValues_Set
                 (Metric.Container (Metric v') +:+ "." +:+ Metric.Namespace (Metric v'))
                 (fst (ParseFloat value)) gauge)); [|apply IH].
    eapply logsOnly_bind; [apply logsOnly_ret|]. cbv beta.
    destruct (ParseFloat value) as [f err]. simpl.
    eapply logsOnly_bind; [apply logsOnly_logPrintf | apply logsOnly_ret].
Qed.

End MalformedReplies.

(** X17. Replies [calc] does not survive. A nil result handed back
    without an error, or a sample whose value is not a string, makes the
    scrape panic (nil dereference, failed type assertion): [Collect]
    panics after the CPU query, the memory query is never sent, and
    nothing of the gauges is sent on the channel. *)
Theorem malformed_reply_panics {lib : GoLibrary} {T : Type}
        {client : PrometheusQueryFetcher T}
        (e : Exporter) (ch : list Sent) (σ : World T) :
  (forall p1,
      Fetch (prometheus σ) (QueryEscape calcCpuQuery) = (p1, (None, None)) ->
      exists σ',
        Collect e ch σ = (σ', Panic NilDereference)
        /\ fetched σ' = fetched σ ++ [QueryEscape calcCpuQuery])
  /\ (forall p1 r1 pre v post,
        Fetch (prometheus σ) (QueryEscape calcCpuQuery) = (p1, (Some r1, None)) ->
        Result (Data r1) = pre ++ v :: post ->
        Forall stringValued pre ->
        ~ stringValued v ->
        exists σ',
          Collect e ch σ = (σ', Panic TypeAssertion)
          /\ fetched σ' = fetched σ ++ [QueryEscape calcCpuQuery]).
Proof.
  split.
  - intros p1 F1. unfold Collect. cbv zeta. unfold bind at 1, calc.
    unfold bind at 1, fetch at 1. rewrite F1. by eexists.
  - intros p1 r1 pre v post F1 Hsplit Hpre Hv. unfold Collect. cbv zeta.
    unfold bind at 1, calc. unfold bind at 1, fetch at 1. rewrite F1.
    cbv beta iota zeta. unfold bind at 1. unfold deref, ret at 1. cbv beta iota.
    unfold bind at 1. rewrite Hsplit.
    match goal with
    | |- context [setFromSamples ?f ?l ?g ?σ1] =>
      destruct (setFromSamples_panics f pre post v Hpre Hv g σ1) as [L E]; rewrite E
    end.
    by eexists.
Qed.

Lemma malformed_reply_panics_witness :
  (exists σ',
      Collect (lib := Example.library) (client := Example.scripted)
              WatcherExample.exporter [] (Example.world ScrapeExample.nilReply)
      = (σ', Panic NilDereference))
  /\ (exists σ',
        Collect (lib := Example.library) (client := Example.scripted)
                WatcherExample.exporter [] (Example.world ScrapeExample.numericReply)
        = (σ', Panic TypeAssertion)).
Proof.
  destruct (malformed_reply_panics (lib := Example.library) (client := Example.scripted)
              WatcherExample.exporter [] (Example.world ScrapeExample.nilReply))
    as [Hnil _].
  destruct (malformed_reply_panics (lib := Example.library) (client := Example.scripted)
              WatcherExample.exporter [] (Example.world ScrapeExample.numericReply))
    as [_ Hnumeric].
  split.
  - destruct (Hnil _ eq_refl) as (σ' & Hrun & _). by exists σ'.
  - destruct (Hnumeric _
                {| Status := "success";
                   Data := {| Result := [Example.sample "" "fn1" "ns1" "7";
                                         ScrapeExample.numeric] |} |}
                [Example.sample "" "fn1" "ns1" "7"] ScrapeExample.numeric []
                eq_refl eq_refl ltac:(repeat constructor; by eexists)
                ltac:(intros [value Hvalue]; discriminate Hvalue))
      as (σ' & Hrun & _).
    by exists σ'.
Defined.

(** ** Services without a namespace *)

Lemma containsDot_key (container namespace : string) :
  containsDot (container +:+ "." +:+ namespace) = true.
Proof.
  induction container as [|c container IH]; simpl; [done|].
  rewrite IH. by destruct (Ascii.eqb c ".").
Qed.

(** X18. The two halves of [Collect] key the gauges differently. A
    service without namespace is labelled with its bare name, while
    [calc] always labels a sample [container.namespace]. So if such a
    service's name holds no dot, no sample can ever address its series:
    after every scrape that succeeds, its CPU and memory gauges are
    zero. *)
Theorem undotted_service_stays_zero {lib : GoLibrary} {T : Type}
        {client : PrometheusQueryFetcher T}
        (e : Exporter) (ch : list Sent) (σ : World T) p1 r1 p2 r2
        (service : types.FunctionStatus) :
  Fetch (prometheus σ) (QueryEscape calcCpuQuery) = (p1, (Some r1, None)) ->
  Forall stringValued (Result (Data r1)) ->
  Fetch p1 (QueryEscape calcMemoryQuery) = (p2, (Some r2, None)) ->
  Forall stringValued (Result (Data r2)) ->
  service ∈ services e ->
  types.Namespace service = "" ->
  containsDot (types.Name service) = false ->
  exists σ' e' ch',
    Collect e ch σ = (σ', Ok (e', ch'))
    /\ PodCpuUsageSecondsTotal (metricOptions e') !! [types.Name service] = Some 0%float
    /\ PodMemoryWorkingSetBytes (metricOptions e') !! [types.Name service] = Some 0%float.
Proof.
  intros F1 Hs1 F2 Hs2 Hin Hnamespace Hdot.
  destruct (Collect_runs e ch σ p1 r1 p2 r2 F1 Hs1 F2 Hs2) as (L & ch' & E).
  eexists _, _, _. split; [exact E|].
  destruct (scrapedExporter_lookup (Result (Data r1)) (Result (Data r2)) e
              [types.Name service]) as [-> ->].
  assert (Hkey : forall samples : list VectorSample,
             lastSet samples [types.Name service] = None).
  { intros samples. apply lastSet_none, Forall_forall. intros v _ Heq.
    unfold gaugeKey in Heq. injection Heq as Heq.
    rewrite <- Heq, containsDot_key in Hdot. discriminate Hdot. }
  assert (Hsnapshot : [types.Name service] ∈ snapshotKeys e).
  { unfold snapshotKeys. apply list_elem_of_fmap. exists service. split; [|done].
    unfold serviceName. by rewrite Hnamespace. }
  unfold scraped. rewrite !Hkey. by rewrite !decide_True.
Qed.

Lemma undotted_service_stays_zero_witness :
  exists σ' e' ch',
    Collect (lib := Example.library) (client := Example.scripted)
            WatcherExample.exporter [] (Example.world WatcherExample.replies)
    = (σ', Ok (e', ch'))
    /\ PodCpuUsageSecondsTotal (metricOptions e') !! ["fn2"] = Some 0%float
    /\ PodMemoryWorkingSetBytes (metricOptions e') !! ["fn2"] = Some 0%float.
Proof.
  apply (undotted_service_stays_zero (lib := Example.library) (client := Example.scripted)
           WatcherExample.exporter [] (Example.world WatcherExample.replies)
           _ {| Status := "success";
                Data := {| Result := [Example.sample "" "fn1" "ns1" "7"] |} |}
           _ {| Status := "success";
                Data := {| Result := [Example.sample "" "fn1" "ns1" "1024"] |} |}
           (Example.function "fn2" "")
           eq_refl ltac:(repeat constructor; by eexists)
           eq_refl ltac:(repeat constructor; by eexists)
           ltac:(right; left) eq_refl eq_refl).
Defined.

(** ** The earlier revision of the handler ([part_001]) *)

Section Part001Facts.
Context {lib : GoLibrary} {T : Type} {client : PrometheusQueryFetcher T}.

Lemma part001_timeBody_runs i function samples :
  forall l r num, l !! i = Some r ->
    let vs := matchedValues (matchesContainer function) samples in
    logsOnly (T:=T) (forRange samples (Part001.timeBody i function) (l, num))
             (<[i := set_InvocationAvgTime (sumFrom (InvocationAvgTime r) vs) r]> l,
              Nat.iter (length vs) (fun n => (n + 1)%float) num).
Proof.
  induction samples as [|v samples IH]; intros l r num Hi; simpl.
  - rewrite set_InvocationAvgTime_id, list_insert_id by done. apply logsOnly_ret.
  - unfold matchedValues in *. simpl. unfold Part001.timeBody at 1, parsedValue.
    destruct (matchesContainer function v);
      [|eapply logsOnly_bind; [apply logsOnly_ret | by apply IH]].
    destruct (snd (Value v));
      try (eapply logsOnly_bind; [apply logsOnly_ret | by apply IH]).
    destruct (ParseFloat s) as [f [e|]]; simpl.
    + eapply logsOnly_bind; [|by apply IH].
      eapply logsOnly_bind; [apply logsOnly_logPrintf | apply logsOnly_ret].
    + eapply logsOnly_bind.
      { eapply logsOnly_bind; [apply logsOnly_logPrintf|].
        eapply logsOnly_bind; [|apply logsOnly_ret].
        eapply logsOnly_updateAt; [done | apply logsOnly_ret]. }
      assert (Hlen : (i < length l)%nat) by (eapply lookup_lt_Some; eauto).
      specialize (IH (<[i := set_InvocationAvgTime (InvocationAvgTime r + f) r]> l)
                     (set_InvocationAvgTime (InvocationAvgTime r + f) r)
                     (num + 1)%float).
      rewrite list_lookup_insert_eq in IH by done. specialize (IH eq_refl).
      rewrite list_insert_insert_eq in IH.
      pose proof (Nat.iter_succ_r
                    (length (omap (fun v => if matchesContainer function v
                                            then parsedValue v else None) samples))
                    (fun n => (n + 1)%float) num) as Hiter.
      simpl in Hiter. rewrite <- Hiter in IH. clear Hiter.
      clear Hi. destruct r. exact IH.
Qed.

Lemma part001_mixTime_runs (functions : list FunctionStatus) (m : VectorQueryResponse) :
  logsOnly (T:=T) (Part001.mixTime functions (Some m))
           (map (Part001.mixTime_record (Result (Data m))) functions).
Proof.
  unfold Part001.mixTime.
  eapply logsOnly_bind; [apply logsOnly_deref|].
  eapply logsOnly_bind; [apply logsOnly_logPrintf|].
  apply (logsOnly_forIndex _ _ (fun _ => True)); [|by apply Forall_true].
  intros i l a Hi _. rewrite Hi.
  eapply logsOnly_bind.
  { apply (part001_timeBody_runs i a (Result (Data m)) l a 0%float Hi). }
  simpl. unfold Part001.mixTime_record, float64_count.
  set (vs := matchedValues (matchesContainer a) (Result (Data m))).
  set (num := Nat.iter (length vs) _ _).
  assert (Hlen : (i < length l)%nat) by (eapply lookup_lt_Some; eauto).
  replace (<[i := set_InvocationAvgTime
                    (sumFrom (InvocationAvgTime a) vs / num) a]> l)
    with (<[i := set_InvocationAvgTime
                   (InvocationAvgTime
                      (set_InvocationAvgTime (sumFrom (InvocationAvgTime a) vs) a) / num)
                   (set_InvocationAvgTime (sumFrom (InvocationAvgTime a) vs) a)]>
          (<[i := set_InvocationAvgTime (sumFrom (InvocationAvgTime a) vs) a]> l)).
  - eapply logsOnly_updateAt; [by apply list_lookup_insert_eq | apply logsOnly_ret].
  - rewrite list_insert_insert_eq. by destruct a.
Qed.

End Part001Facts.

(** X19. [mixTime] of the earlier revision divides by the match count
    without a guard. It always returns, every record's average being the
    float64 sum of its prior value and its matching values divided by the
    float64 count of the matches; for a record that no sample matches the
    count is zero, so a zero average becomes NaN. *)
Theorem part001_mixTime_unguarded {lib : GoLibrary} {T : Type}
        (functions : list FunctionStatus) (m : VectorQueryResponse) (σ : World T) :
  exists functions',
    returns (Part001.mixTime functions (Some m)) σ functions'
    /\ Forall2 (fun r r' =>
                  let vs := matchedValues (matchesContainer r) (Result (Data m)) in
                  r' = set_InvocationAvgTime
                         (sumFrom (InvocationAvgTime r) vs / float64_count (length vs))%float
                         r
                  /\ (vs = [] -> InvocationAvgTime r = 0%float ->
                      InvocationAvgTime r' = nan))
               functions functions'.
Proof.
  eexists. split; [apply logsOnly_returns, part001_mixTime_runs|].
  apply Forall2_fmap_r, Forall_Forall2_diag, Forall_true.
  intros r. simpl. split; [done|]. intros Hnone Hzero.
  unfold Part001.mixTime_record. rewrite Hnone, Hzero. reflexivity.
Qed.

(** X20. The handler of the earlier revision declares its output slice
    and never grows it, while the zero-initialisation assigns through
    [functions[i]]. So on every upstream list with at least one record it
    panics with an index out of range before it sends a query, logs or
    writes anything; and since the slice stays empty otherwise, no run of
    that handler ever queries the backend. *)
Theorem part001_handler_never_enriches {lib : GoLibrary} {T : Type}
        {client : PrometheusQueryFetcher T} :
  (forall (recorder : Recorder) (w : ResponseWriter) (σ : World T),
      fetched (fst (Part001.AddMetricsHandler recorder w σ)) = fetched σ)
  /\ (forall (recorder : Recorder) (w : ResponseWriter) (σ : World T) body first rest,
        Body recorder = Some body ->
        Code recorder = StatusOK ->
        Unmarshal body = (first :: rest, None) ->
        Part001.AddMetricsHandler recorder w σ = (σ, Panic IndexOutOfRange)).
Proof.
  split.
  - intros recorder w σ. unfold Part001.AddMetricsHandler.
    destruct (Body recorder) as [body|]; [|done].
    destruct (negb (Code recorder =? StatusOK)%Z); [done|].
    destruct (Unmarshal body) as [[|first rest] [e|]]; try done.
    unfold bind. simpl. unfold ret. by destruct (Marshal []) as [bytesOut [e|]].
  - intros recorder w σ body first rest Hbody Hcode Hparse.
    unfold Part001.AddMetricsHandler. rewrite Hbody, Hcode, Hparse. reflexivity.
Qed.

Lemma part001_handler_never_enriches_witness :
  Part001.AddMetricsHandler (lib := Example.library) (client := Example.scripted)
    HandlerExample.listing newResponseWriter (Example.world HandlerExample.answers)
  = (Example.world HandlerExample.answers, Panic IndexOutOfRange).
Proof.
  apply (part001_handler_never_enriches (lib := Example.library)
           (client := Example.scripted))
    with (body := "[fn1.ns1]") (first := Example.function "fn1" "ns1") (rest := []);
    reflexivity.
Defined.

(** ** What every returning run guarantees *)

Lemma ensures_ret {T A} (a : A) (P : A -> Prop) : P a -> ensures (@ret T A a) P.
Proof. intros Ha σ σ' a' E. unfold ret in E. by simplify_eq. Qed.

Lemma ensures_throw {T A} (p : panic) (P : A -> Prop) : ensures (@throw T A p) P.
Proof. intros σ σ' a E. discriminate E. Qed.

Lemma ensures_any {T A} (m : M T A) : ensures m (fun _ => True).
Proof. by intros σ σ' a E. Qed.

Lemma ensures_bind {T A B} (m : M T A) (k : A -> M T B) (Q : A -> Prop) (P : B -> Prop) :
  ensures m Q -> (forall a, Q a -> ensures (k a) P) -> ensures (bind m k) P.
Proof.
  intros Hm Hk σ σ' b E. unfold bind in E.
  destruct (m σ) as [σ1 [a|p]] eqn:Em; [|discriminate E].
  eapply Hk; [eapply Hm; exact Em | exact E].
Qed.

Lemma ensures_weaken {T A} (m : M T A) (Q P : A -> Prop) :
  ensures m Q -> (forall a, Q a -> P a) -> ensures m P.
Proof. intros Hm HQP σ σ' a E. eapply HQP, Hm, E. Qed.

Lemma ensures_okOrPanic {T A} (m : M T A) (a : A) :
  okOrPanic m a -> ensures m (fun a' => a' = a).
Proof.
  intros Hm σ σ' a' E. destruct (Hm σ) as [L [E'|[p E']]]; rewrite E' in E; by simplify_eq.
Qed.

Lemma metricsOnly_refl (r : FunctionStatus) : metricsOnly r r.
Proof. by destruct r. Qed.

Lemma metricsOnly_trans (r1 r2 r3 : FunctionStatus) :
  metricsOnly r1 r2 -> metricsOnly r2 r3 -> metricsOnly r1 r3.
Proof.
  unfold metricsOnly. intros H12 H23. rewrite H23 at 1. rewrite H12 at 1. reflexivity.
Qed.

Lemma metricsOnly_joinRecord {lib : GoLibrary} (j : Join) samples (r : FunctionStatus) :
  metricsOnly r (joinRecord j samples r).
Proof.
  destruct j; simpl;
    unfold metricsOnly, mixIn_record, mixCPU_record, mixMemory_record, mixTime_record;
    destruct r as [? ? ? ? ? ? ? ? ? ? ? ? ? ? ? ? ? [u|]]; simpl; try reflexivity.
  all: by destruct (negb _).
Qed.

Section EnrichmentFrame.
Context {lib : GoLibrary} {T : Type} {client : PrometheusQueryFetcher T}.

(** Whatever the client answers, a run of the four queries that returns
    has applied the four joins to results that were not nil. *)
Lemma queryAndMix_ensures (functions : list FunctionStatus) :
  ensures (queryAndMix functions)
          (fun functions' => exists m1 m2 m3 m4,
               functions' = enriched m1 m2 m3 m4 functions).
Proof.
  unfold queryAndMix.
  destruct (functions !! 0%nat) as [first|] eqn:Hfirst; [|apply ensures_throw].
  cbv zeta.
  eapply ensures_bind; [apply ensures_any|]. intros [results err] _.
  eapply ensures_bind; [apply ensures_any|]. intros _ _.
  eapply (ensures_bind _ _
            (fun l => exists m1, l = map (mixIn_record (Result (Data m1))) functions)).
  { destruct results as [m1|].
    - eapply ensures_weaken;
        [apply ensures_okOrPanic, logsOnly_okOrPanic, mixIn_runs|].
      intros l ->. by eexists.
    - destruct functions as [|r functions]; [done|]. intros σ σ' a E. discriminate E. }
  intros l1 [m1 ->].
  eapply ensures_bind; [apply ensures_any|]. intros [results1 err1] _.
  eapply ensures_bind; [apply ensures_any|]. intros _ _.
  eapply (ensures_bind _ _
            (fun l => exists m2,
                 l = map (mixCPU_record (Result (Data m2)))
                         (map (mixIn_record (Result (Data m1))) functions))).
  { destruct results1 as [m2|]; [|intros σ σ' a E; discriminate E].
    eapply ensures_weaken; [apply ensures_okOrPanic, mixCPU_okOrPanic|].
    intros l ->. by eexists. }
  intros l2 [m2 ->].
  eapply ensures_bind; [apply ensures_any|]. intros [results2 err2] _.
  eapply ensures_bind; [apply ensures_any|]. intros _ _.
  eapply (ensures_bind _ _
            (fun l => exists m3,
                 l = map (mixMemory_record (Result (Data m3)))
                         (map (mixCPU_record (Result (Data m2)))
                              (map (mixIn_record (Result (Data m1))) functions)))).
  { destruct results2 as [m3|]; [|intros σ σ' a E; discriminate E].
    eapply ensures_weaken; [apply ensures_okOrPanic, mixMemory_okOrPanic|].
    intros l ->. by eexists. }
  intros l3 [m3 ->].
  eapply ensures_bind; [apply ensures_any|]. intros [results3 err3] _.
  eapply ensures_bind; [apply ensures_any|]. intros _ _.
  destruct results3 as [m4|]; [|intros σ σ' a E; discriminate E].
  eapply ensures_weaken; [apply ensures_okOrPanic, logsOnly_okOrPanic, mixTime_runs|].
  intros l ->. by exists m1, m2, m3, m4.
Qed.

Lemma enriched_metricsOnly m1 m2 m3 m4 (functions : list FunctionStatus) :
  Forall2 metricsOnly functions (enriched m1 m2 m3 m4 functions).
Proof.
  unfold enriched. rewrite !map_map.
  apply Forall2_fmap_r, Forall_Forall2_diag, Forall_true. intros r.
  eapply metricsOnly_trans; [apply (metricsOnly_joinRecord CountJoin)|].
  eapply metricsOnly_trans; [apply (metricsOnly_joinRecord CPUJoin)|].
  eapply metricsOnly_trans; [apply (metricsOnly_joinRecord MemoryJoin)|].
  apply (metricsOnly_joinRecord AvgTimeJoin).
Qed.

Lemma enrich_ensures (function : list types.FunctionStatus) :
  ensures (enrich function)
          (fun functions => Forall2 (fun f r => metricsOnly (zeroed f) r) function functions).
Proof.
  unfold enrich. rewrite zeroInit_map.
  destruct (0 <? length (map zeroed function))%nat.
  - eapply ensures_weaken; [apply queryAndMix_ensures|].
    intros functions (m1 & m2 & m3 & m4 & ->).
    change (Forall2 (metricsOnly ∘ zeroed) function
                    (enriched m1 m2 m3 m4 (map zeroed function))).
    apply Forall2_fmap_l, enriched_metricsOnly.
  - apply ensures_ret. apply Forall2_fmap_r, Forall_Forall2_diag, Forall_true.
    intros f. apply metricsOnly_refl.
Qed.

End EnrichmentFrame.

(** X21. Whatever the backend answers, error or not, an enrichment that
    returns has neither dropped, added, reordered nor renamed a record:
    the list it returns matches the parsed list record by record, each
    record being the zero-initialised copy of the parsed one up to its
    three metric fields. *)
Theorem enrichment_keeps_records {lib : GoLibrary} {T : Type}
        {client : PrometheusQueryFetcher T}
        (function : list types.FunctionStatus) (functions : list FunctionStatus)
        (σ σ' : World T) :
  enrich function σ = (σ', Ok functions) ->
  Forall2 (fun f r => metricsOnly (zeroed f) r) function functions
  /\ length functions = length function
  /\ map Name functions = map types.Name function
  /\ map Namespace functions = map types.Namespace function.
Proof.
  intros Hrun. pose proof (enrich_ensures function σ σ' functions Hrun) as Hframe.
  split; [exact Hframe|]. split; [symmetry; by eapply Forall2_length|].
  clear Hrun. induction Hframe as [|f r function functions Hr _ [IHname IHnamespace]];
    simpl; [done|].
  rewrite IHname, IHnamespace. rewrite Hr. by split.
Qed.

Lemma enrichment_keeps_records_witness :
  exists σ' functions,
    enrich (lib := Example.library) (client := Example.scripted)
           [Example.function "fn1" "ns1"] (Example.world HandlerExample.answers)
    = (σ', Ok functions)
    /\ map Name functions = ["fn1"].
Proof.
  eexists _, _. split; [vm_compute; reflexivity|].
  match goal with
  | |- map Name ?functions = _ =>
    destruct (enrichment_keeps_records (lib := Example.library)
                (client := Example.scripted)
                [Example.function "fn1" "ns1"] functions
                (Example.world HandlerExample.answers) _
                ltac:(vm_compute; reflexivity)) as (_ & _ & Hnames & _)
  end.
  exact Hnames.
Defined.

(** X22. A 200 from the handler is always an enriched list. Whatever
    the upstream captured and whatever the backend answers, if the
    handler returns having set status 200 on a fresh writer, then the
    upstream had answered 200 with a body that parsed, the body written
    is the encoding of a list that matches the parsed records one by one
    up to the metric fields, and the content type is [application/json]. *)
Theorem ok_reply_is_enriched_list {lib : GoLibrary} {T : Type}
        {client : PrometheusQueryFetcher T}
        (recorder : Recorder) (w w' : ResponseWriter) (σ σ' : World T) :
  AddMetricsHandler recorder w σ = (σ', Ok w') ->
  status w = None ->
  status w' = Some StatusOK ->
  exists body function functions bytesOut,
    Body recorder = Some body
    /\ Code recorder = StatusOK
    /\ Unmarshal body = (function, None)
    /\ Forall2 (fun f r => metricsOnly (zeroed f) r) function functions
    /\ Marshal functions = (bytesOut, None)
    /\ replied w w' StatusOK "application/json" bytesOut.
Proof.
  intros Hrun Hfresh Hok. unfold AddMetricsHandler in Hrun.
  destruct (Body recorder) as [body|].
  2: { unfold bind, logPrintln, logPrintf, ret in Hrun. simplify_eq. }
  destruct (negb (Code recorder =? StatusOK)%Z) eqn:Hcode.
  { unfold bind, logPrintf, ret in Hrun. simplify_eq. simpl in Hok.
    rewrite Hfresh in Hok. simplify_eq.
    rewrite Hok in Hcode. discriminate Hcode. }
  apply negb_false_iff, Z.eqb_eq in Hcode.
  destruct (Unmarshal body) as [function [e|]] eqn:Hparse.
  { unfold bind, logPrintf, ret in Hrun. simplify_eq. simpl in Hok.
    rewrite Hfresh in Hok. discriminate Hok. }
  unfold bind at 1 in Hrun.
  destruct (enrich function σ) as [σ1 [functions|p]] eqn:Henrich; [|discriminate Hrun].
  pose proof (enrich_ensures function σ σ1 functions Henrich) as Hframe.
  destruct (Marshal functions) as [bytesOut [e|]] eqn:Hencode.
  { unfold bind, logPrintf, ret in Hrun. simplify_eq. simpl in Hok.
    rewrite Hfresh in Hok. discriminate Hok. }
  unfold ret in Hrun. simplify_eq.
  exists body, function, functions, bytesOut. do 5 (split; [done|]).
  unfold replied. simpl. rewrite Hfresh. split; [done|]. by rewrite lookup_insert_eq.
Qed.

Lemma ok_reply_is_enriched_list_witness :
  exists σ' w' function functions,
    AddMetricsHandler (lib := Example.library) (client := Example.scripted)
      HandlerExample.listing newResponseWriter (Example.world HandlerExample.answers)
    = (σ', Ok w')
    /\ Unmarshal (GoLibrary := Example.library) "[fn1.ns1]" = (function, None)
    /\ Forall2 (fun f r => metricsOnly (zeroed f) r) function functions
    /\ written w' = "[fn1.ns1]".
Proof.
  eexists _, _. 
  match goal with
  | |- exists function functions, AddMetricsHandler ?r ?w ?σ = (?σ', Ok ?w') /\ _ =>
    assert (Hrun : AddMetricsHandler (lib := Example.library) (client := Example.scripted)
                     r w σ = (σ', Ok w')) by (vm_compute; reflexivity);
    destruct (ok_reply_is_enriched_list (lib := Example.library)
                (client := Example.scripted) r w w' σ σ' Hrun eq_refl eq_refl)
      as (body & function & functions & bytesOut & Hbody & _ & Hparse & Hframe & _ & Hreply)
  end.
  injection Hbody as <-.
  exists function, functions. split; [exact Hrun|]. split; [exact Hparse|].
  split; [exact Hframe|]. reflexivity.
Defined.

(** ** The queries of a scrape *)

Section ScrapeQueries.
Context {lib : GoLibrary} {T : Type} {client : PrometheusQueryFetcher T}.

Lemma quiet_setFromSamples (format : string) (samples : list VectorSample) :
  forall gauge, quiet (T:=T) (setFromSamples format samples gauge).
Proof.
  unfold setFromSamples. induction samples as [|v samples IH]; intros gauge; simpl.
  - eapply quiet_logsOnly, logsOnly_ret.
  - apply quiet_bind; [|intros gauge'; apply IH].
    apply quiet_bind.
    + destruct (snd (Value v));
        first [apply quiet_throw | eapply quiet_logsOnly, logsOnly_ret].
    + intros value. destruct (ParseFloat value) as [f err].
      eapply quiet_logsOnly, logsOnly_bind; [apply logsOnly_logPrintf | apply logsOnly_ret].
Qed.

End ScrapeQueries.

(** X23. The query budget of a scrape, for every client: [Collect] always
    sends the CPU query of [calc] first, and after it at most the memory
    query; nothing else goes to the backend, whether the scrape returns
    or panics. *)
Theorem scrape_query_budget {lib : GoLibrary} {T : Type}
        {client : PrometheusQueryFetcher T}
        (e : Exporter) (ch : list Sent) (σ : World T) :
  exists sent,
    fetched (fst (Collect e ch σ))
    = fetched σ ++ QueryEscape calcCpuQuery :: sent
    /\ sent `prefix_of` [QueryEscape calcMemoryQuery].
Proof.
  assert (Hcalc : forall e : Exporter, exists sent,
             fetched (fst (calc e σ)) = fetched σ ++ QueryEscape calcCpuQuery :: sent
             /\ sent `prefix_of` [QueryEscape calcMemoryQuery]).
  { intros e0. unfold calc. cbv zeta.
    apply sendsPrefixOf_fetch. intros [q1Results [msg|]].
    { eapply sendsPrefixOf_quiet, quiet_logsOnly, logsOnly_bind;
        [apply logsOnly_logPrintf | apply logsOnly_ret]. }
    apply sendsPrefixOf_bind_quiet.
    { destruct q1Results; [eapply quiet_logsOnly, logsOnly_ret | apply quiet_throw]. }
    intros r1. apply sendsPrefixOf_bind_quiet; [apply quiet_setFromSamples|].
    intros cpu. apply sendsPrefixOf_cons. intros [q2Results [msg|]].
    { eapply sendsPrefixOf_quiet, quiet_logsOnly, logsOnly_bind;
        [apply logsOnly_logPrintf | apply logsOnly_ret]. }
    apply sendsPrefixOf_bind_quiet.
    { destruct q2Results; [eapply quiet_logsOnly, logsOnly_ret | apply quiet_throw]. }
    intros r2. apply sendsPrefixOf_bind_quiet; [apply quiet_setFromSamples|].
    intros memory. eapply sendsPrefixOf_quiet, quiet_logsOnly, logsOnly_ret. }
  destruct (Hcalc (resetGauges e)) as (sent & Hsent & Hpre).
  exists sent. split; [|done]. unfold Collect. cbv zeta. unfold bind.
  by destruct (calc (resetGauges e) σ) as [σ1 [e1|p]].
Qed.
